(** * scripts/fetch_monkeytype.py: a shallow embedding and its properties

    The script fetches the typing runs of a user, aggregates the best speed
    and the average accuracy, formats a label and fills an SVG badge
    template.  The Python values that flow through it are modelled as they
    are at run time: [str] as a list of Unicode code points, [int] as [Z],
    [float] as an IEEE-754 binary64 number (the standard library's
    [spec_float]), decoded JSON as a tree of such values. *)

From Stdlib Require Import ZArith QArith Qabs List Bool Lia Lqa String Ascii Permutation.
From Stdlib Require Import DecimalString.
From Stdlib Require Floats.SpecFloat.
Import ListNotations.

Set Warnings "-register-all".
Local Open Scope Z_scope.

(** ** Python strings *)

Module PyStr.

(** A Python [str] is a sequence of code points. *)
Definition codepoint := N.
Definition pystr := list codepoint.

(** An ASCII literal of this file as a Python string. *)
Definition lit (s : string) : pystr :=
  List.map N_of_ascii (list_ascii_of_string s).

(** [len(s)], for a [str] and for a [list] alike. *)
Definition len {A} (s : list A) : Z := Z.of_nat (List.length s).

Fixpoint eqb (a b : pystr) : bool :=
  match a, b with
  | [], [] => true
  | x :: a', y :: b' => N.eqb x y && eqb a' b'
  | _, _ => false
  end.

(** [s.replace(c, by)] for a pattern of one character. *)
Definition replace_char (c : codepoint) (by_ : pystr) (s : pystr) : pystr :=
  List.flat_map (fun x => if N.eqb x c then by_ else [x]) s.

(** [str(n)] for an [int]: decimal digits, with a minus sign when negative. *)
Definition of_int (z : Z) : pystr := lit (NilZero.string_of_int (Z.to_int z)).

(** The decimal digits of a non-negative integer, most significant first. *)
Definition digits (z : Z) : pystr := lit (NilZero.string_of_uint (N.to_uint (Z.to_N z))).

Definition is_digit (c : codepoint) : bool := (48 <=? c)%N && (c <=? 57)%N.

Definition lower (c : codepoint) : codepoint :=
  if (65 <=? c)%N && (c <=? 90)%N then (c + 32)%N else c.

End PyStr.

(** ** Python floats: IEEE-754 binary64 *)

Module F64.

Import Floats.SpecFloat.

Definition float := spec_float.

(** The precision, the exponent of the infinities and the least exponent
    of binary64. *)
Definition prec : Z := 53.
Definition emax : Z := 1024.
Definition emin : Z := 3 - emax - prec.

Definition nan : float := S754_nan.
Definition inf (neg : bool) : float := S754_infinity neg.
Definition zero (neg : bool) : float := S754_zero neg.

Definition is_finite (x : float) : bool :=
  match x with
  | S754_zero _ | S754_finite _ _ _ => true
  | _ => false
  end.

Definition is_nan (x : float) : bool :=
  match x with S754_nan => true | _ => false end.

Definition sign_bit (x : float) : bool :=
  match x with
  | S754_zero s | S754_infinity s | S754_finite s _ _ => s
  | S754_nan => false
  end.

(** The exact value of a finite float, as a rational.  (A [spec_float]
    whose mantissa and exponent are not those of a binary64 number is
    read by its exact value as well; every operation below returns a
    binary64 number.) *)
Definition Qval (x : float) : Q :=
  match x with
  | S754_finite s m e =>
      let n := if s then Z.neg m else Z.pos m in
      match e with
      | Z0 => n # 1
      | Z.pos p => (n * 2 ^ Z.pos p) # 1
      | Z.neg p => n # (2 ^ p)
      end
  | _ => 0 # 1
  end.

(** [n / d] rounded to the nearest integer, ties to the even one
    ([d] positive). *)
Definition div_half_even (n d : Z) : Z :=
  let q := n / d in
  let r := n mod d in
  match 2 * r ?= d with
  | Lt => q
  | Gt => q + 1
  | Eq => if Z.even q then q else q + 1
  end.

(** The floor of the binary logarithm of [n / d], for positive [n], [d]. *)
Definition ilog2_ratio (n d : Z) : Z :=
  let k := Z.log2 n - Z.log2 d in
  if 0 <=? k
  then (if d * 2 ^ k <=? n then k else k - 1)
  else (if d <=? n * 2 ^ (- k) then k else k - 1).

(** Round the rational [n / d] ([n >= 0], [d > 0]) to the nearest binary64
    number of sign [s], ties to even: the mantissa has [prec] bits, fewer
    at the least exponent [emin]; values beyond the largest finite number
    round to infinity. *)
Definition round_ratio (s : bool) (n d : Z) : float :=
  if n <=? 0 then S754_zero s else
  let lg := ilog2_ratio n d in
  let e := Z.max (lg - (prec - 1)) emin in
  let m := if 0 <=? e then div_half_even n (d * 2 ^ e)
           else div_half_even (n * 2 ^ (- e)) d in
  let '(m, e) := if m =? 2 ^ prec then (2 ^ (prec - 1), e + 1) else (m, e) in
  if emax - prec <? e then S754_infinity s
  else match m with
       | Z.pos p => S754_finite s p e
       | _ => S754_zero s
       end.

(** Round a rational to binary64; an exact zero takes the sign [zs]. *)
Definition of_Q (zs : bool) (q : Q) : float :=
  match Qnum q with
  | Z0 => S754_zero zs
  | Z.pos n => round_ratio false (Z.pos n) (Z.pos (Qden q))
  | Z.neg n => round_ratio true (Z.pos n) (Z.pos (Qden q))
  end.

(** [float(n)] for an [int]: [None] is [OverflowError]. *)
Definition of_int (z : Z) : option float :=
  let f := of_Q false (z # 1) in
  if is_finite f then Some f else None.

(** [x + y]. *)
Definition add (x y : float) : float :=
  match x, y with
  | S754_nan, _ | _, S754_nan => S754_nan
  | S754_infinity a, S754_infinity b =>
      if Bool.eqb a b then x else S754_nan
  | S754_infinity _, _ => x
  | _, S754_infinity _ => y
  | S754_zero a, S754_zero b => S754_zero (a && b)
  | _, _ => of_Q false (Qval x + Qval y)
  end.

(** [x / y] for a [y] that is not zero. *)
Definition div (x y : float) : float :=
  match x, y with
  | S754_nan, _ | _, S754_nan => S754_nan
  | S754_infinity _, S754_infinity _ => S754_nan
  | S754_infinity a, _ => S754_infinity (xorb a (sign_bit y))
  | _, S754_infinity b => S754_zero (xorb (sign_bit x) b)
  | _, S754_zero _ => S754_nan
  | _, _ => of_Q (xorb (sign_bit x) (sign_bit y)) (Qval x / Qval y)
  end.

Definition Qgtb (a b : Q) : bool :=
  match (a ?= b)%Q with Gt => true | _ => false end.

(** [x > y]: false as soon as one side is a NaN. *)
Definition gt (x y : float) : bool :=
  match x, y with
  | S754_nan, _ | _, S754_nan => false
  | S754_infinity a, S754_infinity b => negb a && b
  | S754_infinity a, _ => negb a
  | _, S754_infinity b => b
  | _, _ => Qgtb (Qval x) (Qval y)
  end.

(** [- x], [x - y] and [abs(x)]. *)
Definition neg (x : float) : float :=
  match x with
  | S754_zero s => S754_zero (negb s)
  | S754_infinity s => S754_infinity (negb s)
  | S754_nan => S754_nan
  | S754_finite s m e => S754_finite (negb s) m e
  end.

Definition sub (x y : float) : float := add x (neg y).

Definition abs (x : float) : float :=
  match x with
  | S754_zero _ => S754_zero false
  | S754_infinity _ => S754_infinity false
  | S754_nan => S754_nan
  | S754_finite _ m e => S754_finite false m e
  end.

(** [x >= y]: false as soon as one side is a NaN. *)
Definition ge (x y : float) : bool :=
  negb (is_nan x) && negb (is_nan y) && negb (gt y x).

(** [x != 0]: true of a NaN. *)
Definition nonzero (x : float) : bool :=
  match x with S754_zero _ => false | _ => true end.

(** [round(x)]: the nearest [int], ties to even; [None] is the
    [ValueError] of a NaN or the [OverflowError] of an infinity. *)
Definition round_int (x : float) : option Z :=
  match x with
  | S754_nan | S754_infinity _ => None
  | _ => Some (div_half_even (Qnum (Qval x)) (Z.pos (Qden (Qval x))))
  end.

(** [round(x, 1)]: the exact value of [x] is rounded to one decimal
    (ties to even), and the result is the float nearest to that decimal;
    NaN and the infinities round to themselves. *)
Definition round_1 (x : float) : float :=
  match x with
  | S754_finite s _ _ =>
      let q := Qval x in
      let k := div_half_even (10 * Qnum q) (Z.pos (Qden q)) in
      round_ratio s (Z.abs k) 10
  | _ => x
  end.

End F64.

(** ** Python builtins on floats and strings: [repr] and [float] *)

Module PyFloat.

Import PyStr Floats.SpecFloat.

Definition feqb (a b : F64.float) : bool :=
  match a, b with
  | S754_nan, S754_nan => true
  | S754_zero s, S754_zero t => Bool.eqb s t
  | S754_infinity s, S754_infinity t => Bool.eqb s t
  | S754_finite s m e, S754_finite t m' e' =>
      Bool.eqb s t && Pos.eqb m m' && Z.eqb e e'
  | _, _ => false
  end.

(** *** [repr(x)]: the shortest decimal string that reads back as [x] *)

(** The floor of the decimal logarithm of [n / d], for the positive
    ratios that are values of floats. *)
Definition ilog10_ratio (n d : Z) : Z :=
  let p0 := (F64.ilog2_ratio n d * 1233) / 4096 in
  let ge p := if 0 <=? p then d * 10 ^ p <=? n else d <=? n * 10 ^ (- p) in
  if ge (p0 + 1) then p0 + 1 else if ge p0 then p0 else p0 - 1.

(** Does the decimal [c * 10^(-sc)] read back as the positive float [x]? *)
Definition reads_back (x : F64.float) (c sc : Z) : bool :=
  feqb x (if 0 <=? sc then F64.round_ratio false c (10 ^ sc)
          else F64.round_ratio false (c * 10 ^ (- sc)) 1).

(** Search the decimals of [nd], [nd + 1], ... significant digits for one
    that reads back as [x] (of value [n / d], with [10^p <= n / d <
    10^(p+1)]); of two with the same number of digits the nearer to [x]
    wins.  The result is the integer of the digits and the scale. *)
Fixpoint shortest (fuel : nat) (x : F64.float) (n d p nd : Z) : Z * Z :=
  let sc := nd - 1 - p in
  let N := if 0 <=? sc then n * 10 ^ sc else n in
  let D := if 0 <=? sc then d else d * 10 ^ (- sc) in
  let lo := N / D in
  let r := N mod D in
  match fuel with
  | O => (F64.div_half_even N D, sc)
  | S fuel' =>
      let ok_lo := reads_back x lo sc in
      let ok_hi := negb (r =? 0) && reads_back x (lo + 1) sc in
      if ok_lo && ok_hi then (F64.div_half_even N D, sc)
      else if ok_lo then (lo, sc)
      else if ok_hi then (lo + 1, sc)
      else shortest fuel' x n d p (nd + 1)
  end.

Fixpoint drop_zeros (rev_digits : pystr) : pystr :=
  match rev_digits with
  | 48%N :: r => drop_zeros r
  | _ => rev_digits
  end.

(** The significant digits of a positive finite float and the position
    [decpt] of the decimal point: the value is [0.d1d2...dn * 10^decpt]. *)
Definition float_digits (x : F64.float) : pystr * Z :=
  let q := F64.Qval x in
  let n := Z.abs (Qnum q) in
  let d := Z.pos (Qden q) in
  let p := ilog10_ratio n d in
  let '(c, sc) := shortest 16 (F64.of_Q false (n # Qden q)) n d p 1 in
  let ds := digits c in
  (List.rev (drop_zeros (List.rev ds)), len ds - sc).

Definition zeros (k : Z) : pystr := List.repeat 48%N (Z.to_nat k).

(** The exponent of the scientific notation: a sign and at least two
    digits. *)
Definition exp_str (e : Z) : pystr :=
  (if e <? 0 then lit "-" else lit "+")
  ++ (if Z.abs e <? 10 then lit "0" else []) ++ digits (Z.abs e).

(** The layout of [repr]: scientific notation when [decpt <= -4] or
    [decpt > 16], positional otherwise, always with a fractional part or
    an exponent. *)
Definition layout (ds : pystr) (decpt : Z) : pystr :=
  if (decpt <=? -4) || (16 <? decpt) then
    match ds with
    | [] => []
    | [d1] => d1 :: lit "e" ++ exp_str (decpt - 1)
    | d1 :: rest => d1 :: lit "." ++ rest ++ lit "e" ++ exp_str (decpt - 1)
    end
  else if decpt <=? 0 then lit "0." ++ zeros (- decpt) ++ ds
  else if len ds <=? decpt then ds ++ zeros (decpt - len ds) ++ lit ".0"
  else List.firstn (Z.to_nat decpt) ds ++ lit "." ++ List.skipn (Z.to_nat decpt) ds.

Definition repr (x : F64.float) : pystr :=
  match x with
  | S754_nan => lit "nan"
  | S754_infinity s => if s then lit "-inf" else lit "inf"
  | S754_zero s => if s then lit "-0.0" else lit "0.0"
  | S754_finite s _ _ =>
      let '(ds, decpt) := float_digits x in
      (if s then lit "-" else []) ++ layout ds decpt
  end.

(** *** [float(s)] for a [str] *)

(** The two tables of the Unicode database that [float] consults for the
    characters outside ASCII: which are white space, and which are decimal
    digits (and of which value). *)
Class UnicodeData := {
  uni_isspace : codepoint -> bool;
  uni_todecimal : codepoint -> option N
}.

(** The tables restricted to ASCII, where [float] never consults them. *)
Definition ucd_ascii : UnicodeData :=
  {| uni_isspace := fun _ => false; uni_todecimal := fun _ => None |}.

Definition ascii_isspace (c : codepoint) : bool :=
  ((9 <=? c) && (c <=? 13) || (c =? 32))%N.

Fixpoint span (p : codepoint -> bool) (s : pystr) : pystr * pystr :=
  match s with
  | c :: r => if p c then let '(a, b) := span p r in (c :: a, b) else ([], s)
  | [] => ([], [])
  end.

Fixpoint drop_while (p : codepoint -> bool) (s : pystr) : pystr :=
  match s with
  | c :: r => if p c then drop_while p r else s
  | [] => []
  end.

Definition strip (s : pystr) : pystr :=
  List.rev (drop_while ascii_isspace (List.rev (drop_while ascii_isspace s))).

Section FloatOfStr.
Context {ucd : UnicodeData}.

(** White space and decimal digits outside ASCII become a space and an
    ASCII digit; any other character outside ASCII becomes a question
    mark and ends the string. *)
Fixpoint to_ascii (s : pystr) : pystr :=
  match s with
  | [] => []
  | c :: r =>
      if (c <? 127)%N then c :: to_ascii r
      else if uni_isspace c then 32%N :: to_ascii r
      else match uni_todecimal c with
           | Some d => (48 + d)%N :: to_ascii r
           | None => [63%N]
           end
  end.

End FloatOfStr.

(** Underscores are removed; one is allowed only between two digits. *)
Fixpoint strip_underscores (prev : codepoint) (s : pystr) : option pystr :=
  match s with
  | [] => if (prev =? 95)%N then None else Some []
  | c :: r =>
      if (c =? 95)%N then
        if is_digit prev then strip_underscores c r else None
      else if (prev =? 95)%N && negb (is_digit c) then None
      else option_map (cons c) (strip_underscores c r)
  end.

Definition parse_sign (s : pystr) : bool * pystr :=
  match s with
  | 45%N :: r => (true, r)
  | 43%N :: r => (false, r)
  | _ => (false, s)
  end.

Definition digits_value (ds : pystr) : Z :=
  List.fold_left (fun a c => 10 * a + (Z.of_N c - 48)) ds 0.

(** The float nearest to [m * 10^k], of sign [neg]. *)
Definition of_decimal (neg : bool) (m k : Z) : F64.float :=
  if 0 <=? k then F64.round_ratio neg (m * 10 ^ k) 1
  else F64.round_ratio neg m (10 ^ (- k)).

(** The longest prefix that is a decimal number (digits with an optional
    point, then an optional exponent that counts only when it has a
    digit), its value and the rest of the string. *)
Definition parse_decimal (s : pystr) : option (F64.float * pystr) :=
  let '(neg, s1) := parse_sign s in
  let '(ip, s2) := span is_digit s1 in
  let '(fp, s3) := match s2 with
                   | 46%N :: r => span is_digit r
                   | _ => ([], s2)
                   end in
  match ip ++ fp with
  | [] => None
  | _ :: _ =>
      let '(ex, s4) :=
        match s3 with
        | c :: r =>
            if (lower c =? 101)%N then
              let '(eneg, r1) := parse_sign r in
              let '(ed, r2) := span is_digit r1 in
              match ed with
              | [] => (0, s3)
              | _ :: _ => ((if eneg then - digits_value ed else digits_value ed), r2)
              end
            else (0, s3)
        | [] => (0, s3)
        end in
      Some (of_decimal neg (digits_value (ip ++ fp)) (ex - len fp), s4)
  end.

Fixpoint match_nocase (pat s : pystr) : option pystr :=
  match pat, s with
  | [], _ => Some s
  | p :: pat', c :: s' => if (lower c =? p)%N then match_nocase pat' s' else None
  | _ :: _, [] => None
  end.

(** [inf], [infinity] and [nan], in any case, with an optional sign. *)
Definition parse_inf_or_nan (s : pystr) : option (F64.float * pystr) :=
  let '(neg, s1) := parse_sign s in
  match match_nocase (lit "inf") s1 with
  | Some r =>
      match match_nocase (lit "inity") r with
      | Some r' => Some (F64.inf neg, r')
      | None => Some (F64.inf neg, r)
      end
  | None =>
      match match_nocase (lit "nan") s1 with
      | Some r => Some (F64.nan, r)
      | None => None
      end
  end.

(** [float(s)]: [None] is [ValueError]. *)
Definition of_str {ucd : UnicodeData} (s : pystr) : option F64.float :=
  match strip_underscores 0%N (strip (to_ascii s)) with
  | None => None
  | Some t =>
      match parse_decimal t with
      | Some (f, []) => Some f
      | Some (_, _ :: _) => None
      | None =>
          match parse_inf_or_nan t with
          | Some (f, []) => Some f
          | _ => None
          end
      end
  end.

End PyFloat.

(** ** Python values, exceptions and the builtins the script calls *)

Module Py.

Import PyStr.

(** The exceptions the script can meet; all derive from [Exception]. *)
Inductive exn :=
| ValueError | TypeError | OverflowError | ZeroDivisionError | KeyError.

(** The outcome of an expression that may raise. *)
Inductive result (A : Type) :=
| Return (a : A)
| Raise (e : exn).
Arguments Return {A} a.
Arguments Raise {A} e.

Definition bind {A B} (r : result A) (k : A -> result B) : result B :=
  match r with
  | Return a => k a
  | Raise e => Raise e
  end.

(** [try: ... except Exception: ...]. *)
Definition try_except {A} (r : result A) (handler : exn -> A) : A :=
  match r with
  | Return a => a
  | Raise e => handler e
  end.

(** What [json] decoding produces: [None], [bool], [int], [float], [str],
    [list] and [dict] (with [str] keys; the first binding of a key is the
    one in force). *)
Inductive value :=
| VNone
| VBool (b : bool)
| VInt (z : Z)
| VFloat (f : F64.float)
| VStr (s : pystr)
| VList (l : list value)
| VDict (d : list (pystr * value)).

Fixpoint dict_find (k : pystr) (d : list (pystr * value)) : option value :=
  match d with
  | [] => None
  | (k', v) :: d' => if PyStr.eqb k k' then Some v else dict_find k d'
  end.

(** [k in d]. *)
Definition dict_contains (k : pystr) (d : list (pystr * value)) : bool :=
  match dict_find k d with Some _ => true | None => false end.

(** [d.get(k, default)]. *)
Definition dict_get (k : pystr) (d : list (pystr * value)) (default : value)
  : value :=
  match dict_find k d with Some v => v | None => default end.

Section Builtins.
Context {ucd : PyFloat.UnicodeData}.

(** [float(v)]: a float is itself, a [bool] and an [int] are converted
    (an [int] beyond the floats raises [OverflowError]), a [str] is
    parsed (or raises [ValueError]); anything else raises [TypeError]. *)
Definition float (v : value) : result F64.float :=
  match v with
  | VFloat f => Return f
  | VBool b => Return (F64.of_Q false ((if b then 1 else 0) # 1))
  | VInt z =>
      match F64.of_int z with
      | Some f => Return f
      | None => Raise OverflowError
      end
  | VStr s =>
      match PyFloat.of_str s with
      | Some f => Return f
      | None => Raise ValueError
      end
  | VNone | VList _ | VDict _ => Raise TypeError
  end.

End Builtins.

(** [round(x)] for a float: an [int]; a NaN raises [ValueError] and an
    infinity [OverflowError]. *)
Definition round (x : F64.float) : result Z :=
  match F64.round_int x with
  | Some z => Return z
  | None => Raise (if F64.is_nan x then ValueError else OverflowError)
  end.

(** [max(l)] for a list of floats: the first element that no later
    element is [>] than; an empty list raises [ValueError]. *)
Definition max (l : list F64.float) : result F64.float :=
  match l with
  | [] => Raise ValueError
  | x :: r => Return (List.fold_left (fun m y => if F64.gt y m then y else m) r x)
  end.

(** What the result of the script depends on in the interpreter: how
    [sum] adds floats.  Up to CPython 3.11 the items are added from left
    to right; from CPython 3.12 on the rounding errors of the additions
    are compensated, which can change the sum and, through it, the
    average that is printed. *)
Inductive interpreter := Before_3_12 | From_3_12.

Existing Class interpreter.

(** [sum(l)] up to CPython 3.11: the items are added from left to right
    to the start value [0]. *)
Definition sum_left (l : list F64.float) : F64.float :=
  List.fold_left F64.add l (F64.zero false).

(** One turn of the loop of [sum] from CPython 3.12 on (Neumaier's
    summation): [f] is the running sum and [c] the compensation, to
    which the part of [x] or of [f] that the addition lost is added. *)
Definition compensate (state : F64.float * F64.float) (x : F64.float)
  : F64.float * F64.float :=
  let '(f, c) := state in
  let t := F64.add f x in
  let lost := if F64.ge (F64.abs f) (F64.abs x)
              then F64.add (F64.sub f t) x
              else F64.add (F64.sub x t) f in
  (t, F64.add c lost).

(** [sum(l)] from CPython 3.12 on: the first item is added to the start
    value [0], the others go through the compensated loop, and the
    compensation is added at the end when it is finite and not zero. *)
Definition sum_compensated (l : list F64.float) : F64.float :=
  match l with
  | [] => F64.zero false
  | x :: r =>
      let '(f, c) := List.fold_left compensate r
                       (F64.add (F64.zero false) x, F64.zero false) in
      if F64.nonzero c && F64.is_finite c then F64.add f c else f
  end.

(** [sum(l)] for a list of floats. *)
Definition sum {py : interpreter} (l : list F64.float) : F64.float :=
  match py with
  | Before_3_12 => sum_left l
  | From_3_12 => sum_compensated l
  end.

(** [x / n] for a float and an [int] that is the length of a list.  A
    length is below [2^63], so its conversion to float cannot overflow;
    dividing by zero raises [ZeroDivisionError]. *)
Definition truediv_float_len (x : F64.float) (n : Z) : result F64.float :=
  if n =? 0 then Raise ZeroDivisionError
  else Return (F64.div x (F64.of_Q false (n # 1))).

(** [a / b] for an [int] whose size is that of a length and a positive
    [int]: the float nearest to the quotient. *)
Definition truediv_int_int (a b : Z) : result F64.float :=
  match b with
  | Z.pos p => Return (F64.of_Q false (a # p))
  | Z0 => Raise ZeroDivisionError
  | Z.neg p => Return (F64.of_Q false (- a # p))
  end.

(** An [int] or a [float]: what [round(x, 1)] takes and returns here. *)
Inductive number :=
| Int (z : Z)
| Float (f : F64.float).

(** [round(x, 1)]: an [int] is returned as it is. *)
Definition round1 (x : number) : number :=
  match x with
  | Int z => Int z
  | Float f => Float (F64.round_1 f)
  end.

(** [str(x)], which is what an f-string field prints. *)
Definition str (x : number) : pystr :=
  match x with
  | Int z => of_int z
  | Float f => PyFloat.repr f
  end.

(** [template.format] with keyword arguments, for templates whose
    replacement fields are plain names ([{name}]), the values being
    already converted with [str].  Doubled braces stand for one brace; a
    field without its closing brace or a lone closing brace raises
    [ValueError], an unknown name [KeyError]. *)
Fixpoint format_from (fields : list (pystr * pystr)) (name : option pystr)
  (s : pystr) : result pystr :=
  match s with
  | [] => match name with None => Return [] | Some _ => Raise ValueError end
  | c :: r =>
      match name with
      | None =>
          if (c =? 123)%N then
            match r with
            | 123%N :: r' => bind (format_from fields None r') (fun t => Return (c :: t))
            | _ => format_from fields (Some []) r
            end
          else if (c =? 125)%N then
            match r with
            | 125%N :: r' => bind (format_from fields None r') (fun t => Return (c :: t))
            | _ => Raise ValueError
            end
          else bind (format_from fields None r) (fun t => Return (c :: t))
      | Some acc =>
          if (c =? 125)%N then
            match List.find (fun kv => PyStr.eqb (fst kv) (List.rev acc)) fields with
            | Some kv => bind (format_from fields None r) (fun t => Return (snd kv ++ t))
            | None => Raise KeyError
            end
          else if (c =? 123)%N || (c =? 33)%N || (c =? 58)%N || (c =? 46)%N
                  || (c =? 91)%N then Raise ValueError
          else format_from fields (Some (c :: acc)) r
      end
  end.

Definition format (template : pystr) (fields : list (pystr * pystr))
  : result pystr :=
  format_from fields None template.

(** [html.escape(s)], with its default [quote=True]: five replacements,
    the ampersand first. *)
Definition escape (s : pystr) : pystr :=
  let s := replace_char 38%N (lit "&amp;") s in
  let s := replace_char 60%N (lit "&lt;") s in
  let s := replace_char 62%N (lit "&gt;") s in
  let s := replace_char 34%N (lit "&quot;") s in
  let s := replace_char 39%N (lit "&#x27;") s in
  s.

End Py.

(** ** The script *)

Module Script.

Import PyStr Py.

(** The quotation marks of a literal of the source are written as
    apostrophes in this file (the literals concerned contain none). *)
Definition quoted (s : string) : pystr :=
  List.map (fun c => if (c =? 39)%N then 34%N else c) (lit s).

Definition MONKEYTYPE_SCOREBOARD_URL : pystr :=
  lit "https://monkeytype.com/api/scoreboard?user={username}".

Definition BADGE_TEMPLATE : pystr := quoted
"<svg xmlns='http://www.w3.org/2000/svg' width='{width}' height='20' viewBox='0 0 {width} 20' role='img' aria-label='MonkeyType: {label}'>
  <title>MonkeyType: {label}</title>
  <linearGradient id='g' x2='0' y2='100%'>
    <stop offset='0' stop-color='#bbb' stop-opacity='.1'/>
    <stop offset='1' stop-opacity='.1'/>
  </linearGradient>
  <rect rx='3' width='{width}' height='20' fill='#555'/>
  <rect rx='3' x='{left_width}' width='{right_width}' height='20' fill='#2aa198'/>
  <rect rx='3' width='{width}' height='20' fill='url(#g)'/>
  <g fill='#fff' text-anchor='middle' font-family='DejaVu Sans,Verdana,Geneva,sans-serif' font-size='11'>
    <text x='{left_center}' y='14' fill='#fff'>MonkeyType</text>
    <text x='{right_center}' y='14' fill='#fff'>{value_text}</text>
  </g>
</svg>
".

(** *** The world around [fetch_stats] *)

(** What [res.json()] does: it raises (with the text of the exception) or
    returns the decoded value. *)
Inductive json_outcome :=
| JsonRaises (e : pystr)
| JsonReturns (data : value).

Record response := { status_code : Z; json : json_outcome }.

(** What [requests.get] does: it raises or returns a response. *)
Inductive get_outcome :=
| GetRaises (e : pystr)
| GetReturns (res : response).

(** What the function does to the world, in order. *)
Inductive event :=
| Get (url : pystr) (timeout : Z) (headers : list (pystr * pystr))
| Json
| Stderr (line : pystr).

(** The dict that [fetch_stats] returns: it always has its two keys, so
    it is never falsy. *)
Record Stats := { best_wpm : Z; avg_acc : number }.

Section WithUnicode.
Context {ucd : PyFloat.UnicodeData} {py : interpreter}.

Definition safe_int (v : value) (default : Z) : Z :=
  try_except (bind (float v) round) (fun _ => default).

(** One turn of the loop over [data]. *)
Definition loop_body (lists : list F64.float * list F64.float) (item : value)
  : list F64.float * list F64.float :=
  match item with
  | VDict d =>
      let '(wpms, accs) := lists in
      let wpms :=
        if dict_contains (lit "wpm") d then
          try_except
            (bind (float (dict_get (lit "wpm") d (VInt 0)))
                  (fun f => Return (wpms ++ [f])))
            (fun _ => wpms)
        else wpms in
      let accs :=
        if dict_contains (lit "acc") d then
          try_except
            (bind (float (dict_get (lit "acc") d (VInt 0)))
                  (fun f => Return (accs ++ [f])))
            (fun _ => accs)
        else accs in
      (wpms, accs)
  | _ => lists
  end.

(** [fetch_stats] from the decoded payload on (lines 60 to 80). *)
Definition stats_of_data (data : value) : result (option Stats) :=
  match data with
  | VList [] => Return None
  | VList items =>
      let '(wpms, accs) := List.fold_left loop_body items ([], []) in
      bind (match wpms with
            | [] => Return (VInt 0)
            | _ :: _ => bind (max wpms) (fun m => Return (VFloat m))
            end) (fun best =>
      let best_wpm := safe_int best 0 in
      bind (match accs with
            | [] => Return (Int 0)
            | _ :: _ => bind (truediv_float_len (sum accs) (len accs))
                             (fun q => Return (Float q))
            end) (fun mean =>
      let avg_acc := round1 mean in
      Return (Some {| best_wpm := best_wpm; avg_acc := avg_acc |})))
  | _ => Return None
  end.

Definition fetch_stats (net : pystr -> get_outcome) (username : pystr)
  : list event * result (option Stats) :=
  match format MONKEYTYPE_SCOREBOARD_URL [(lit "username", username)] with
  | Raise e => ([], Raise e)
  | Return url =>
      let get := Get url 15 [(lit "User-Agent", lit "github-action/monkeytype-badge")] in
      match net url with
      | GetRaises e =>
          ([get; Stderr (lit "Request failed: " ++ e)], Return None)
      | GetReturns res =>
          if negb (status_code res =? 200) then
            ([get; Stderr (lit "Unexpected status " ++ of_int (status_code res)
                           ++ lit " from " ++ url)],
             Return None)
          else
            match json res with
            | JsonRaises e =>
                ([get; Json; Stderr (lit "Failed to decode JSON: " ++ e)],
                 Return None)
            | JsonReturns data => ([get; Json], stats_of_data data)
            end
      end
  end.

End WithUnicode.

(** *** The badge *)

Definition left_width : Z := 72.

Definition right_width (value_text : pystr) : Z :=
  Z.max 60 (7 * len value_text + 20).

Definition width (value_text : pystr) : Z :=
  left_width + right_width value_text.

Definition left_center : result F64.float := truediv_int_int left_width 2.

(** [left_width + right_width / 2]: the [int] is converted and the two
    floats are added. *)
Definition right_center (value_text : pystr) : result F64.float :=
  bind (truediv_int_int (right_width value_text) 2) (fun half =>
  Return (F64.add (F64.of_Q false (left_width # 1)) half)).

Definition render_badge (value_text : pystr) : result pystr :=
  bind left_center (fun lc =>
  bind (right_center value_text) (fun rc =>
  format BADGE_TEMPLATE
    [ (lit "width", of_int (width value_text));
      (lit "left_width", of_int left_width);
      (lit "right_width", of_int (right_width value_text));
      (lit "left_center", str (Float lc));
      (lit "right_center", str (Float rc));
      (lit "label", escape value_text);
      (lit "value_text", escape value_text) ])).

(** *** [main], up to the markup it writes *)

(** The separator of the label, as the source file has it: the two
    characters U+00C2 and U+00B7. *)
Definition separator : pystr := [194; 183]%N.

(** The text of the right segment (lines 105 to 108). *)
Definition value_text (stats : option Stats) : pystr :=
  match stats with
  | None => lit "no data"
  | Some s =>
      of_int (best_wpm s) ++ lit " WPM " ++ separator ++ lit " "
      ++ str (avg_acc s) ++ lit "%"
  end.

Definition main {ucd : PyFloat.UnicodeData} {py : interpreter}
  (net : pystr -> get_outcome) (username : pystr)
  : list event * result pystr :=
  let '(events, r) := fetch_stats net username in
  (events, bind r (fun stats => render_badge (value_text stats))).

End Script.

(** ** Well-formed markup

    What the properties of [render_badge] are measured against: the
    well-formedness of XML 1.0 for documents made of elements, attributes,
    character data and references (no comment, processing instruction,
    CDATA section or document type), as an automaton that reads the
    document character by character. *)

Module Xml.

Import PyStr.
Local Open Scope N_scope.

Definition between (lo hi c : codepoint) : bool := ((lo <=? c) && (c <=? hi))%N.

(** The characters that a document may contain at all (production [Char]). *)
Definition is_char (c : codepoint) : bool :=
  (c =? 9)%N || (c =? 10)%N || (c =? 13)%N || between 32 55295 c
  || between 57344 65533 c || between 65536 1114111 c.

Definition is_space (c : codepoint) : bool :=
  (c =? 32)%N || (c =? 9)%N || (c =? 10)%N || (c =? 13)%N.

Definition is_name_start (c : codepoint) : bool :=
  (c =? 58)%N || between 65 90 c || (c =? 95)%N || between 97 122 c
  || between 192 214 c || between 216 246 c || between 248 767 c
  || between 880 893 c || between 895 8191 c || between 8204 8205 c
  || between 8304 8591 c || between 11264 12271 c || between 12289 55295 c
  || between 63744 64975 c || between 65008 65533 c || between 65536 983039 c.

Definition is_name_char (c : codepoint) : bool :=
  is_name_start c || (c =? 45)%N || (c =? 46)%N || between 48 57 c
  || (c =? 183)%N || between 768 879 c || between 8255 8256 c.

Definition hex_value (c : codepoint) : option N :=
  if between 48 57 c then Some (c - 48)%N
  else if between 97 102 c then Some (c - 87)%N
  else if between 65 70 c then Some (c - 55)%N
  else None.

(** The five entities that need no declaration. *)
Definition predefined : list pystr :=
  [lit "amp"; lit "lt"; lit "gt"; lit "apos"; lit "quot"].

Definition mem (s : pystr) (l : list pystr) : bool :=
  List.existsb (PyStr.eqb s) l.

(** A start tag being read: its name and the attributes seen so far. *)
Record tag := { tag_name : pystr; tag_attrs : list pystr }.

(** Where a reference occurs: in character data or in an attribute value
    (of a tag, between quotes [q]). *)
Inductive context :=
| InContent
| InValue (t : tag) (q : codepoint).

Inductive mode :=
| Prolog                                  (* before the root element *)
| Epilog                                  (* after the root element *)
| Content (brackets : nat)                (* character data; the closing brackets just read *)
| TagOpen                                 (* after [<] *)
| StartName (t : tag)                     (* in the name of a start tag *)
| InTag (t : tag)                         (* between the attributes *)
| AttrName (t : tag) (a : pystr)          (* in the name of an attribute *)
| AttrEq (t : tag)                        (* after the name, before [=] *)
| AttrValueStart (t : tag)                (* after [=], before the quote *)
| AttrValue (t : tag) (q : codepoint)     (* in the value *)
| AfterAttr (t : tag)                     (* after the closing quote *)
| EmptyTagEnd                             (* after the [/] of an empty element *)
| EndTagStart                             (* after [</] *)
| EndName (n : pystr)                     (* in the name of an end tag *)
| EndSpace (n : pystr)                    (* after that name *)
| RefStart (k : context)                  (* after [&] *)
| EntityName (k : context) (n : pystr)    (* in the name of an entity *)
| CharRefStart (k : context)              (* after [&#] *)
| DecRef (k : context) (n : N)            (* in a decimal character reference *)
| HexRefStart (k : context)               (* after [&#x] *)
| HexRef (k : context) (n : N).           (* in a hexadecimal one *)

(** The open elements, innermost first, and the mode. *)
Definition state : Type := list pystr * mode.

Definition resume (k : context) : mode :=
  match k with
  | InContent => Content 0%nat
  | InValue t q => AttrValue t q
  end.

Definition after_element (stack : list pystr) : mode :=
  match stack with [] => Epilog | _ :: _ => Content 0%nat end.

Section Automaton.

(** [legal]: refuse the characters that are not [is_char].
    [strict]: refuse, beyond well-formedness, a raw [>] in character data. *)
Variables legal strict : bool.

Definition step (st : state) (c : codepoint) : option state :=
  let '(stack, m) := st in
  if legal && negb (is_char c) then None else
  match m with
  | Prolog =>
      if is_space c then Some (stack, Prolog)
      else if (c =? 60)%N then Some (stack, TagOpen)
      else None
  | Epilog => if is_space c then Some (stack, Epilog) else None
  | Content b =>
      if (c =? 60)%N then Some (stack, TagOpen)
      else if (c =? 38)%N then Some (stack, RefStart InContent)
      else if (c =? 93)%N then Some (stack, Content (Nat.min 2 (S b))%nat)
      else if (c =? 62)%N then
        if strict || Nat.eqb b 2%nat then None else Some (stack, Content 0%nat)
      else Some (stack, Content 0%nat)
  | TagOpen =>
      if (c =? 47)%N then Some (stack, EndTagStart)
      else if is_name_start c
      then Some (stack, StartName {| tag_name := [c]; tag_attrs := [] |})
      else None
  | StartName t =>
      if is_name_char c
      then Some (stack, StartName {| tag_name := tag_name t ++ [c];
                                     tag_attrs := tag_attrs t |})
      else if is_space c then Some (stack, InTag t)
      else if (c =? 62)%N then Some (tag_name t :: stack, Content 0%nat)
      else if (c =? 47)%N then Some (stack, EmptyTagEnd)
      else None
  | InTag t =>
      if is_space c then Some (stack, InTag t)
      else if is_name_start c then Some (stack, AttrName t [c])
      else if (c =? 62)%N then Some (tag_name t :: stack, Content 0%nat)
      else if (c =? 47)%N then Some (stack, EmptyTagEnd)
      else None
  | AttrName t a =>
      let declare :=
        if mem a (tag_attrs t) then None
        else Some {| tag_name := tag_name t; tag_attrs := a :: tag_attrs t |} in
      if is_name_char c then Some (stack, AttrName t (a ++ [c]))
      else if is_space c then option_map (fun t' => (stack, AttrEq t')) declare
      else if (c =? 61)%N
      then option_map (fun t' => (stack, AttrValueStart t')) declare
      else None
  | AttrEq t =>
      if is_space c then Some (stack, AttrEq t)
      else if (c =? 61)%N then Some (stack, AttrValueStart t)
      else None
  | AttrValueStart t =>
      if is_space c then Some (stack, AttrValueStart t)
      else if (c =? 34)%N || (c =? 39)%N then Some (stack, AttrValue t c)
      else None
  | AttrValue t q =>
      if (c =? q)%N then Some (stack, AfterAttr t)
      else if (c =? 60)%N then None
      else if (c =? 38)%N then Some (stack, RefStart (InValue t q))
      else Some (stack, AttrValue t q)
  | AfterAttr t =>
      if is_space c then Some (stack, InTag t)
      else if (c =? 62)%N then Some (tag_name t :: stack, Content 0%nat)
      else if (c =? 47)%N then Some (stack, EmptyTagEnd)
      else None
  | EmptyTagEnd =>
      if (c =? 62)%N then Some (stack, after_element stack) else None
  | EndTagStart =>
      if is_name_start c then Some (stack, EndName [c]) else None
  | EndName n =>
      if is_name_char c then Some (stack, EndName (n ++ [c]))
      else if is_space c then Some (stack, EndSpace n)
      else if (c =? 62)%N then
        match stack with
        | top :: rest =>
            if PyStr.eqb top n then Some (rest, after_element rest) else None
        | [] => None
        end
      else None
  | EndSpace n =>
      if is_space c then Some (stack, EndSpace n)
      else if (c =? 62)%N then
        match stack with
        | top :: rest =>
            if PyStr.eqb top n then Some (rest, after_element rest) else None
        | [] => None
        end
      else None
  | RefStart k =>
      if (c =? 35)%N then Some (stack, CharRefStart k)
      else if is_name_start c then Some (stack, EntityName k [c])
      else None
  | EntityName k n =>
      if is_name_char c then Some (stack, EntityName k (n ++ [c]))
      else if (c =? 59)%N then
        if mem n predefined then Some (stack, resume k) else None
      else None
  | CharRefStart k =>
      if (c =? 120)%N then Some (stack, HexRefStart k)
      else if between 48 57 c then Some (stack, DecRef k (c - 48)%N)
      else None
  | DecRef k n =>
      if between 48 57 c then Some (stack, DecRef k (10 * n + (c - 48))%N)
      else if (c =? 59)%N then
        if is_char n then Some (stack, resume k) else None
      else None
  | HexRefStart k =>
      match hex_value c with
      | Some d => Some (stack, HexRef k d)
      | None => None
      end
  | HexRef k n =>
      match hex_value c with
      | Some d => Some (stack, HexRef k (16 * n + d)%N)
      | None =>
          if (c =? 59)%N then
            if is_char n then Some (stack, resume k) else None
          else None
      end
  end.

Fixpoint run (st : state) (s : pystr) : option state :=
  match s with
  | [] => Some st
  | c :: r =>
      match step st c with
      | Some st' => run st' r
      | None => None
      end
  end.

Definition accepts (s : pystr) : bool :=
  match run ([], Prolog) s with
  | Some ([], Epilog) => true
  | _ => false
  end.

End Automaton.

(** A well-formed document. *)
Definition well_formed (s : pystr) : bool := accepts true false s.


End Xml.

(** ** What the properties speak of *)

Module Spec.

Import PyStr Py Script.

Section WithUnicode.
Context {ucd : PyFloat.UnicodeData}.

(** The float that a record contributes under a key: the record is a
    mapping, it has the key, and the value of the key converts. *)
Definition coerced (key : pystr) (item : value) : option F64.float :=
  match item with
  | VDict d =>
      match dict_find key d with
      | Some v =>
          match float v with
          | Return f => Some f
          | Raise _ => None
          end
      | None => None
      end
  | _ => None
  end.

(** The successfully coerced values of a key, in the order of the records. *)
Definition coerced_values (key : pystr) (items : list value)
  : list F64.float :=
  List.flat_map (fun item => match coerced key item with
                             | Some f => [f]
                             | None => []
                             end) items.

End WithUnicode.

(** The sum and the arithmetic mean of the values of a list of floats,
    as rational numbers: no rounding. *)
Definition total (l : list F64.float) : Q :=
  List.fold_right (fun x s => (F64.Qval x + s)%Q) (0 # 1) l.

Definition arithmetic_mean (l : list F64.float) : Q :=
  (total l / inject_Z (len l))%Q.

(** A finite float of absolute value at most the integer [hi]. *)
Definition bounded (hi : Z) (x : F64.float) : Prop :=
  F64.is_finite x = true /\ (Qabs (F64.Qval x) <= inject_Z hi)%Q.

(** [2^(B - 53)]: half the distance between two consecutive floats
    just below [2^B], which bounds the error of one rounding of a number
    of absolute value at most [2^B]. *)
Definition half_ulp (B : Z) : Q := 2 ^ B # 2 ^ 53.

(** A finite float within [err] of the rational [q]. *)
Definition near (err q : Q) (x : F64.float) : Prop :=
  F64.is_finite x = true /\ (q - err <= F64.Qval x <= q + err)%Q.

(** The number of items, as a rational. *)
Definition count (l : list F64.float) : Q := inject_Z (len l).

(** [z] is the integer nearest to [q], the even one when two are as near. *)
Definition nearest_even (q : Q) (z : Z) : Prop :=
  (Qabs (q - inject_Z z) <= 1 # 2)%Q
  /\ ((Qabs (q - inject_Z z) == 1 # 2)%Q -> Z.even z = true).

(** [y] is [x] rounded to one decimal: for a finite [x], the binary64
    number nearest to [k / 10] (with the sign of [x]), [k] being the
    integer nearest to ten times [x]; a NaN or an infinity is unchanged. *)
Definition rounded_to_1_decimal (x y : F64.float) : Prop :=
  match x with
  | Floats.SpecFloat.S754_finite s _ _ =>
      exists k : Z,
        nearest_even (10 * F64.Qval x) k
        /\ y = F64.round_ratio s (Z.abs k) 10
  | _ => y = x
  end.

(** A server that answers every request with status 200 and a payload. *)
Definition serves (data : value) : pystr -> get_outcome :=
  fun _ => GetReturns {| status_code := 200; json := JsonReturns data |}.

(** The float nearest to the decimal [m * 10^k]: what a decimal literal
    denotes. *)
Definition dec (m k : Z) : F64.float := PyFloat.of_decimal false m k.

(** The payload [[{"wpm": 120.4, "acc": 97.2}, {"wpm": 110, "acc": 95}]],
    decoded. *)
Definition scenario_1 : list value :=
  [ VDict [ (lit "wpm", VFloat (dec 1204 (-1)));
            (lit "acc", VFloat (dec 972 (-1))) ];
    VDict [ (lit "wpm", VInt 110); (lit "acc", VInt 95) ] ].

(** The payloads [[{"wpm": "nan"}, {"wpm": 1}]] and
    [[{"wpm": 1}, {"wpm": "nan"}]], decoded. *)
Definition nan_first : list value :=
  [ VDict [ (lit "wpm", VStr (lit "nan")) ]; VDict [ (lit "wpm", VInt 1) ] ].

Definition nan_last : list value :=
  [ VDict [ (lit "wpm", VInt 1) ]; VDict [ (lit "wpm", VStr (lit "nan")) ] ].

(** The address that [fetch_stats] requests. *)
Definition scoreboard_url (username : pystr) : pystr :=
  lit "https://monkeytype.com/api/scoreboard?user=" ++ username.

Definition request (username : pystr) : event :=
  Get (scoreboard_url username) 15
      [(lit "User-Agent", lit "github-action/monkeytype-badge")].

(** A decoded payload that is a non-empty sequence. *)
Definition nonempty_sequence (data : value) : bool :=
  match data with
  | VList (_ :: _) => true
  | _ => false
  end.

(** A template cut at its replacement fields. *)
Inductive segment :=
| Lit (s : pystr)
| Field (name : pystr).

Fixpoint segments_from (acc : pystr) (inside : bool) (s : pystr)
  : list segment :=
  match s with
  | [] => [Lit (List.rev acc)]
  | c :: r =>
      if inside then
        if (c =? 125)%N then Field (List.rev acc) :: segments_from [] false r
        else segments_from (c :: acc) true r
      else
        if (c =? 123)%N then Lit (List.rev acc) :: segments_from [] true r
        else segments_from (c :: acc) false r
  end.

Definition badge_segments : list segment :=
  Eval vm_compute in segments_from [] false BADGE_TEMPLATE.

(** The text of a segment: a literal is itself, a field is the value of
    its name. *)
Definition segment_text (fields : list (pystr * pystr)) (seg : segment)
  : pystr :=
  match seg with
  | Lit s => s
  | Field name =>
      match List.find (fun kv => PyStr.eqb (fst kv) name) fields with
      | Some kv => snd kv
      | None => []
      end
  end.

Definition fill (fields : list (pystr * pystr)) (segs : list segment) : pystr :=
  List.flat_map (segment_text fields) segs.

(** The fields that [render_badge] passes to the template. *)
Definition badge_fields (w lw rw lc rc label vt : pystr)
  : list (pystr * pystr) :=
  [ (lit "width", w); (lit "left_width", lw); (lit "right_width", rw);
    (lit "left_center", lc); (lit "right_center", rc);
    (lit "label", label); (lit "value_text", vt) ].

(** A string that the automaton reads through inside an attribute value
    and inside character data, coming back to where it was. *)
Definition passes (legal strict : bool) (v : pystr) : Prop :=
  (forall stack t q, q = 34%N \/ q = 39%N ->
     Xml.run legal strict (stack, Xml.AttrValue t q) v
     = Some (stack, Xml.AttrValue t q))
  /\ (forall stack b, (b <= 2)%nat ->
       exists b', (b' <= 2)%nat
                  /\ Xml.run legal strict (stack, Xml.Content b) v
                     = Some (stack, Xml.Content b')).

(** The automaton run over a template whose fields hold such strings:
    a literal is read, a field must stand in an attribute value or in
    character data and leaves the automaton there. *)
Fixpoint accepts_segments (legal strict : bool) (segs : list segment)
  (st : Xml.state) : bool :=
  match segs with
  | [] => match st with ([], Xml.Epilog) => true | _ => false end
  | Lit s :: rest =>
      match Xml.run legal strict st s with
      | Some st' => accepts_segments legal strict rest st'
      | None => false
      end
  | Field _ :: rest =>
      match st with
      | (stack, Xml.AttrValue t q) =>
          ((q =? 34)%N || (q =? 39)%N)
          && accepts_segments legal strict rest st
      | (stack, Xml.Content b) =>
          (b <=? 2)%nat
          && accepts_segments legal strict rest (stack, Xml.Content 0)
          && accepts_segments legal strict rest (stack, Xml.Content 1)
          && accepts_segments legal strict rest (stack, Xml.Content 2)
      | _ => false
      end
  end.

(** A character that is neither markup nor a quote nor a bracket. *)
Definition plain (c : codepoint) : bool :=
  Xml.is_char c
  && negb ((c =? 60)%N || (c =? 38)%N || (c =? 62)%N || (c =? 34)%N
           || (c =? 39)%N || (c =? 93)%N).

(** The escaped form of one character. *)
Definition escape_char (c : codepoint) : pystr :=
  if (c =? 38)%N then lit "&amp;"
  else if (c =? 60)%N then lit "&lt;"
  else if (c =? 62)%N then lit "&gt;"
  else if (c =? 34)%N then lit "&quot;"
  else if (c =? 39)%N then lit "&#x27;"
  else [c].

End Spec.

(** ** The whole of [main]: the arguments, the directory, the file and
    the confirmation

    The script is taken to run on a POSIX system: [os.path] is
    [posixpath] and a text file keeps its line ends.  The parser of the
    command line, the file system and the standard output are the world
    of the script: what they do, raising included, is given. *)

Module Entry.

Import PyStr Py Script.

(** [s.encode("utf-8")], the bytes as numbers below 256: one to four
    bytes for a code point; a surrogate cannot be encoded and raises
    [UnicodeEncodeError]. *)
Definition encode_char (c : codepoint) : option (list N) :=
  if (c <? 128)%N then Some [c]
  else if (c <? 2048)%N then
    Some [192 + c / 64; 128 + c mod 64]%N
  else if (c <? 65536)%N then
    if (55296 <=? c)%N && (c <=? 57343)%N then None
    else Some [224 + c / 4096; 128 + (c / 64) mod 64; 128 + c mod 64]%N
  else if (c <? 1114112)%N then
    Some [240 + c / 262144; 128 + (c / 4096) mod 64;
          128 + (c / 64) mod 64; 128 + c mod 64]%N
  else None.

Fixpoint encode_utf8 (s : pystr) : option (list N) :=
  match s with
  | [] => Some []
  | c :: r =>
      match encode_char c, encode_utf8 r with
      | Some b, Some bs => Some (b ++ bs)
      | _, _ => None
      end
  end.

(** [p[:p.rfind("/") + 1]]: the path up to its last slash, the empty
    string when it has none. *)
Definition up_to_last_slash (p : pystr) : pystr :=
  List.rev (PyFloat.drop_while (fun c => negb (c =? 47)%N) (List.rev p)).

(** [head.rstrip("/")]. *)
Definition rstrip_slashes (head : pystr) : pystr :=
  List.rev (PyFloat.drop_while (fun c => (c =? 47)%N) (List.rev head)).

(** [os.path.dirname(p)]: the part before the last slash, without its
    trailing slashes unless it is made of slashes only. *)
Definition dirname (p : pystr) : pystr :=
  let head := up_to_last_slash p in
  match head with
  | [] => head
  | _ :: _ =>
      if List.forallb (fun c => (c =? 47)%N) head then head
      else rstrip_slashes head
  end.

(** [os.path.dirname(args.output) or "."]. *)
Definition output_directory (output : pystr) : pystr :=
  match dirname output with
  | [] => lit "."
  | d => d
  end.

(** A code point that can be encoded: below [0x110000] and no
    surrogate. *)
Definition encodable (c : codepoint) : bool :=
  ((c <? 55296) || (57343 <? c) && (c <? 1114112))%N.

(** What [parser.parse_args()] does with the command line: it leaves
    the script ([SystemExit], after the usage message or the help), or it
    returns the arguments.  [--username] is required and [--output] is
    optional; a value can hold any character that the command line
    decodes to, a lone surrogate included. *)
Inductive parse_outcome :=
| ParseExits (code : Z)
| ParseReturns (username : pystr) (output : option pystr).

(** The default of [--output]. *)
Definition DEFAULT_OUTPUT : pystr := lit "assets/monkeytype-badge.svg".

(** The world as the end of [main] meets it: the three operations on the
    file system and the [print] to the standard output.  Each succeeds
    ([None]) or raises an exception (with its text): an [OSError] of the
    file system, or what the stream of the standard output raises, a
    [UnicodeEncodeError] for a line that its encoding does not have. *)
Record world := {
  makedirs : pystr -> option pystr;
  open_w : pystr -> option pystr;
  write_close : pystr -> list N -> option pystr;
  print : pystr -> option pystr
}.

Inductive operation := OpMakeDirs | OpOpen | OpWrite | OpPrint.

(** How a run of [main] ends. *)
Inductive ending :=
| Done
| SystemExit (code : Z)
| Uncaught (e : exn)
| Raised (op : operation) (text : pystr)
| UnicodeEncodeError.

(** What [main] asks of the world, in order. *)
Inductive effect :=
| Fetching (e : event)
| MakeDirs (path : pystr)
| Open (path : pystr)
| Write (path : pystr) (content : list N)
| Stdout (line : pystr).

(** [args.output]: the argument, or the default. *)
Definition output_of (given : option pystr) : pystr :=
  match given with Some o => o | None => DEFAULT_OUTPUT end.

(** The line of the confirmation. *)
Definition confirmation (output : pystr) : pystr :=
  lit "Wrote badge to " ++ output.


(** [main]: the arguments are parsed, the statistics are fetched, the
    badge is rendered, the directory of the output is created, the
    markup is written and the confirmation is printed.  Nothing catches
    what the parser, the file system or the standard output raise. *)
Definition main {ucd : PyFloat.UnicodeData} {py : interpreter}
  (net : pystr -> get_outcome) (w : world) (args : parse_outcome)
  : list effect * ending :=
  match args with
  | ParseExits code => ([], SystemExit code)
  | ParseReturns username given =>
      let output := output_of given in
      let '(events, r) := fetch_stats net username in
      let fetched := List.map Fetching events in
      match bind r (fun stats => render_badge (value_text stats)) with
      | Raise e => (fetched, Uncaught e)
      | Return svg =>
          let dir := output_directory output in
          match makedirs w dir with
          | Some text => (fetched ++ [MakeDirs dir], Raised OpMakeDirs text)
          | None =>
              match open_w w output with
              | Some text =>
                  (fetched ++ [MakeDirs dir; Open output], Raised OpOpen text)
              | None =>
                  match encode_utf8 svg with
                  | None =>
                      (fetched ++ [MakeDirs dir; Open output],
                       UnicodeEncodeError)
                  | Some content =>
                      let written :=
                        fetched ++ [MakeDirs dir; Open output;
                                    Write output content] in
                      match write_close w output content with
                      | Some text => (written, Raised OpWrite text)
                      | None =>
                          let line := confirmation output in
                          (written ++ [Stdout line],
                           match print w line with
                           | Some text => Raised OpPrint text
                           | None => Done
                           end)
                      end
                  end
              end
          end
      end
  end.

(** A standard output that encodes with UTF-8 and the error handler
    [strict]: a line with a surrogate raises. *)
Definition strict_utf8 (line : pystr) : option pystr :=
  match encode_utf8 (line ++ [10%N]) with
  | Some _ => None
  | None => Some (lit "UnicodeEncodeError")
  end.

(** A file system on which everything succeeds, with such a standard
    output. *)
Definition working : world :=
  {| makedirs := fun _ => None;
     open_w := fun _ => None;
     write_close := fun _ _ => None;
     print := strict_utf8 |}.

(** A character that [html.escape] replaces. *)
Definition needs_escape (c : codepoint) : bool :=
  (c =? 38)%N || (c =? 60)%N || (c =? 62)%N || (c =? 34)%N || (c =? 39)%N.

(** A finite float between 0 and the integer [hi]. *)
Definition within (hi : Z) (x : F64.float) : Prop :=
  F64.is_finite x = true /\ (0 <= F64.Qval x <= hi # 1)%Q.

(** The best speed of a payload, when statistics are computed. *)
Definition best_of {ucd : PyFloat.UnicodeData} {py : interpreter}
  (items : list value) : option Z :=
  match stats_of_data (VList items) with
  | Return (Some stats) => Some (best_wpm stats)
  | _ => None
  end.

End Entry.

(** * Properties *)

(** ** The model on concrete values

    What CPython returns on the same inputs, and, for the sum and the
    quotient, what the standard library's specification of IEEE-754
    returns. *)

Module Examples.

Import Floats.SpecFloat PyStr Py Script Spec.

Example float_120_4 : dec 1204 (-1) = S754_finite false 8472396798990746 (-46).
Proof. vm_compute. reflexivity. Qed.

Example add_matches_SpecFloat :
  F64.add (dec 972 (-1)) (dec 95 0)
  = SFadd F64.prec F64.emax (dec 972 (-1)) (dec 95 0)
  /\ F64.add (dec 1 (-1)) (dec 2 (-1))
     = SFadd F64.prec F64.emax (dec 1 (-1)) (dec 2 (-1))
  /\ PyFloat.repr (F64.add (dec 1 (-1)) (dec 2 (-1)))
     = lit "0.30000000000000004".
Proof. repeat split; vm_compute; reflexivity. Qed.

Example div_matches_SpecFloat :
  F64.div (dec 1922 (-1)) (dec 2 0)
  = SFdiv F64.prec F64.emax (dec 1922 (-1)) (dec 2 0)
  /\ F64.div (dec 1 0) (dec 3 0) = SFdiv F64.prec F64.emax (dec 1 0) (dec 3 0)
  /\ PyFloat.repr (F64.div (dec 1 0) (dec 3 0)) = lit "0.3333333333333333".
Proof. repeat split; vm_compute; reflexivity. Qed.

(** [round(0.5)], [round(1.5)], [round(2.5)], [round(-0.5)], [round(120.4)]. *)
Example round_ties_to_even :
  List.map F64.round_int
    [dec 5 (-1); dec 15 (-1); dec 25 (-1);
     PyFloat.of_decimal true 5 (-1); dec 1204 (-1)]
  = [Some 0; Some 2; Some 2; Some 0; Some 120].
Proof. vm_compute. reflexivity. Qed.

(** [round(0.25, 1)], [round(0.35, 1)], [round(0.75, 1)], [round(96.1, 1)]
    and [round(1e22, 1)]. *)
Example round_1_examples :
  List.map (fun x => PyFloat.repr (F64.round_1 x))
    [dec 25 (-2); dec 35 (-2); dec 75 (-2); dec 961 (-1); dec 1 22]
  = [lit "0.2"; lit "0.3"; lit "0.8"; lit "96.1"; lit "1e+22"].
Proof. vm_compute. reflexivity. Qed.

Example repr_examples :
  List.map PyFloat.repr
    [dec 36 0; dec 1065 (-1); dec 1 16; dec 1 (-5); dec 1 (-4);
     F64.inf true; F64.nan; F64.zero true]
  = [lit "36.0"; lit "106.5"; lit "1e+16"; lit "1e-05"; lit "0.0001";
     lit "-inf"; lit "nan"; lit "-0.0"].
Proof. vm_compute. reflexivity. Qed.

(** What [float] makes of strings: blanks are stripped, an underscore may
    stand between two digits, [inf] and [nan] are read in any case, a
    number too large is an infinity. *)
Example float_of_str_examples :
  List.map (@PyFloat.of_str PyFloat.ucd_ascii)
    [lit "120"; lit " 1_0 "; lit "1__0"; lit "+.5"; lit "5."; lit ".";
     lit "1e"; lit "0x10"; lit "-Infinity"; lit "NaN"; lit "1e400"; lit ""]
  = [Some (dec 120 0); Some (dec 10 0); None; Some (dec 5 (-1));
     Some (dec 5 0); None; None; None; Some (F64.inf true); Some F64.nan;
     Some (F64.inf false); None].
Proof. vm_compute. reflexivity. Qed.

(** [max([nan, 1.0])] is the NaN and [max([1.0, nan])] is 1.0. *)
Example max_keeps_a_leading_nan :
  max [F64.nan; dec 1 0] = Return F64.nan
  /\ max [dec 1 0; F64.nan] = Return (dec 1 0).
Proof. split; vm_compute; reflexivity. Qed.

(** The average is a binary64 quotient of a binary64 sum:
    [(0.05 + 0.25) / 2] is the float just below 0.15 and rounds to 0.1,
    with either [sum], although the two floats have an exact mean just
    above 0.15. *)
Example mean_is_binary64 :
  List.map (fun py => PyFloat.repr (F64.round_1
              (F64.div (@sum py [dec 5 (-2); dec 25 (-2)]) (dec 2 0))))
    [Before_3_12; From_3_12]
  = [lit "0.1"; lit "0.1"]
  /\ (15 # 100 < arithmetic_mean [dec 5 (-2); dec 25 (-2)])%Q.
Proof. split; vm_compute; reflexivity. Qed.

(** [sum([97.1, 85.33, 84.23, 83.54])] and the average of the four,
    rounded to one decimal, before CPython 3.12 and from it on. *)
Example sum_depends_on_the_interpreter :
  List.map (fun py => PyFloat.repr
              (@sum py [dec 971 (-1); dec 8533 (-2); dec 8423 (-2); dec 8354 (-2)]))
    [Before_3_12; From_3_12]
  = [lit "350.20000000000005"; lit "350.2"]
  /\ List.map (fun py => PyFloat.repr (F64.round_1 (F64.div
              (@sum py [dec 971 (-1); dec 8533 (-2); dec 8423 (-2); dec 8354 (-2)])
              (dec 4 0))))
       [Before_3_12; From_3_12]
     = [lit "87.6"; lit "87.5"].
Proof. split; vm_compute; reflexivity. Qed.

Example escape_example :
  escape (quoted "a<b>&'c'") = lit "a&lt;b&gt;&amp;&quot;c&quot;"
  /\ escape [39%N] = lit "&#x27;".
Proof. split; vm_compute; reflexivity. Qed.

(** The badge of the label ["no data"]. *)
Example render_badge_no_data :
  render_badge (lit "no data") = Return (quoted
"<svg xmlns='http://www.w3.org/2000/svg' width='141' height='20' viewBox='0 0 141 20' role='img' aria-label='MonkeyType: no data'>
  <title>MonkeyType: no data</title>
  <linearGradient id='g' x2='0' y2='100%'>
    <stop offset='0' stop-color='#bbb' stop-opacity='.1'/>
    <stop offset='1' stop-opacity='.1'/>
  </linearGradient>
  <rect rx='3' width='141' height='20' fill='#555'/>
  <rect rx='3' x='72' width='69' height='20' fill='#2aa198'/>
  <rect rx='3' width='141' height='20' fill='url(#g)'/>
  <g fill='#fff' text-anchor='middle' font-family='DejaVu Sans,Verdana,Geneva,sans-serif' font-size='11'>
    <text x='36.0' y='14' fill='#fff'>MonkeyType</text>
    <text x='106.5' y='14' fill='#fff'>no data</text>
  </g>
</svg>
").
Proof. vm_compute. reflexivity. Qed.

Example well_formed_examples :
  List.map Xml.well_formed
    [quoted "<a x='1'><b/>t &amp; u</a>"; quoted "<a><b></a></b>";
     quoted "<a x='1' x='2'/>"; quoted "<a>&bogus;</a>"; quoted "<a>]]></a>";
     quoted "<a>1 < 2</a>"]
  = [true; false; false; false; false; false].
Proof. vm_compute. reflexivity. Qed.

End Examples.

(** ** Floats: rounding and order *)

Module FloatFacts.

Import Floats.SpecFloat Spec.

(** [div_half_even n d] is within a half of [n / d], and even on a tie. *)
Lemma div_half_even_near (n d : Z) :
  0 < d ->
  Z.abs (2 * n - 2 * d * F64.div_half_even n d) <= d
  /\ (Z.abs (2 * n - 2 * d * F64.div_half_even n d) = d ->
      Z.even (F64.div_half_even n d) = true).
Proof.
  intros Hd. unfold F64.div_half_even.
  pose proof (Z.div_mod n d ltac:(lia)) as Hn.
  pose proof (Z.mod_pos_bound n d Hd) as Hr.
  set (q := n / d) in *. set (r := n mod d) in *.
  destruct (Z.compare_spec (2 * r) d) as [E|L|G].
  - destruct (Z.even q) eqn:Ev.
    + split; [lia|auto].
    + split; [lia|]. intros _.
      rewrite Z.even_add, Ev. reflexivity.
  - split; lia.
  - split; lia.
Qed.

(** There is one nearest integer once ties go to the even side. *)
Lemma nearest_unique (N D k1 k2 : Z) :
  0 < D ->
  Z.abs (2 * N - 2 * D * k1) <= D ->
  (Z.abs (2 * N - 2 * D * k1) = D -> Z.even k1 = true) ->
  Z.abs (2 * N - 2 * D * k2) <= D ->
  (Z.abs (2 * N - 2 * D * k2) = D -> Z.even k2 = true) ->
  k1 = k2.
Proof.
  intros HD H1 E1 H2 E2.
  assert (Hk : k1 = k2 \/ k1 = k2 + 1 \/ k2 = k1 + 1) by nia.
  destruct Hk as [Hk|[Hk|Hk]]; [assumption| |].
  - subst k1. assert (A : Z.abs (2 * N - 2 * D * (k2 + 1)) = D) by nia.
    assert (B : Z.abs (2 * N - 2 * D * k2) = D) by nia.
    specialize (E1 A). specialize (E2 B).
    rewrite Z.even_add, E2 in E1. discriminate.
  - subst k2. assert (A : Z.abs (2 * N - 2 * D * (k1 + 1)) = D) by nia.
    assert (B : Z.abs (2 * N - 2 * D * k1) = D) by nia.
    specialize (E1 B). specialize (E2 A).
    rewrite Z.even_add, E1 in E2. discriminate.
Qed.

Lemma nearest_even_Z (n k : Z) (d : positive) :
  nearest_even (n # d) k
  <-> Z.abs (2 * n - 2 * Z.pos d * k) <= Z.pos d
      /\ (Z.abs (2 * n - 2 * Z.pos d * k) = Z.pos d -> Z.even k = true).
Proof.
  unfold nearest_even, Qabs, Qle, Qeq, Qminus, Qplus, Qopp, inject_Z.
  cbn [Qnum Qden].
  rewrite !Pos2Z.inj_mul.
  split; intros [A B]; split; try lia; intros H; apply B; lia.
Qed.

Lemma div_half_even_nearest (q : Q) :
  nearest_even q (F64.div_half_even (Qnum q) (Z.pos (Qden q))).
Proof.
  destruct q as [n d]. apply nearest_even_Z. cbn [Qnum Qden].
  apply div_half_even_near. lia.
Qed.

(** Equal rationals round to the same integer. *)
Lemma div_half_even_Qeq (p q : Q) :
  (p == q)%Q ->
  F64.div_half_even (Qnum p) (Z.pos (Qden p))
  = F64.div_half_even (Qnum q) (Z.pos (Qden q)).
Proof.
  destruct p as [n1 d1], q as [n2 d2]. unfold Qeq. cbn [Qnum Qden]. intros E.
  destruct (div_half_even_near n1 (Z.pos d1) ltac:(lia)) as [A1 B1].
  destruct (div_half_even_near n2 (Z.pos d2) ltac:(lia)) as [A2 B2].
  set (k1 := F64.div_half_even n1 (Z.pos d1)) in *.
  set (k2 := F64.div_half_even n2 (Z.pos d2)) in *.
  apply (nearest_unique (n1 * Z.pos d2) (Z.pos d1 * Z.pos d2)); try lia.
  - nia.
  - intros H. apply B1. nia.
  - nia.
  - intros H. apply B2. nia.
Qed.

(** [round(x)] of a finite float is the nearest integer of its value. *)
Lemma round_int_nearest (x : F64.float) :
  F64.is_finite x = true ->
  exists z, F64.round_int x = Some z /\ nearest_even (F64.Qval x) z.
Proof.
  intros Hx. destruct x; try discriminate; eexists; (split; [reflexivity|]);
    apply div_half_even_nearest.
Qed.

Lemma round_int_infinite (x : F64.float) :
  F64.is_finite x = false -> F64.round_int x = None.
Proof. destruct x; try discriminate; reflexivity. Qed.

(** [round(x, 1)] rounds to one decimal. *)
Lemma round_1_spec (x : F64.float) : rounded_to_1_decimal x (F64.round_1 x).
Proof.
  destruct x as [s|s| |s m e]; try reflexivity.
  unfold rounded_to_1_decimal.
  set (q := F64.Qval (S754_finite s m e)).
  exists (F64.div_half_even (10 * Qnum q) (Z.pos (Qden q))).
  split; [|reflexivity].
  destruct q as [n d]. cbn [Qnum Qden].
  assert (E : (10 * (n # d) == (10 * n) # d)%Q).
  { unfold Qeq, Qmult. cbn [Qnum Qden]. rewrite ?Pos2Z.inj_mul. lia. }
  pose proof (div_half_even_nearest ((10 * n) # d)) as H.
  cbn [Qnum Qden] in H.
  unfold nearest_even in *. now rewrite E.
Qed.

(** *** The order of [>] on floats that are not NaN *)

Lemma Qgtb_false (a b : Q) : F64.Qgtb a b = false <-> (a <= b)%Q.
Proof.
  unfold F64.Qgtb. destruct (a ?= b)%Q eqn:E.
  - apply Qeq_alt in E. split; [intros _; rewrite E; apply Qle_refl|reflexivity].
  - apply Qlt_alt in E. split; [intros _; now apply Qlt_le_weak|reflexivity].
  - apply Qgt_alt in E. split; [discriminate|]. intros H. exfalso.
    apply (Qlt_irrefl a). eapply Qle_lt_trans; eassumption.
Qed.

Lemma Qgtb_true (a b : Q) : F64.Qgtb a b = true -> (b <= a)%Q.
Proof.
  unfold F64.Qgtb. destruct (a ?= b)%Q eqn:E; try discriminate.
  intros _. apply Qgt_alt in E. now apply Qlt_le_weak.
Qed.

Ltac gt_to_Q :=
  repeat match goal with
  | H : F64.Qgtb _ _ = false |- _ => apply Qgtb_false in H
  | H : F64.Qgtb _ _ = true |- _ => apply Qgtb_true in H
  | |- F64.Qgtb _ _ = false => apply Qgtb_false
  end.

Ltac by_signs :=
  repeat match goal with
  | s : bool |- _ => destruct s
  end; cbn in *; congruence.

Lemma gt_finite (x y : F64.float) :
  F64.is_finite x = true -> F64.is_finite y = true ->
  F64.gt x y = F64.Qgtb (F64.Qval x) (F64.Qval y).
Proof. destruct x, y; try discriminate; reflexivity. Qed.

Lemma gt_refl_false (x : F64.float) : F64.gt x x = false.
Proof.
  destruct x as [s|s| |s m e]; cbn [F64.gt]; try reflexivity.
  - now destruct s.
  - gt_to_Q. apply Qle_refl.
Qed.

Lemma gt_asym (x y : F64.float) : F64.gt x y = true -> F64.gt y x = false.
Proof.
  destruct x as [sx|sx| |sx mx ex], y as [sy|sy| |sy my ey];
    cbn [F64.gt]; try reflexivity; try discriminate; intros H;
    try (gt_to_Q; assumption); by_signs.
Qed.

(** If [x] is not above [y] and [y] not above [z], [x] is not above [z]. *)
Lemma gt_neg_trans (x y z : F64.float) :
  F64.is_nan y = false ->
  F64.gt x y = false -> F64.gt y z = false -> F64.gt x z = false.
Proof.
  intros Hy Hxy Hyz.
  destruct x as [sx|sx| |sx mx ex], y as [sy|sy| |sy my ey],
           z as [sz|sz| |sz mz ez];
    try discriminate; cbn [F64.gt] in *; try reflexivity; try assumption;
    gt_to_Q; try (eapply Qle_trans; eassumption); by_signs.
Qed.

(** Two floats neither of which is above the other round alike. *)
Lemma gt_equiv_round (x y : F64.float) :
  F64.is_nan x = false -> F64.is_nan y = false ->
  F64.gt x y = false -> F64.gt y x = false ->
  F64.round_int x = F64.round_int y.
Proof.
  intros Hx Hy Hxy Hyx.
  assert (Q : forall a b : F64.float,
             F64.Qgtb (F64.Qval a) (F64.Qval b) = false ->
             F64.Qgtb (F64.Qval b) (F64.Qval a) = false ->
             Some (F64.div_half_even (Qnum (F64.Qval a)) (Z.pos (Qden (F64.Qval a))))
             = Some (F64.div_half_even (Qnum (F64.Qval b)) (Z.pos (Qden (F64.Qval b))))).
  { intros a b A B. gt_to_Q. f_equal. apply div_half_even_Qeq.
    now apply Qle_antisym. }
  destruct x as [sx|sx| |sx mx ex], y as [sy|sy| |sy my ey];
    try discriminate; cbn [F64.gt F64.round_int] in *;
    try reflexivity; try (now apply Q); by_signs.
Qed.

(** The running maximum of [max] ends on an element that none is above. *)
Lemma fold_max_spec (l : list F64.float) (x : F64.float) :
  Forall (fun y => F64.is_nan y = false) (x :: l) ->
  let m := List.fold_left (fun m y => if F64.gt y m then y else m) l x in
  In m (x :: l) /\ forall y, In y (x :: l) -> F64.gt y m = false.
Proof.
  set (step := fun m y : F64.float => if F64.gt y m then y else m).
  revert x. induction l as [|a l IH]; intros x HF; cbn [List.fold_left].
  - split; [now left|]. intros y [<-|[]]. apply gt_refl_false.
  - inversion HF as [|? ? Hx HF']; subst.
    inversion HF' as [|? ? Ha HF'']; subst.
    assert (Hs : F64.is_nan (step x a) = false).
    { unfold step. now destruct (F64.gt a x). }
    destruct (IH (step x a) (Forall_cons _ Hs HF'')) as [Hin Hmax].
    split.
    + destruct Hin as [E|Hin]; [|now right; right].
      rewrite <- E. unfold step.
      destruct (F64.gt a x); [right; now left|now left].
    + assert (Hm : F64.gt (step x a) (List.fold_left step l (step x a)) = false)
        by (apply Hmax; now left).
      intros y [<-|[<-|Hy]].
      * eapply gt_neg_trans; [exact Hs| |exact Hm].
        unfold step. destruct (F64.gt a x) eqn:E; [|apply gt_refl_false].
        now apply gt_asym.
      * eapply gt_neg_trans; [exact Hs| |exact Hm].
        unfold step. destruct (F64.gt a x) eqn:E; [apply gt_refl_false|exact E].
      * apply Hmax. now right.
Qed.

(** The rounded maximum does not depend on the order of the list. *)
Lemma round_max_permutation (x x' : F64.float) (l l' : list F64.float) :
  Forall (fun y => F64.is_nan y = false) (x :: l) ->
  Permutation (x :: l) (x' :: l') ->
  F64.round_int (List.fold_left (fun m y => if F64.gt y m then y else m) l x)
  = F64.round_int (List.fold_left (fun m y => if F64.gt y m then y else m) l' x').
Proof.
  intros HF HP.
  assert (HF' : Forall (fun y => F64.is_nan y = false) (x' :: l')).
  { rewrite Forall_forall in *. intros y Hy. apply HF.
    eapply Permutation_in; [apply Permutation_sym; exact HP|exact Hy]. }
  destruct (fold_max_spec l x HF) as [Hin Hmax].
  destruct (fold_max_spec l' x' HF') as [Hin' Hmax'].
  rewrite Forall_forall in HF, HF'.
  apply gt_equiv_round.
  - now apply HF.
  - now apply HF'.
  - apply Hmax'. eapply Permutation_in; eassumption.
  - apply Hmax. eapply Permutation_in; [apply Permutation_sym|]; eassumption.
Qed.

End FloatFacts.

(** ** The badge geometry *)

Module BadgeFacts.

Import PyStr Py Script Spec.

(** The template filled with any seven strings. *)
Lemma format_badge (w lw rw lc rc label vt : pystr) :
  format BADGE_TEMPLATE (badge_fields w lw rw lc rc label vt)
  = Return (fill (badge_fields w lw rw lc rc label vt) badge_segments).
Proof. vm_compute. reflexivity. Qed.

(** The markup: the template filled with the widths, the two centres and
    the escaped text. *)
Lemma render_badge_fill (text : pystr) :
  render_badge text
  = Return (fill (badge_fields
                    (of_int (width text)) (of_int left_width)
                    (of_int (right_width text)) (lit "36.0")
                    (PyFloat.repr
                       (F64.add (F64.of_Q false (left_width # 1))
                                (F64.of_Q false (right_width text # 2))))
                    (escape text) (escape text))
                 badge_segments).
Proof.
  unfold render_badge, right_center, left_center.
  change (truediv_int_int left_width 2)
    with (Return (F64.of_Q false (left_width # 2))).
  change (truediv_int_int (right_width text) 2)
    with (Return (F64.of_Q false (right_width text # 2))).
  cbn [bind].
  change (str (Float (F64.of_Q false (left_width # 2)))) with (lit "36.0").
  apply format_badge.
Qed.

(** C5. The width of the right segment is [max(60, 7 * len(text) + 20)]:
    it does not decrease when the text gets longer, it is the floor 60 for
    a text of at most 5 characters, and the total width is the fixed left
    width 72 plus the right width.  These are the numbers that the markup
    carries in its [width] and [right_width] fields. *)
Theorem right_width_spec (text : pystr) :
  right_width text = Z.max 60 (7 * len text + 20)
  /\ (forall longer : pystr, len text <= len longer ->
        right_width text <= right_width longer)
  /\ (len text <= 5 -> right_width text = 60)
  /\ 60 <= right_width text
  /\ width text = 72 + right_width text
  /\ exists lc rc : pystr,
       render_badge text
       = Return (fill (badge_fields
                         (of_int (72 + Z.max 60 (7 * len text + 20)))
                         (of_int 72)
                         (of_int (Z.max 60 (7 * len text + 20)))
                         lc rc (escape text) (escape text))
                      badge_segments).
Proof.
  split; [reflexivity|].
  split; [unfold right_width; intros; lia|].
  split; [unfold right_width; intros; lia|].
  split; [unfold right_width; lia|].
  split; [reflexivity|].
  eexists; eexists. apply render_badge_fill.
Qed.

Lemma right_width_spec_witness :
  right_width (lit "abc") <= right_width (lit "no data")
  /\ right_width (lit "abc") = 60.
Proof.
  destruct (right_width_spec (lit "abc")) as (_ & Hmono & Hfloor & _).
  split.
  - apply Hmono. vm_compute. discriminate.
  - apply Hfloor. vm_compute. discriminate.
Defined.

(** C7. Rendering is deterministic: the markup is a function of the text
    alone (nothing else is read), so two calls with the same text both
    return, and return the same markup. *)
Theorem render_badge_deterministic (text1 text2 : pystr) :
  text1 = text2 ->
  exists markup : pystr,
    render_badge text1 = Return markup /\ render_badge text2 = Return markup.
Proof.
  intros <-. rewrite render_badge_fill. eexists. split; reflexivity.
Qed.

Lemma render_badge_deterministic_witness :
  exists markup : pystr,
    render_badge (lit "no data") = Return markup
    /\ render_badge (lit "no data") = Return markup.
Proof. apply (render_badge_deterministic (lit "no data")). reflexivity. Defined.

End BadgeFacts.

(** ** The markup of the badge *)

Module XmlFacts.

Import PyStr Py Script Spec Xml.

(** *** [html.escape], character by character *)

Lemma replace_char_app (c : codepoint) (by_ a b : pystr) :
  replace_char c by_ (a ++ b) = replace_char c by_ a ++ replace_char c by_ b.
Proof. unfold replace_char. apply flat_map_app. Qed.

Lemma escape_app (a b : pystr) : escape (a ++ b) = escape a ++ escape b.
Proof. unfold escape. now rewrite !replace_char_app. Qed.

Lemma escape_one (c : codepoint) : escape [c] = escape_char c.
Proof.
  unfold escape_char.
  destruct (N.eqb_spec c 38) as [->|H38]; [reflexivity|].
  destruct (N.eqb_spec c 60) as [->|H60]; [reflexivity|].
  destruct (N.eqb_spec c 62) as [->|H62]; [reflexivity|].
  destruct (N.eqb_spec c 34) as [->|H34]; [reflexivity|].
  destruct (N.eqb_spec c 39) as [->|H39]; [reflexivity|].
  apply N.eqb_neq in H38, H60, H62, H34, H39.
  unfold escape, replace_char. cbn [List.flat_map app].
  rewrite H38. cbn [List.flat_map app].
  rewrite H60. cbn [List.flat_map app].
  rewrite H62. cbn [List.flat_map app].
  rewrite H34. cbn [List.flat_map app].
  rewrite H39. reflexivity.
Qed.

(** The five replacements amount to escaping each character on its own. *)
Lemma escape_flat_map (s : pystr) : escape s = List.flat_map escape_char s.
Proof.
  induction s as [|c s IH]; [reflexivity|].
  change (c :: s) with ([c] ++ s).
  rewrite escape_app, escape_one, IH. reflexivity.
Qed.


(** *** Numbers are made of plain characters *)

Lemma lit_cons (c : ascii) (s : string) :
  lit (String c s) = N_of_ascii c :: lit s.
Proof. reflexivity. Qed.

Lemma plain_app (a b : pystr) :
  Forall (fun c => plain c = true) a -> Forall (fun c => plain c = true) b ->
  Forall (fun c => plain c = true) (a ++ b).
Proof. intros. apply Forall_app. now split. Qed.

Lemma plain_uint (d : Decimal.uint) :
  Forall (fun c => plain c = true) (lit (NilEmpty.string_of_uint d)).
Proof.
  induction d; cbn [NilEmpty.string_of_uint]; rewrite ?lit_cons;
    constructor; (reflexivity || assumption).
Qed.

Lemma plain_uint0 (d : Decimal.uint) :
  Forall (fun c => plain c = true) (lit (NilZero.string_of_uint d)).
Proof.
  destruct d; try apply plain_uint.
  unfold NilZero.string_of_uint. repeat constructor.
Qed.

Lemma plain_of_int (z : Z) : Forall (fun c => plain c = true) (of_int z).
Proof.
  unfold of_int, NilZero.string_of_int.
  destruct (Z.to_int z); [apply plain_uint0|].
  rewrite lit_cons. constructor; [reflexivity|apply plain_uint0].
Qed.

Lemma plain_digits (z : Z) : Forall (fun c => plain c = true) (digits z).
Proof. apply plain_uint0. Qed.

Lemma plain_drop_zeros (l : pystr) :
  Forall (fun c => plain c = true) l ->
  Forall (fun c => plain c = true) (PyFloat.drop_zeros l).
Proof.
  induction 1 as [|c l Hc Hl IH]; [constructor|].
  cbn [PyFloat.drop_zeros].
  destruct c as [|p]; [now constructor|].
  repeat (destruct p as [p|p|]; try (now constructor)); exact IH.
Qed.

Lemma plain_zeros (k : Z) : Forall (fun c => plain c = true) (PyFloat.zeros k).
Proof.
  unfold PyFloat.zeros. apply Forall_forall. intros c Hc.
  apply repeat_spec in Hc. now subst c.
Qed.

Lemma plain_exp_str (e : Z) :
  Forall (fun c => plain c = true) (PyFloat.exp_str e).
Proof.
  unfold PyFloat.exp_str.
  apply plain_app; [destruct (e <? 0); repeat constructor|].
  apply plain_app; [destruct (Z.abs e <? 10); repeat constructor|].
  apply plain_digits.
Qed.

Lemma plain_layout (ds : pystr) (decpt : Z) :
  Forall (fun c => plain c = true) ds ->
  Forall (fun c => plain c = true) (PyFloat.layout ds decpt).
Proof.
  intros H. unfold PyFloat.layout.
  destruct ((decpt <=? -4) || (16 <? decpt)).
  - destruct ds as [|d1 [|d2 rest]]; [constructor| |].
    + inversion H; subst. constructor; [assumption|].
      apply plain_app; [repeat constructor|apply plain_exp_str].
    + inversion H as [|? ? H1 H2]; subst. constructor; [assumption|].
      apply plain_app; [repeat constructor|].
      apply plain_app; [assumption|].
      apply plain_app; [repeat constructor|apply plain_exp_str].
  - destruct (decpt <=? 0).
    + apply plain_app; [repeat constructor|].
      apply plain_app; [apply plain_zeros|assumption].
    + destruct (len ds <=? decpt).
      * apply plain_app; [assumption|].
        apply plain_app; [apply plain_zeros|repeat constructor].
      * rewrite <- (firstn_skipn (Z.to_nat decpt) ds) in H.
        apply Forall_app in H. destruct H as [H1 H2].
        apply plain_app; [assumption|].
        apply plain_app; [repeat constructor|assumption].
Qed.

(** [repr] of a float: digits, a point, a sign, an exponent mark, or the
    letters of [inf] and [nan]. *)
Lemma plain_repr (x : F64.float) :
  Forall (fun c => plain c = true) (PyFloat.repr x).
Proof.
  destruct x as [s|s| |s m e]; cbn [PyFloat.repr].
  - destruct s; repeat constructor.
  - destruct s; repeat constructor.
  - repeat constructor.
  - unfold PyFloat.float_digits.
    destruct (PyFloat.shortest _ _ _ _ _ _) as [c sc].
    apply plain_app; [destruct s; repeat constructor|].
    apply plain_layout, Forall_rev, plain_drop_zeros, Forall_rev, plain_digits.
Qed.

(** *** What the automaton reads through *)

Section Run.
Variables legal strict : bool.

Lemma run_app (st : state) (a b : pystr) :
  run legal strict st (a ++ b)
  = match run legal strict st a with
    | Some st' => run legal strict st' b
    | None => None
    end.
Proof.
  revert st. induction a as [|c a IH]; intros st; [reflexivity|].
  cbn [app run]. destruct (step legal strict st c); [apply IH|reflexivity].
Qed.

Lemma passes_nil : passes legal strict [].
Proof.
  split; [reflexivity|]. intros stack b Hb. exists b. now split.
Qed.

Lemma passes_app (a b : pystr) :
  passes legal strict a -> passes legal strict b ->
  passes legal strict (a ++ b).
Proof.
  intros [Av Ac] [Bv Bc]. split.
  - intros stack t q Hq. rewrite run_app, Av by assumption. now apply Bv.
  - intros stack k Hk. destruct (Ac stack k Hk) as (k' & Hk' & E).
    rewrite run_app, E. now apply Bc.
Qed.

Lemma passes_flat_map {A} (f : A -> pystr) (l : list A) :
  (forall x, In x l -> passes legal strict (f x)) ->
  passes legal strict (List.flat_map f l).
Proof.
  induction l as [|x l IH]; intros H; [apply passes_nil|].
  cbn [List.flat_map]. apply passes_app.
  - apply H. now left.
  - apply IH. intros y Hy. apply H. now right.
Qed.

(** A plain character is read in place. *)
Lemma passes_plain_char (c : codepoint) :
  plain c = true -> passes legal strict [c].
Proof.
  unfold plain. intros H.
  apply andb_prop in H. destruct H as [Hc H].
  apply negb_true_iff in H.
  apply orb_false_elim in H. destruct H as [H H93].
  apply orb_false_elim in H. destruct H as [H H39].
  apply orb_false_elim in H. destruct H as [H H34].
  apply orb_false_elim in H. destruct H as [H H62].
  apply orb_false_elim in H. destruct H as [H60 H38].
  split.
  - intros stack t q Hq. cbn [run]. unfold step. rewrite Hc, andb_false_r.
    cbn [negb].
    replace (c =? q)%N with false
      by (destruct Hq; subst q; symmetry; assumption).
    now rewrite H60, H38.
  - intros stack b Hb. exists 0%nat. split; [lia|].
    cbn [run]. unfold step. rewrite Hc, andb_false_r. cbn [negb].
    now rewrite H60, H38, H93, H62.
Qed.

Lemma passes_plain (v : pystr) :
  Forall (fun c => plain c = true) v -> passes legal strict v.
Proof.
  intros H. induction H as [|c v Hc Hv IH]; [apply passes_nil|].
  change (c :: v) with ([c] ++ v). apply passes_app; [|exact IH].
  now apply passes_plain_char.
Qed.

(** The five references that [html.escape] writes are read through. *)
Lemma passes_reference (r : pystr) :
  In r [lit "&amp;"; lit "&lt;"; lit "&gt;"; lit "&quot;"; lit "&#x27;"] ->
  passes legal strict r.
Proof.
  intros H. split.
  - intros stack t q Hq.
    destruct legal, strict;
      repeat (destruct H as [<-|H];
              [destruct Hq; subst q; vm_compute; reflexivity|]);
      destruct H.
  - intros stack b Hb. exists 0%nat. split; [lia|].
    destruct legal, strict;
      repeat (destruct H as [<-|H]; [vm_compute; reflexivity|]);
      destruct H.
Qed.

(** The escaped form of a character is read through, provided the
    character is legal when legality is checked. *)
Lemma passes_escape_char (c : codepoint) :
  (legal = true -> is_char c = true) ->
  passes legal strict (escape_char c).
Proof.
  intros Hc. unfold escape_char.
  destruct (N.eqb_spec c 38) as [->|H38]; [apply passes_reference; cbn; tauto|].
  destruct (N.eqb_spec c 60) as [->|H60]; [apply passes_reference; cbn; tauto|].
  destruct (N.eqb_spec c 62) as [->|H62]; [apply passes_reference; cbn; tauto|].
  destruct (N.eqb_spec c 34) as [->|H34]; [apply passes_reference; cbn; tauto|].
  destruct (N.eqb_spec c 39) as [->|H39]; [apply passes_reference; cbn; tauto|].
  apply N.eqb_neq in H38, H60, H62, H34, H39.
  assert (G : legal && negb (is_char c) = false).
  { destruct legal; [|reflexivity]. now rewrite Hc. }
  split.
  - intros stack t q Hq. cbn [run]. unfold step. rewrite G.
    replace (c =? q)%N with false
      by (destruct Hq; subst q; symmetry; assumption).
    now rewrite H60, H38.
  - intros stack b Hb. cbn [run]. unfold step. rewrite G, H60, H38, H62.
    destruct (c =? 93)%N.
    + eexists. split; [|reflexivity]. lia.
    + exists 0%nat. split; [lia|reflexivity].
Qed.

Lemma passes_escape (text : pystr) :
  (legal = true -> Forall (fun c => is_char c = true) text) ->
  passes legal strict (escape text).
Proof.
  intros H. rewrite escape_flat_map. apply passes_flat_map.
  intros c Hc. apply passes_escape_char. intros L.
  specialize (H L). rewrite Forall_forall in H. now apply H.
Qed.

(** The automaton over a template predicts the automaton over the
    template filled with strings that it reads through. *)
Lemma accepts_segments_sound (fields : list (pystr * pystr))
  (segs : list segment) (st : state) :
  (forall kv, In kv fields -> passes legal strict (snd kv)) ->
  accepts_segments legal strict segs st = true ->
  run legal strict st (fill fields segs) = Some ([], Epilog).
Proof.
  intros Hf. revert st.
  induction segs as [|seg segs IH]; intros st H.
  - cbn in *. destruct st as [[|? ?] []]; try discriminate. reflexivity.
  - unfold fill in *. cbn [List.flat_map]. rewrite run_app.
    destruct seg as [s|name]; cbn [accepts_segments segment_text] in *.
    + destruct (run legal strict st s) as [st'|]; [now apply IH|discriminate].
    + assert (P : passes legal strict
                   match List.find (fun kv => PyStr.eqb (fst kv) name) fields with
                   | Some kv => snd kv
                   | None => []
                   end).
      { destruct (List.find _ fields) as [kv|] eqn:E; [|apply passes_nil].
        apply Hf. eapply find_some; eassumption. }
      destruct P as [Pv Pc].
      destruct st as [stack m]. destruct m; try discriminate.
      * apply andb_prop in H. destruct H as [H H2].
        apply andb_prop in H. destruct H as [H H1].
        apply andb_prop in H. destruct H as [Hb H0].
        apply Nat.leb_le in Hb.
        destruct (Pc stack brackets Hb) as (b' & Hb' & E). rewrite E.
        apply IH.
        destruct b' as [|[|[|b']]]; [assumption|assumption|assumption|lia].
      * apply andb_prop in H. destruct H as [Hq H].
        rewrite Pv; [now apply IH|].
        apply orb_prop in Hq.
        destruct Hq as [Hq|Hq]; apply N.eqb_eq in Hq; auto.
Qed.

End Run.

Lemma badge_segments_accepted (legal strict : bool) :
  accepts_segments legal strict badge_segments ([], Prolog) = true.
Proof. destruct legal, strict; vm_compute; reflexivity. Qed.

Lemma filled_badge_accepted (legal strict : bool)
  (w lw rw lc rc label vt : pystr) :
  passes legal strict w -> passes legal strict lw -> passes legal strict rw ->
  passes legal strict lc -> passes legal strict rc ->
  passes legal strict label -> passes legal strict vt ->
  accepts legal strict
    (fill (badge_fields w lw rw lc rc label vt) badge_segments)
  = true.
Proof.
  intros Hw Hlw Hrw Hlc Hrc Hl Hv. unfold accepts.
  rewrite (accepts_segments_sound legal strict _ badge_segments ([], Prolog)).
  - reflexivity.
  - unfold badge_fields.
    intros kv [<-|[<-|[<-|[<-|[<-|[<-|[<-|[]]]]]]]]; assumption.
  - apply badge_segments_accepted.
Qed.




End XmlFacts.

(** ** The fetcher *)

Module FetchFacts.

Import PyStr Py Script Spec.

Section WithUnicode.
Context {ucd : PyFloat.UnicodeData} {py : interpreter}.

Lemma url_format (username : pystr) :
  format MONKEYTYPE_SCOREBOARD_URL [(lit "username", username)]
  = Return (scoreboard_url username).
Proof.
  transitivity (Return (scoreboard_url (username ++ []))).
  - vm_compute. reflexivity.
  - now rewrite app_nil_r.
Qed.

(** [fetch_stats] by cases on what the network does. *)
Lemma fetch_stats_cases (net : pystr -> get_outcome) (username : pystr) :
  fetch_stats net username
  = match net (scoreboard_url username) with
    | GetRaises e =>
        ([request username; Stderr (lit "Request failed: " ++ e)], Return None)
    | GetReturns res =>
        if status_code res =? 200 then
          match json res with
          | JsonRaises e =>
              ([request username; Json;
                Stderr (lit "Failed to decode JSON: " ++ e)], Return None)
          | JsonReturns data => ([request username; Json], stats_of_data data)
          end
        else
          ([request username;
            Stderr (lit "Unexpected status " ++ of_int (status_code res)
                    ++ lit " from " ++ scoreboard_url username)], Return None)
    end.
Proof.
  unfold fetch_stats. rewrite url_format. fold (request username).
  destruct (net (scoreboard_url username)) as [e|res]; [reflexivity|].
  destruct (status_code res =? 200); reflexivity.
Qed.

(** One turn of the loop appends what the record contributes. *)
Lemma loop_body_coerced (wpms accs : list F64.float) (item : value) :
  loop_body (wpms, accs) item
  = (wpms ++ coerced_values (lit "wpm") [item],
     accs ++ coerced_values (lit "acc") [item]).
Proof.
  unfold coerced_values, coerced; cbn [List.flat_map].
  destruct item; cbn [loop_body]; rewrite ?app_nil_r; try reflexivity.
  unfold dict_contains, dict_get.
  destruct (dict_find (lit "wpm") d) as [v|];
    [destruct (float v)|];
    (destruct (dict_find (lit "acc") d) as [v'|]; [destruct (float v')|]);
    cbn [bind try_except]; rewrite ?app_nil_r; reflexivity.
Qed.

Lemma coerced_values_cons (key : pystr) (item : value) (items : list value) :
  coerced_values key (item :: items)
  = coerced_values key [item] ++ coerced_values key items.
Proof.
  unfold coerced_values; cbn [List.flat_map]. now rewrite app_nil_r.
Qed.

(** The loop collects the coerced values of both keys, in order. *)
Lemma loop_collects (items : list value) (wpms accs : list F64.float) :
  List.fold_left loop_body items (wpms, accs)
  = (wpms ++ coerced_values (lit "wpm") items,
     accs ++ coerced_values (lit "acc") items).
Proof.
  revert wpms accs.
  induction items as [|item items IH]; intros wpms accs.
  - cbn. now rewrite !app_nil_r.
  - cbn [List.fold_left]. rewrite loop_body_coerced, IH.
    rewrite (coerced_values_cons (lit "wpm") item items).
    rewrite (coerced_values_cons (lit "acc") item items).
    now rewrite !app_assoc.
Qed.

(** [stats_of_data] on a non-empty list, in terms of the coerced values. *)
Lemma stats_of_nonempty (item : value) (items : list value) :
  let wpms := coerced_values (lit "wpm") (item :: items) in
  let accs := coerced_values (lit "acc") (item :: items) in
  stats_of_data (VList (item :: items))
  = Return (Some {|
      best_wpm := match wpms with
                  | [] => 0
                  | x :: r =>
                      safe_int (VFloat (List.fold_left
                        (fun m y => if F64.gt y m then y else m) r x)) 0
                  end;
      avg_acc := match accs with
                 | [] => Int 0
                 | _ :: _ =>
                     Float (F64.round_1
                              (F64.div (sum accs)
                                       (F64.of_Q false (len accs # 1))))
                 end |}).
Proof.
  intros wpms accs.
  unfold stats_of_data.
  rewrite loop_collects. cbn [app]. fold wpms accs.
  assert (Hlen : forall (x : F64.float) r, (len (x :: r) =? 0) = false).
  { intros x r. unfold len. cbn [List.length]. apply Z.eqb_neq. lia. }
  destruct wpms as [|w wr]; destruct accs as [|a ar]; cbn [bind max];
    unfold truediv_float_len; rewrite ?Hlen; reflexivity.
Qed.

(** [fetch_stats] never raises, whatever the network does. *)
Lemma fetch_stats_returns (net : pystr -> get_outcome) (username : pystr) :
  exists stats, snd (fetch_stats net username) = Return stats.
Proof.
  rewrite fetch_stats_cases.
  destruct (net (scoreboard_url username)) as [e|res]; [now eexists|].
  destruct (status_code res =? 200); [|now eexists].
  destruct (json res) as [e|data]; [now eexists|].
  cbn [snd].
  destruct data as [| | | | |l|]; try (now eexists).
  destruct l as [|item items]; [now eexists|].
  rewrite stats_of_nonempty. now eexists.
Qed.

(** C4. A transport failure, a status that is not 2xx, a body that does
    not decode and a decoded payload that is not a non-empty sequence all
    make [fetch_stats] return the absent value; it does not raise. *)
Theorem fetch_stats_absent (net : pystr -> get_outcome) (username : pystr) :
  match net (scoreboard_url username) with
  | GetRaises _ => True
  | GetReturns res =>
      ~ (200 <= status_code res < 300)
      \/ match json res with
         | JsonRaises _ => True
         | JsonReturns data => nonempty_sequence data = false
         end
  end ->
  snd (fetch_stats net username) = Return None.
Proof.
  rewrite fetch_stats_cases.
  destruct (net (scoreboard_url username)) as [e|res]; [reflexivity|].
  intros H.
  destruct (Z.eqb_spec (status_code res) 200) as [E|E]; [|reflexivity].
  destruct H as [H|H]; [lia|].
  destruct (json res) as [e|data]; [reflexivity|].
  destruct data as [| | | | |l|]; try reflexivity.
  destruct l; [reflexivity|discriminate].
Qed.

(** C9. Only the status 200 is taken as a success: with any other status,
    201 and 204 included, [fetch_stats] logs the status and returns the
    absent value without decoding the body; with 200 it decodes it. *)
Theorem fetch_stats_only_200 (net : pystr -> get_outcome) (username : pystr)
  (res : response) :
  net (scoreboard_url username) = GetReturns res ->
  (status_code res <> 200 ->
     fetch_stats net username
     = ([request username;
         Stderr (lit "Unexpected status " ++ of_int (status_code res)
                 ++ lit " from " ++ scoreboard_url username)],
        Return None)
     /\ ~ In Json (fst (fetch_stats net username)))
  /\ (status_code res = 200 -> In Json (fst (fetch_stats net username))).
Proof.
  intros Hnet. rewrite fetch_stats_cases, Hnet.
  split; intros Hs.
  - apply Z.eqb_neq in Hs. rewrite Hs. split; [reflexivity|].
    cbn. intros [H|[H|[]]]; discriminate.
  - apply Z.eqb_eq in Hs. rewrite Hs.
    destruct (json res); cbn; auto.
Qed.

(** C10. A record contributes the float of any value that [float]
    converts, not only of a JSON number: the numeric string ["120"]
    contributes 120.0 and the booleans contribute 1.0 and 0.0. *)
Theorem coercion_accepts_convertibles (d : list (pystr * value)) (v : value)
  (f : F64.float) (wpms accs : list F64.float) :
  float v = Return f ->
  (dict_find (lit "wpm") d = Some v ->
     fst (loop_body (wpms, accs) (VDict d)) = wpms ++ [f])
  /\ (dict_find (lit "acc") d = Some v ->
     snd (loop_body (wpms, accs) (VDict d)) = accs ++ [f])
  /\ float (VStr (lit "120")) = Return (dec 120 0)
  /\ (F64.Qval (dec 120 0) == 120 # 1)%Q
  /\ float (VBool true) = Return (dec 1 0)
  /\ (F64.Qval (dec 1 0) == 1 # 1)%Q
  /\ float (VBool false) = Return (F64.zero false)
  /\ stats_of_data
       (VList [VDict [(lit "wpm", VStr (lit "120")); (lit "acc", VBool true)]])
     = Return (Some {| best_wpm := 120; avg_acc := Float (dec 1 0) |}).
Proof.
  intros Hf.
  split; [|split].
  - intros Hd. rewrite loop_body_coerced. cbn [fst].
    unfold coerced_values, coerced; cbn [List.flat_map].
    now rewrite Hd, Hf.
  - intros Hd. rewrite loop_body_coerced. cbn [snd].
    unfold coerced_values, coerced; cbn [List.flat_map].
    now rewrite Hd, Hf.
  - destruct py; repeat split; vm_compute; reflexivity.
Qed.

Lemma fetch_stats_serves (data : value) (username : pystr) :
  fetch_stats (serves data) username
  = ([request username; Json], stats_of_data data).
Proof. rewrite fetch_stats_cases. reflexivity. Qed.

Lemma safe_int_float (m : F64.float) :
  safe_int (VFloat m) 0
  = match F64.round_int m with Some z => z | None => 0 end.
Proof.
  unfold safe_int, round. cbn [float bind].
  destruct (F64.round_int m); reflexivity.
Qed.

Lemma coerced_values_permutation (key : pystr) (items items' : list value) :
  Permutation items items' ->
  Permutation (coerced_values key items) (coerced_values key items').
Proof. intros H. unfold coerced_values. now apply Permutation_flat_map. Qed.

Lemma coerced_values_none (key : pystr) (items : list value) :
  (forall item, In item items -> coerced key item = None) ->
  coerced_values key items = [].
Proof.
  induction items as [|item items IH]; intros H; [reflexivity|].
  rewrite coerced_values_cons, IH by (intros; apply H; now right).
  unfold coerced_values; cbn [List.flat_map].
  now rewrite (H item (or_introl eq_refl)).
Qed.

(** C2, as the code has it.  When the coerced speeds are not empty and
    hold no NaN, the best speed does not depend on the order of the
    records, and it is the nearest integer (ties to even) of the greatest
    coerced speed when that one is finite; it is 0 when the greatest is an
    infinity. *)
Theorem best_wpm_rounded_max (items : list value) (username : pystr) :
  let wpms := coerced_values (lit "wpm") items in
  wpms <> [] ->
  Forall (fun x => F64.is_nan x = false) wpms ->
  exists (stats : Stats) (m : F64.float),
    snd (fetch_stats (serves (VList items)) username) = Return (Some stats)
    /\ In m wpms
    /\ (forall x, In x wpms -> F64.gt x m = false)
    /\ (F64.is_finite m = true ->
          nearest_even (F64.Qval m) (best_wpm stats))
    /\ (F64.is_finite m = false -> best_wpm stats = 0)
    /\ forall items', Permutation items items' ->
         exists stats',
           snd (fetch_stats (serves (VList items')) username)
           = Return (Some stats')
           /\ best_wpm stats' = best_wpm stats.
Proof.
  intros wpms Hne Hnan.
  destruct items as [|item items]; [now elim Hne|].
  rewrite fetch_stats_serves, stats_of_nonempty. cbn [snd]. fold wpms.
  destruct wpms as [|w wr] eqn:Ew; [now elim Hne|].
  set (m := List.fold_left (fun m y => if F64.gt y m then y else m) wr w).
  destruct (FloatFacts.fold_max_spec wr w Hnan) as [Hin Hmax]. fold m in Hin, Hmax.
  eexists; exists m.
  split; [reflexivity|]. cbn [best_wpm].
  split; [exact Hin|]. split; [exact Hmax|].
  rewrite safe_int_float.
  split; [|split].
  - intros Hfin.
    destruct (FloatFacts.round_int_nearest m Hfin) as (z & Hz & Hnear).
    now rewrite Hz.
  - intros Hinf. now rewrite (FloatFacts.round_int_infinite m Hinf).
  - intros items' HP.
    destruct items' as [|item' items'].
    { apply Permutation_sym, Permutation_nil in HP. discriminate. }
    rewrite fetch_stats_serves, stats_of_nonempty. cbn [snd].
    pose proof (coerced_values_permutation (lit "wpm") _ _ HP) as HPw.
    unfold wpms in Ew. rewrite Ew in HPw.
    destruct (coerced_values (lit "wpm") (item' :: items')) as [|w' wr'].
    { apply Permutation_sym, Permutation_nil in HPw. discriminate. }
    eexists. split; [reflexivity|]. cbn [best_wpm].
    rewrite safe_int_float.
    unfold m.
    now rewrite (FloatFacts.round_max_permutation w w' wr wr' Hnan HPw).
Qed.

(** C3, as the code has it.  A non-empty list none of whose records
    yields a speed or an accuracy gives the statistics 0 and 0; the empty
    list gives no statistics at all. *)
Theorem no_valid_record_gives_zeros (items : list value) (username : pystr) :
  (items <> [] ->
   (forall item, In item items ->
      coerced (lit "wpm") item = None /\ coerced (lit "acc") item = None) ->
   snd (fetch_stats (serves (VList items)) username)
   = Return (Some {| best_wpm := 0; avg_acc := Int 0 |}))
  /\ (items = [] ->
      snd (fetch_stats (serves (VList items)) username) = Return None).
Proof.
  split.
  - intros Hne Hinv.
    destruct items as [|item items]; [now elim Hne|].
    rewrite fetch_stats_serves, stats_of_nonempty. cbn [snd].
    rewrite !coerced_values_none by (intros i Hi; now apply Hinv).
    reflexivity.
  - intros ->. rewrite fetch_stats_serves. reflexivity.
Qed.

(** The label is ["no data"] exactly when there are no statistics. *)
Lemma value_text_no_data (stats : option Stats) :
  value_text stats = lit "no data" <-> stats = None.
Proof.
  split; [|intros ->; reflexivity].
  destruct stats as [st|]; [|reflexivity].
  unfold value_text. intros H. exfalso.
  change (lit "no data") with (lit "no dat" ++ [97%N]) in H.
  change (lit "%") with [37%N] in H.
  rewrite !app_assoc in H.
  apply app_inj_tail in H. destruct H as [_ H]. discriminate.
Qed.

(** C1, on the payload of the first scenario.  The statistics are 120 and
    96.1, and the label that [main] builds from them and passes to
    [render_badge] is "120 WPM ", the two characters U+00C2 and U+00B7 that
    the source has for a separator, and " 96.1%": it is not the label
    with the single middle dot U+00B7. *)
Theorem value_text_scenario_1 (username : pystr) :
  snd (fetch_stats (serves (VList scenario_1)) username)
  = Return (Some {| best_wpm := 120;
                    avg_acc := Float (dec 961 (-1)) |})
  /\ value_text (Some {| best_wpm := 120;
                         avg_acc := Float (dec 961 (-1)) |})
     = lit "120 WPM " ++ [194; 183]%N ++ lit " 96.1%"
  /\ snd (main (serves (VList scenario_1)) username)
     = render_badge (lit "120 WPM " ++ [194; 183]%N ++ lit " 96.1%")
  /\ PyStr.eqb (lit "120 WPM " ++ [194; 183]%N ++ lit " 96.1%")
               (lit "120 WPM " ++ [183]%N ++ lit " 96.1%")
     = false.
Proof.
  unfold main. rewrite fetch_stats_serves. cbn [snd].
  destruct py; repeat split; vm_compute; reflexivity.
Qed.

End WithUnicode.

(** C2, as it is stated, fails: the two payloads are permutations of one
    another and both hold the speed 1, yet the best speed is 0 for one and
    1 for the other, because [max] keeps a leading NaN and [safe_int]
    turns it into the default. *)
Lemma best_wpm_depends_on_order :
  Permutation nan_first nan_last
  /\ @coerced PyFloat.ucd_ascii (lit "wpm") (VDict [(lit "wpm", VInt 1)])
     = Some (dec 1 0)
  /\ List.map (fun py => snd (@fetch_stats PyFloat.ucd_ascii py
                                (serves (VList nan_first)) (lit "Luke3512")))
       [Before_3_12; From_3_12]
     = [Return (Some {| best_wpm := 0; avg_acc := Int 0 |});
        Return (Some {| best_wpm := 0; avg_acc := Int 0 |})]
  /\ List.map (fun py => snd (@fetch_stats PyFloat.ucd_ascii py
                                (serves (VList nan_last)) (lit "Luke3512")))
       [Before_3_12; From_3_12]
     = [Return (Some {| best_wpm := 1; avg_acc := Int 0 |});
        Return (Some {| best_wpm := 1; avg_acc := Int 0 |})].
Proof.
  split; [apply perm_swap|].
  repeat split; vm_compute; reflexivity.
Qed.

Lemma best_wpm_rounded_max_witness :
  exists (stats : Stats) (m : F64.float),
    snd (@fetch_stats PyFloat.ucd_ascii Before_3_12 (serves (VList scenario_1))
           (lit "Luke3512"))
    = Return (Some stats)
    /\ In m (@coerced_values PyFloat.ucd_ascii (lit "wpm") scenario_1)
    /\ (forall x, In x (@coerced_values PyFloat.ucd_ascii (lit "wpm") scenario_1) ->
          F64.gt x m = false).
Proof.
  assert (Hne : @coerced_values PyFloat.ucd_ascii (lit "wpm") scenario_1 <> [])
    by (vm_compute; discriminate).
  assert (Hnan : Forall (fun x => F64.is_nan x = false)
                   (@coerced_values PyFloat.ucd_ascii (lit "wpm") scenario_1))
    by (vm_compute; repeat constructor).
  destruct (@best_wpm_rounded_max PyFloat.ucd_ascii Before_3_12 scenario_1
              (lit "Luke3512") Hne Hnan)
    as (stats & m & H1 & H2 & H3 & _).
  exists stats, m. auto.
Defined.

(** C3, as it is stated, fails on the empty list: [fetch_stats] returns
    the absent value, not statistics that are 0 and 0. *)
Lemma empty_list_gives_no_stats :
  ~ exists (py : interpreter) (stats : Stats),
      snd (@fetch_stats PyFloat.ucd_ascii py (serves (VList [])) (lit "Luke3512"))
      = Return (Some stats)
      /\ best_wpm stats = 0 /\ avg_acc stats = Int 0.
Proof. intros (py & stats & H & _). destruct py; vm_compute in H; discriminate. Qed.

Lemma no_valid_record_gives_zeros_witness :
  snd (@fetch_stats PyFloat.ucd_ascii Before_3_12
         (serves (VList [VNone; VDict [(lit "wpm", VStr (lit "fast"))]; VInt 3]))
         (lit "Luke3512"))
  = Return (Some {| best_wpm := 0; avg_acc := Int 0 |}).
Proof.
  apply (proj1 (@no_valid_record_gives_zeros PyFloat.ucd_ascii Before_3_12
                  [VNone; VDict [(lit "wpm", VStr (lit "fast"))]; VInt 3]
                  (lit "Luke3512"))).
  - discriminate.
  - intros item [<-|[<-|[<-|[]]]]; split; vm_compute; reflexivity.
Defined.

Lemma fetch_stats_absent_witness :
  snd (@fetch_stats PyFloat.ucd_ascii Before_3_12
         (fun _ => GetReturns {| status_code := 503;
                                 json := JsonRaises (lit "Expecting value") |})
         (lit "Luke3512"))
  = Return None.
Proof.
  apply (@fetch_stats_absent PyFloat.ucd_ascii Before_3_12). cbn. left. lia.
Defined.

Lemma fetch_stats_only_200_witness :
  ~ In Json (fst (@fetch_stats PyFloat.ucd_ascii Before_3_12
         (fun _ => GetReturns {| status_code := 204;
                                 json := JsonReturns (VList []) |})
         (lit "Luke3512"))).
Proof.
  refine (proj2 (proj1 (@fetch_stats_only_200 PyFloat.ucd_ascii Before_3_12
           (fun _ => GetReturns {| status_code := 204;
                                   json := JsonReturns (VList []) |})
           (lit "Luke3512") _ eq_refl) _)).
  cbn. discriminate.
Defined.

Lemma coercion_accepts_convertibles_witness :
  fst (@loop_body PyFloat.ucd_ascii ([], [])
         (VDict [(lit "wpm", VStr (lit "120"))]))
  = [dec 120 0].
Proof.
  refine (proj1 (@coercion_accepts_convertibles PyFloat.ucd_ascii Before_3_12
            [(lit "wpm", VStr (lit "120"))] (VStr (lit "120"))
            (dec 120 0) [] [] _) _); vm_compute; reflexivity.
Defined.

End FetchFacts.

(** ** Integers and floats

    An [int] below [2^53] in absolute value is a float, [round] gives it
    back, and [round] is monotone. *)

Module IntFacts.

Import Floats.SpecFloat PyStr Py Script Spec.

(** Division by one and exact division round to the quotient. *)
Lemma div_half_even_1 (n : Z) : F64.div_half_even n 1 = n.
Proof.
  unfold F64.div_half_even. rewrite Z.mod_1_r, Z.div_1_r. reflexivity.
Qed.

Lemma div_half_even_exact (n d : Z) : 0 < d -> F64.div_half_even (n * d) d = n.
Proof.
  intros Hd. unfold F64.div_half_even.
  rewrite Z.mod_mul, Z.div_mul by lia.
  destruct (Z.compare_spec (2 * 0) d); lia.
Qed.

(** A positive integer below [2^53] is a float. *)
Lemma round_ratio_small_int (s : bool) (n : Z) :
  0 < n < 2 ^ 53 ->
  exists (m : positive) (k : Z),
    0 <= k <= 52
    /\ Z.pos m = n * 2 ^ k
    /\ F64.round_ratio s n 1 = S754_finite s m (- k).
Proof.
  intros Hn.
  pose proof (Z.log2_spec n ltac:(lia)) as HL.
  pose proof (Z.log2_nonneg n) as HL0.
  assert (HL1 : Z.log2 n < 53) by (apply Z.log2_lt_pow2; lia).
  set (L := Z.log2 n) in *.
  assert (Hm : 0 < n * 2 ^ (52 - L)) by (apply Z.mul_pos_pos; [lia|apply Z.pow_pos_nonneg; lia]).
  assert (Hlt : n * 2 ^ (52 - L) < 2 ^ 53).
  { replace (2 ^ 53) with (2 ^ (L + 1) * 2 ^ (52 - L))
      by (rewrite <- Z.pow_add_r by lia; f_equal; lia).
    apply Z.mul_lt_mono_pos_r; [apply Z.pow_pos_nonneg; lia|lia]. }
  destruct (n * 2 ^ (52 - L)) as [|m|m] eqn:Em; try lia.
  exists m, (52 - L). split; [lia|]. split; [now rewrite Em|].
  unfold F64.round_ratio.
  replace (n <=? 0) with false by (symmetry; apply Z.leb_gt; lia).
  assert (Hlg : F64.ilog2_ratio n 1 = L).
  { unfold F64.ilog2_ratio. change (Z.log2 1) with 0. rewrite Z.sub_0_r. fold L.
    replace (0 <=? L) with true by (symmetry; apply Z.leb_le; lia).
    replace (1 * 2 ^ L <=? n) with true by (symmetry; apply Z.leb_le; lia).
    reflexivity. }
  rewrite Hlg.
  change F64.prec with 53. change F64.emin with (-1074). change F64.emax with 1024.
  replace (Z.max (L - (53 - 1)) (-1074)) with (L - 52) by lia.
  assert (Hdiv : (if 0 <=? L - 52 then F64.div_half_even n (1 * 2 ^ (L - 52))
                  else F64.div_half_even (n * 2 ^ (- (L - 52))) 1) = Z.pos m).
  { destruct (Z.leb_spec 0 (L - 52)).
    - assert (L = 52) by lia. replace (L - 52) with 0 by lia.
      change (1 * 2 ^ 0) with 1. rewrite div_half_even_1.
      rewrite <- Em. replace (52 - L) with 0 by lia. change (2 ^ 0) with 1. lia.
    - rewrite div_half_even_1. rewrite <- Em. f_equal. f_equal. lia. }
  rewrite Hdiv.
  replace (Z.pos m =? 2 ^ 53) with false by (symmetry; apply Z.eqb_neq; lia).
  replace (1024 - 53 <? L - 52) with false by (symmetry; apply Z.ltb_ge; lia).
  f_equal. lia.
Qed.

(** Such a float rounds to the integer it holds. *)
Lemma round_int_small (s : bool) (m : positive) (k n : Z) :
  0 <= k -> Z.pos m = n * 2 ^ k ->
  F64.round_int (S754_finite s m (- k)) = Some (if s then - n else n).
Proof.
  intros Hk Hm. cbn [F64.round_int]. f_equal.
  assert (H2 : 0 < 2 ^ k) by (apply Z.pow_pos_nonneg; lia).
  destruct k as [|k|k]; try lia.
  - cbn [Z.opp F64.Qval Qnum Qden]. rewrite div_half_even_1.
    change (2 ^ 0) with 1 in Hm. destruct s; lia.
  - cbn [Z.opp F64.Qval Qnum Qden].
    rewrite Pos2Z.inj_pow.
    destruct s.
    + replace (Z.neg m) with ((- n) * 2 ^ Z.pos k) by lia.
      apply div_half_even_exact. lia.
    + rewrite Hm. apply div_half_even_exact. lia.
Qed.

(** [float(n)] and back: nothing is lost for an [int] below [2^53]. *)
Lemma of_int_round_trip (z : Z) :
  Z.abs z < 2 ^ 53 ->
  exists f, F64.of_int z = Some f /\ F64.is_finite f = true
            /\ F64.round_int f = Some z.
Proof.
  intros Hz. unfold F64.of_int, F64.of_Q. cbn [Qnum Qden].
  destruct z as [|p|p].
  - eexists. repeat split; reflexivity.
  - destruct (round_ratio_small_int false (Z.pos p) ltac:(lia)) as (m & k & Hk & Hm & E).
    rewrite E. cbn [F64.is_finite]. eexists. split; [reflexivity|]. split; [reflexivity|].
    now rewrite (round_int_small false m k (Z.pos p)) by lia.
  - destruct (round_ratio_small_int true (Z.pos p) ltac:(lia)) as (m & k & Hk & Hm & E).
    rewrite E. cbn [F64.is_finite]. eexists. split; [reflexivity|]. split; [reflexivity|].
    now rewrite (round_int_small true m k (Z.pos p)) by lia.
Qed.

(** The value of such a float is the integer. *)
Lemma small_int_value (s : bool) (m : positive) (k n : Z) :
  0 <= k -> Z.pos m = n * 2 ^ k ->
  (F64.Qval (S754_finite s m (- k)) == (if s then - n else n) # 1)%Q.
Proof.
  intros Hk Hm.
  destruct k as [|k|k]; try lia; cbn [Z.opp F64.Qval]; unfold Qeq; cbn [Qnum Qden].
  - change (2 ^ 0) with 1 in Hm. destruct s; lia.
  - rewrite Pos2Z.inj_pow. destruct s; lia.
Qed.

Lemma of_int_value (z : Z) (f : F64.float) :
  Z.abs z < 2 ^ 53 -> F64.of_int z = Some f ->
  F64.is_finite f = true /\ (F64.Qval f == z # 1)%Q.
Proof.
  intros Hz. unfold F64.of_int, F64.of_Q. cbn [Qnum Qden].
  destruct z as [|p|p].
  - intros [= <-]. split; reflexivity.
  - destruct (round_ratio_small_int false (Z.pos p) ltac:(lia)) as (m & k & Hk & Hm & E).
    rewrite E. cbn [F64.is_finite]. intros [= <-]. split; [reflexivity|].
    now apply (small_int_value false m k (Z.pos p)); [lia|].
  - destruct (round_ratio_small_int true (Z.pos p) ltac:(lia)) as (m & k & Hk & Hm & E).
    rewrite E. cbn [F64.is_finite]. intros [= <-]. split; [reflexivity|].
    now apply (small_int_value true m k (Z.pos p)); [lia|].
Qed.

(** Rounding to the nearest integer is monotone. *)
Lemma div_half_even_mono (p q : Q) :
  (p <= q)%Q ->
  F64.div_half_even (Qnum p) (Z.pos (Qden p))
  <= F64.div_half_even (Qnum q) (Z.pos (Qden q)).
Proof.
  destruct p as [n1 d1], q as [n2 d2]. unfold Qle. cbn [Qnum Qden]. intros E.
  destruct (FloatFacts.div_half_even_near n1 (Z.pos d1) ltac:(lia)) as [A1 B1].
  destruct (FloatFacts.div_half_even_near n2 (Z.pos d2) ltac:(lia)) as [A2 B2].
  set (k1 := F64.div_half_even n1 (Z.pos d1)) in *.
  set (k2 := F64.div_half_even n2 (Z.pos d2)) in *.
  destruct (Z.le_gt_cases k1 k2) as [|Hgt]; [assumption|exfalso].
  set (D1 := Z.pos d1) in *. set (D2 := Z.pos d2) in *.
  assert (HD1 : 0 < D1) by (unfold D1; lia).
  assert (HD2 : 0 < D2) by (unfold D2; lia).
  assert (L1 : 2 * D1 * k1 - D1 <= 2 * n1) by lia.
  assert (L2 : 2 * n2 <= 2 * D2 * k2 + D2) by lia.
  assert (M1 : (2 * D1 * k1 - D1) * D2 <= 2 * n1 * D2)
    by (apply Z.mul_le_mono_nonneg_r; lia).
  assert (M2 : 2 * n2 * D1 <= (2 * D2 * k2 + D2) * D1)
    by (apply Z.mul_le_mono_nonneg_r; lia).
  assert (M3 : D1 * D2 * (2 * (k1 - k2) - 2) <= 0) by lia.
  assert (P : 0 < D1 * D2) by (apply Z.mul_pos_pos; lia).
  assert (Hk : k1 = k2 + 1) by nia.
  assert (M4 : (2 * D1 * k1 - D1) * D2 = 2 * n1 * D2) by lia.
  assert (M5 : 2 * n2 * D1 = (2 * D2 * k2 + D2) * D1) by lia.
  assert (T1 : Z.abs (2 * n1 - 2 * D1 * k1) = D1) by nia.
  assert (T2 : Z.abs (2 * n2 - 2 * D2 * k2) = D2) by nia.
  specialize (B1 T1). specialize (B2 T2).
  rewrite Hk, Z.even_add, B2 in B1. discriminate.
Qed.

(** [round] is monotone on finite floats. *)
Lemma round_int_mono (x y : F64.float) :
  F64.is_finite x = true -> F64.is_finite y = true ->
  F64.gt x y = false ->
  exists a b, F64.round_int x = Some a /\ F64.round_int y = Some b /\ a <= b.
Proof.
  intros Hx Hy H. rewrite FloatFacts.gt_finite in H by assumption.
  apply FloatFacts.Qgtb_false in H.
  destruct x, y; try discriminate; cbn [F64.round_int];
    do 2 eexists; (split; [reflexivity|]); (split; [reflexivity|]);
    now apply div_half_even_mono.
Qed.

End IntFacts.

(** ** The coercions and the statistics, beyond the scenarios *)

Module StatsFacts.

Import Floats.SpecFloat PyStr Py Script Spec Entry.

Section WithUnicode.
Context {ucd : PyFloat.UnicodeData} {py : interpreter}.

(** X1. [safe_int] never raises and has three outcomes: when [float(v)]
    is a finite number, an integer nearest to it, the even one of the two
    when it lies half-way; when [float(v)] is an infinity or a NaN, the
    default; when [float(v)] raises, the default. *)
Theorem safe_int_spec (v : value) (default : Z) :
  match float v with
  | Return x =>
      if F64.is_finite x
      then nearest_even (F64.Qval x) (safe_int v default)
      else safe_int v default = default
  | Raise _ => safe_int v default = default
  end.
Proof.
  unfold safe_int, round.
  destruct (float v) as [x|e]; cbn [bind try_except]; [|reflexivity].
  destruct (F64.is_finite x) eqn:Hx.
  - destruct (FloatFacts.round_int_nearest x Hx) as (z & Hz & Hn).
    now rewrite Hz.
  - now rewrite (FloatFacts.round_int_infinite x Hx).
Qed.

(** X2. On an [int] below [2^53] in absolute value [safe_int] is the
    identity, whatever the default: the detour through [float] loses
    nothing. *)
Theorem safe_int_of_int (z default : Z) :
  Z.abs z < 2 ^ 53 -> safe_int (VInt z) default = z.
Proof.
  intros Hz. unfold safe_int, round. cbn [float].
  destruct (IntFacts.of_int_round_trip z Hz) as (f & Hf & _ & Hr).
  rewrite Hf. cbn [bind]. rewrite Hr. reflexivity.
Qed.

(** The statistics depend on the payload through the coerced values only. *)
Lemma stats_determined (items items' : list value) :
  items <> [] -> items' <> [] ->
  coerced_values (lit "wpm") items = coerced_values (lit "wpm") items' ->
  coerced_values (lit "acc") items = coerced_values (lit "acc") items' ->
  stats_of_data (VList items) = stats_of_data (VList items').
Proof.
  intros H H' Ew Ea.
  destruct items as [|i items]; [now elim H|].
  destruct items' as [|i' items']; [now elim H'|].
  rewrite !FetchFacts.stats_of_nonempty. now rewrite Ew, Ea.
Qed.

Lemma coerced_values_app (key : pystr) (a b : list value) :
  coerced_values key (a ++ b) = coerced_values key a ++ coerced_values key b.
Proof. unfold coerced_values. apply flat_map_app. Qed.

Lemma coerced_values_junk (key : pystr) (junk : value) :
  coerced key junk = None -> coerced_values key [junk] = [].
Proof. intros H. unfold coerced_values. cbn. now rewrite H. Qed.

(** X5. A record that contributes no speed and no accuracy (it is not a
    mapping, or its fields are missing or do not convert) changes nothing
    of what [fetch_stats] returns, wherever it stands in the payload, as
    long as another record is left. *)
Theorem junk_records_ignored (items1 items2 : list value) (junk : value)
  (username : pystr) :
  coerced (lit "wpm") junk = None -> coerced (lit "acc") junk = None ->
  items1 ++ items2 <> [] ->
  snd (fetch_stats (serves (VList (items1 ++ junk :: items2))) username)
  = snd (fetch_stats (serves (VList (items1 ++ items2))) username).
Proof.
  intros Hw Ha Hne. rewrite !FetchFacts.fetch_stats_serves. cbn [snd].
  apply stats_determined; [now destruct items1|assumption| |];
    change (junk :: items2) with ([junk] ++ items2);
    rewrite !coerced_values_app, coerced_values_junk by assumption; reflexivity.
Qed.

Lemma best_of_coerced (items : list value) (w : F64.float) (wr : list F64.float) :
  coerced_values (lit "wpm") items = w :: wr ->
  best_of items
  = Some match F64.round_int
                 (List.fold_left (fun m y => if F64.gt y m then y else m) wr w) with
         | Some z => z
         | None => 0
         end.
Proof.
  intros E. unfold best_of.
  destruct items as [|i items]; [discriminate|].
  rewrite FetchFacts.stats_of_nonempty. cbn [best_wpm]. rewrite E.
  now rewrite FetchFacts.safe_int_float.
Qed.

Lemma finite_not_nan (l : list F64.float) :
  Forall (fun x => F64.is_finite x = true) l ->
  Forall (fun x => F64.is_nan x = false) l.
Proof. apply Forall_impl. intros x. now destruct x. Qed.

(** X6. More records never lower the best speed: when the speeds of the
    larger payload are all finite, its best speed is at least the best
    speed of the payload without the additional records. *)
Theorem more_records_never_lower_best (items1 extra items2 : list value) :
  coerced_values (lit "wpm") (items1 ++ items2) <> [] ->
  Forall (fun x => F64.is_finite x = true)
         (coerced_values (lit "wpm") (items1 ++ extra ++ items2)) ->
  exists b b' : Z,
    best_of (items1 ++ items2) = Some b
    /\ best_of (items1 ++ extra ++ items2) = Some b'
    /\ b <= b'.
Proof.
  intros Hne Hfin.
  assert (Hincl : forall x, In x (coerced_values (lit "wpm") (items1 ++ items2)) ->
                            In x (coerced_values (lit "wpm") (items1 ++ extra ++ items2))).
  { intros x. rewrite !coerced_values_app, !in_app_iff. tauto. }
  destruct (coerced_values (lit "wpm") (items1 ++ items2)) as [|w wr] eqn:Eo;
    [now elim Hne|].
  destruct (coerced_values (lit "wpm") (items1 ++ extra ++ items2)) as [|w' wr'] eqn:En.
  { exfalso. apply (Hincl w). now left. }
  rewrite (best_of_coerced _ _ _ Eo), (best_of_coerced _ _ _ En).
  assert (Hfo : Forall (fun x => F64.is_finite x = true) (w :: wr)).
  { rewrite Forall_forall in *. intros x Hx. apply Hfin, Hincl, Hx. }
  destruct (FloatFacts.fold_max_spec wr w (finite_not_nan _ Hfo)) as [Hin Hmax].
  destruct (FloatFacts.fold_max_spec wr' w' (finite_not_nan _ Hfin)) as [Hin' Hmax'].
  set (m := List.fold_left _ wr w) in *. set (m' := List.fold_left _ wr' w') in *.
  rewrite Forall_forall in Hfo, Hfin.
  destruct (IntFacts.round_int_mono m m' (Hfo _ Hin) (Hfin _ Hin') (Hmax' _ (Hincl _ Hin)))
    as (a & b & Ha & Hb & Hab).
  rewrite Ha, Hb. now exists a, b.
Qed.

(** X7. When the speeds of the payload are the integers [zs], each below
    [2^53] in absolute value, the best speed is the largest of them,
    exactly. *)
Theorem integer_speeds_exact (items : list value) (zs : list Z) :
  zs <> [] ->
  Forall (fun z => Z.abs z < 2 ^ 53) zs ->
  Forall2 (fun f z => F64.of_int z = Some f)
          (coerced_values (lit "wpm") items) zs ->
  exists b : Z,
    best_of items = Some b /\ In b zs /\ forall z, In z zs -> z <= b.
Proof.
  intros Hne Hsmall H2.
  assert (Hall : forall f, In f (coerced_values (lit "wpm") items) ->
            exists z, In z zs /\ F64.is_finite f = true
                      /\ (F64.Qval f == z # 1)%Q /\ F64.round_int f = Some z).
  { clear Hne. induction H2 as [|f z l l' Hfz H2 IH]; intros f0 Hin; [destruct Hin|].
    inversion Hsmall as [|? ? Hz Hs]; subst.
    destruct Hin as [<-|Hin].
    - exists z. split; [now left|].
      destruct (IntFacts.of_int_value z f Hz Hfz) as [Hf Hv].
      destruct (IntFacts.of_int_round_trip z Hz) as (f' & Hf' & _ & Hr).
      rewrite Hfz in Hf'. injection Hf' as <-. auto.
    - destruct (IH Hs f0 Hin) as (z0 & Hz0 & R).
      exists z0. split; [now right|exact R]. }
  assert (Hrev : forall z, In z zs ->
            exists f, In f (coerced_values (lit "wpm") items)
                      /\ F64.is_finite f = true /\ (F64.Qval f == z # 1)%Q).
  { clear Hall Hne. induction H2 as [|f z l l' Hfz H2 IH]; intros z0 Hin; [destruct Hin|].
    inversion Hsmall as [|? ? Hz Hs]; subst.
    destruct Hin as [<-|Hin].
    - exists f. split; [now left|]. now apply IntFacts.of_int_value.
    - destruct (IH Hs z0 Hin) as (f0 & Hf0 & R). exists f0. split; [now right|exact R]. }
  destruct (coerced_values (lit "wpm") items) as [|w wr] eqn:E.
  { inversion H2; subst. now elim Hne. }
  rewrite (best_of_coerced _ _ _ E).
  assert (Hnan : Forall (fun x => F64.is_nan x = false) (w :: wr)).
  { apply finite_not_nan, Forall_forall. intros f Hf.
    destruct (Hall f Hf) as (z & _ & Hfin & _). exact Hfin. }
  destruct (FloatFacts.fold_max_spec wr w Hnan) as [Hin Hmax].
  set (m := List.fold_left _ wr w) in *.
  destruct (Hall m Hin) as (zm & Hzm & Hfm & Hvm & Hrm).
  rewrite Hrm. exists zm. split; [reflexivity|]. split; [assumption|].
  intros z Hz. destruct (Hrev z Hz) as (f & Hf & Hff & Hvf).
  specialize (Hmax f Hf). rewrite FloatFacts.gt_finite in Hmax by assumption.
  apply FloatFacts.Qgtb_false in Hmax. rewrite Hvf, Hvm in Hmax.
  unfold Qle in Hmax. cbn in Hmax. lia.
Qed.

(** X3. [fetch_stats] never raises, and it returns statistics exactly
    when the request returns a response with status 200 whose body
    decodes to a non-empty list; in every other case it returns the
    absent value. *)
Theorem fetch_stats_present_iff (net : pystr -> get_outcome) (username : pystr) :
  exists result : option Stats,
    snd (fetch_stats net username) = Return result
    /\ (result <> None <->
        exists res item items,
          net (scoreboard_url username) = GetReturns res
          /\ status_code res = 200
          /\ json res = JsonReturns (VList (item :: items))).
Proof.
  rewrite FetchFacts.fetch_stats_cases.
  destruct (net (scoreboard_url username)) as [e|res].
  { exists None. split; [reflexivity|]. split; [congruence|].
    intros (? & ? & ? & H & _). discriminate. }
  destruct (Z.eqb_spec (status_code res) 200) as [E|E].
  2:{ exists None. split; [reflexivity|]. split; [congruence|].
      intros (? & ? & ? & [= <-] & H & _). contradiction. }
  destruct (json res) as [e|data] eqn:J.
  { exists None. split; [reflexivity|]. split; [congruence|].
    intros (? & ? & ? & [= <-] & _ & H). congruence. }
  cbn [snd].
  destruct data as [| | | | |l|];
    try (exists None; split; [reflexivity|]; split; [congruence|];
         intros (? & ? & ? & [= <-] & _ & H); congruence).
  destruct l as [|item items].
  { exists None. split; [reflexivity|]. split; [congruence|].
    intros (? & ? & ? & [= <-] & _ & H). congruence. }
  rewrite FetchFacts.stats_of_nonempty. eexists. split; [reflexivity|].
  split; [|discriminate]. intros _. exists res, item, items. auto.
Qed.

(** X4. What [fetch_stats] does to the world: one request, first, to the
    scoreboard address with the user name put in as it is, with a timeout
    of 15 seconds and the one header; then either the body is decoded and
    nothing is logged, or one line is written to the standard error,
    before or after the decoding.  Nothing is logged exactly when the
    status is 200 and the body decodes. *)
Theorem fetch_stats_trace (net : pystr -> get_outcome) (username : pystr) :
  exists tail : list event,
    fst (fetch_stats net username)
    = Get (lit "https://monkeytype.com/api/scoreboard?user=" ++ username) 15
          [(lit "User-Agent", lit "github-action/monkeytype-badge")] :: tail
    /\ (tail = [Json]
        \/ exists line, tail = [Stderr line] \/ tail = [Json; Stderr line])
    /\ (tail = [Json] <->
        exists res data,
          net (scoreboard_url username) = GetReturns res
          /\ status_code res = 200
          /\ json res = JsonReturns data).
Proof.
  rewrite FetchFacts.fetch_stats_cases.
  destruct (net (scoreboard_url username)) as [e|res].
  - eexists. split; [reflexivity|]. split.
    + right. eexists. left. reflexivity.
    + split; [discriminate|]. intros (r & d & H & _). discriminate H.
  - destruct (Z.eqb_spec (status_code res) 200) as [E|E].
    + destruct (json res) as [e|data] eqn:J.
      * eexists. split; [reflexivity|]. split.
        -- right. eexists. right. reflexivity.
        -- split; [discriminate|]. intros (r & d & [= <-] & _ & H). congruence.
      * eexists. split; [reflexivity|]. split; [now left|].
        split; [|reflexivity]. intros _. exists res, data. auto.
    + eexists. split; [reflexivity|]. split.
      * right. eexists. left. reflexivity.
      * split; [discriminate|]. intros (r & d & [= <-] & H & _). contradiction.
Qed.

End WithUnicode.

Lemma safe_int_of_int_witness :
  @safe_int PyFloat.ucd_ascii (VInt 9007199254740991) 0 = 9007199254740991.
Proof. apply (@safe_int_of_int PyFloat.ucd_ascii). vm_compute. reflexivity. Defined.

Lemma junk_records_ignored_witness :
  snd (@fetch_stats PyFloat.ucd_ascii Before_3_12
         (serves (VList [VDict [(lit "wpm", VInt 100)];
                         VDict [(lit "wpm", VStr (lit "fast"))]; VInt 3]))
         (lit "Luke3512"))
  = snd (@fetch_stats PyFloat.ucd_ascii Before_3_12
           (serves (VList [VDict [(lit "wpm", VInt 100)]; VInt 3]))
           (lit "Luke3512")).
Proof.
  refine (@junk_records_ignored PyFloat.ucd_ascii Before_3_12
            [VDict [(lit "wpm", VInt 100)]] [VInt 3]
            (VDict [(lit "wpm", VStr (lit "fast"))]) (lit "Luke3512") _ _ _).
  - vm_compute. reflexivity.
  - vm_compute. reflexivity.
  - discriminate.
Defined.

Lemma more_records_never_lower_best_witness :
  exists b b' : Z,
    @best_of PyFloat.ucd_ascii Before_3_12 [VDict [(lit "wpm", VInt 100)]] = Some b
    /\ @best_of PyFloat.ucd_ascii Before_3_12
         [VDict [(lit "wpm", VInt 100)]; VDict [(lit "wpm", VStr (lit "120.4"))]]
       = Some b'
    /\ b <= b'.
Proof.
  refine (@more_records_never_lower_best PyFloat.ucd_ascii Before_3_12
            [VDict [(lit "wpm", VInt 100)]]
            [VDict [(lit "wpm", VStr (lit "120.4"))]] [] _ _).
  - vm_compute. discriminate.
  - vm_compute. repeat constructor.
Defined.

Lemma integer_speeds_exact_witness :
  exists b : Z,
    @best_of PyFloat.ucd_ascii Before_3_12
      [VDict [(lit "wpm", VInt 100)]; VNone; VDict [(lit "wpm", VInt 120)]]
    = Some b
    /\ In b [100; 120] /\ forall z, In z [100; 120] -> z <= b.
Proof.
  apply (@integer_speeds_exact PyFloat.ucd_ascii Before_3_12).
  - discriminate.
  - repeat constructor; vm_compute; reflexivity.
  - replace (@coerced_values PyFloat.ucd_ascii (lit "wpm")
               [VDict [(lit "wpm", VInt 100)]; VNone; VDict [(lit "wpm", VInt 120)]])
      with [dec 100 0; dec 120 0] by (vm_compute; reflexivity).
    constructor; [vm_compute; reflexivity|].
    constructor; [vm_compute; reflexivity|]. constructor.
Defined.

Lemma fetch_stats_present_iff_witness :
  exists result : option Stats,
    snd (@fetch_stats PyFloat.ucd_ascii Before_3_12 (serves (VList scenario_1))
           (lit "Luke3512"))
    = Return result
    /\ result <> None.
Proof.
  destruct (@fetch_stats_present_iff PyFloat.ucd_ascii Before_3_12
              (serves (VList scenario_1)) (lit "Luke3512")) as (result & H & I).
  exists result. split; [exact H|]. apply I.
  do 3 eexists. split; [reflexivity|]. split; reflexivity.
Defined.

End StatsFacts.

(** ** The average and the bounds of the data

    The roundings of the script, measured: one rounding of a number below
    [2^B] is off by [half_ulp B] at most, and neither way of adding, from
    left to right or compensated, is off by more than five of them for
    each item. *)

Module RangeFacts.

Import Floats.SpecFloat PyStr Py Script Spec Entry.

(** Rounding to the nearest integer against an integer bound. *)
Lemma div_half_even_le (n : Z) (d : positive) (N : Z) :
  n <= N * Z.pos d -> F64.div_half_even n (Z.pos d) <= N.
Proof.
  intros H. pose proof (IntFacts.div_half_even_mono (n # d) (N # 1)) as M.
  cbn [Qnum Qden] in M. rewrite IntFacts.div_half_even_1 in M. apply M.
  unfold Qle; cbn [Qnum Qden]. lia.
Qed.

Lemma div_half_even_ge (n : Z) (d : positive) (N : Z) :
  N * Z.pos d <= n -> N <= F64.div_half_even n (Z.pos d).
Proof.
  intros H. pose proof (IntFacts.div_half_even_mono (N # 1) (n # d)) as M.
  cbn [Qnum Qden] in M. rewrite IntFacts.div_half_even_1 in M. apply M.
  unfold Qle; cbn [Qnum Qden]. lia.
Qed.

(** The binary logarithm of a ratio below [2^B] is below [B]. *)
Lemma ilog2_ratio_lt (n d B : Z) :
  0 < n -> 0 < d -> 0 <= B -> n < d * 2 ^ B -> F64.ilog2_ratio n d < B.
Proof.
  intros Hn Hd HB H. unfold F64.ilog2_ratio.
  pose proof (Z.log2_spec n Hn) as [Ln Un].
  pose proof (Z.log2_spec d Hd) as [Ld Ud].
  pose proof (Z.log2_nonneg n). pose proof (Z.log2_nonneg d).
  set (ln := Z.log2 n) in *. set (ld := Z.log2 d) in *.
  destruct (Z.leb_spec 0 (ln - ld)) as [K|K].
  2:{ destruct (d <=? n * 2 ^ (-(ln - ld))); lia. }
  assert (P : forall j, 0 <= j -> d * 2 ^ j <= n -> j < B).
  { intros j Hj Hle. destruct (Z.lt_ge_cases j B) as [|Hge]; [assumption|exfalso].
    assert (2 ^ B <= 2 ^ j) by (apply Z.pow_le_mono_r; lia).
    assert (d * 2 ^ B <= d * 2 ^ j) by (apply Z.mul_le_mono_nonneg_l; lia). lia. }
  destruct (Z.leb_spec (d * 2 ^ (ln - ld)) n) as [E|E].
  - apply P; assumption.
  - destruct (Z.eq_dec (ln - ld) 0) as [Z0|NZ]; [lia|].
    apply P; [lia|].
    assert (L : d * 2 ^ (ln - ld - 1) < 2 ^ (ld + 1) * 2 ^ (ln - ld - 1)).
    { apply Z.mul_lt_mono_pos_r; [apply Z.pow_pos_nonneg; lia|lia]. }
    rewrite <- Z.pow_add_r in L by lia.
    replace (ld + 1 + (ln - ld - 1)) with ln in L by lia. lia.
Qed.

(** A ratio that is at most an integer below [2^53] rounds to a float
    that is at most this integer. *)
Lemma round_ratio_bounded (s : bool) (n : Z) (d : positive) (N : Z) :
  0 <= n -> 0 < N < 2 ^ 53 -> n <= N * Z.pos d ->
  F64.round_ratio s n (Z.pos d) = S754_zero s
  \/ exists (m : positive) (e : Z),
       F64.round_ratio s n (Z.pos d) = S754_finite s m e
       /\ e <= 0 /\ Z.pos m <= N * 2 ^ (- e).
Proof.
  intros Hn HN H. unfold F64.round_ratio.
  destruct (Z.leb_spec n 0) as [|Hpos]; [now left|].
  assert (Hlg : F64.ilog2_ratio n (Z.pos d) < 53).
  { apply ilog2_ratio_lt; try lia.
    assert (N * Z.pos d < 2 ^ 53 * Z.pos d)
      by (apply Z.mul_lt_mono_pos_r; lia). lia. }
  change F64.prec with 53. change F64.emin with (-1074). change F64.emax with 1024.
  set (e := Z.max (F64.ilog2_ratio n (Z.pos d) - (53 - 1)) (-1074)).
  assert (He : -1074 <= e <= 0) by (unfold e; lia).
  assert (P2 : 0 < 2 ^ (- e)) by (apply Z.pow_pos_nonneg; lia).
  set (m0 := if 0 <=? e then F64.div_half_even n (Z.pos d * 2 ^ e)
             else F64.div_half_even (n * 2 ^ (- e)) (Z.pos d)).
  assert (Hm : m0 <= N * 2 ^ (- e)).
  { unfold m0. destruct (Z.leb_spec 0 e) as [E0|E0].
    - assert (e = 0) as -> by lia. change (2 ^ 0) with 1. change (2 ^ (- 0)) with 1.
      rewrite !Z.mul_1_r. now apply div_half_even_le.
    - apply div_half_even_le.
      replace (N * 2 ^ (- e) * Z.pos d) with (N * Z.pos d * 2 ^ (- e)) by ring.
      apply Z.mul_le_mono_nonneg_r; lia. }
  clearbody m0.
  destruct (Z.eqb_spec m0 (2 ^ 53)) as [E53|N53].
  - assert (e < 0).
    { destruct (Z.eq_dec e 0) as [->|]; [|lia].
      change (2 ^ (- 0)) with 1 in Hm. lia. }
    replace (1024 - 53 <? e + 1) with false by (symmetry; apply Z.ltb_ge; lia).
    change (2 ^ (53 - 1)) with (Z.pos 4503599627370496).
    right. exists 4503599627370496%positive, (e + 1).
    split; [reflexivity|]. split; [lia|].
    assert (E2 : 2 ^ (- e) = 2 * 2 ^ (- (e + 1))).
    { replace (- e) with (Z.succ (- (e + 1))) by lia.
      rewrite Z.pow_succ_r by lia. reflexivity. }
    rewrite E2 in Hm. rewrite E53 in Hm.
    change (2 ^ 53) with (2 * 4503599627370496) in Hm. lia.
  - replace (1024 - 53 <? e) with false by (symmetry; apply Z.ltb_ge; lia).
    destruct m0 as [|m|m]; [now left| |now left].
    right. exists m, e. split; [reflexivity|]. split; [lia|assumption].
Qed.

(** The value of a float that such a rounding gives. *)
Lemma Qval_bounded (m : positive) (e N : Z) :
  e <= 0 -> Z.pos m <= N * 2 ^ (- e) ->
  (0 <= F64.Qval (S754_finite false m e) <= N # 1)%Q.
Proof.
  intros He H. destruct e as [|p|p]; try lia; cbn [F64.Qval]; unfold Qle;
    cbn [Qnum Qden].
  - change (2 ^ (- 0)) with 1 in H. lia.
  - cbn [Z.opp] in H. rewrite Pos2Z.inj_pow. lia.
Qed.

Lemma round_ratio_within (n : Z) (d : positive) (N : Z) :
  0 <= n -> 0 < N < 2 ^ 53 -> n <= N * Z.pos d ->
  within N (F64.round_ratio false n (Z.pos d)).
Proof.
  intros Hn HN H.
  destruct (round_ratio_bounded false n d N Hn HN H) as [->|(m & e & -> & He & Hm)].
  - split; [reflexivity|]. unfold Qle; cbn. lia.
  - split; [reflexivity|]. now apply Qval_bounded.
Qed.

Lemma of_Q_within (zs : bool) (q : Q) (N : Z) :
  0 < N < 2 ^ 53 -> (0 <= q <= N # 1)%Q -> within N (F64.of_Q zs q).
Proof.
  intros HN [H0 H1]. destruct q as [n d]. unfold F64.of_Q. cbn [Qnum Qden].
  unfold Qle in H0, H1. cbn [Qnum Qden] in H0, H1.
  destruct n as [|n|n]; try lia.
  - split; [reflexivity|]. unfold Qle; cbn. lia.
  - apply round_ratio_within; lia.
Qed.

(** *** The error of one rounding *)

Lemma Qval_scaled (s : bool) (m : positive) (e : Z) :
  e <= 0 ->
  F64.Qval (S754_finite s m e)
  = (if s then Z.neg m else Z.pos m) # Z.to_pos (2 ^ (- e)).
Proof.
  intros He. destruct e as [|p|p]; try lia; cbn [F64.Qval Z.opp].
  - reflexivity.
  - rewrite <- Pos2Z.inj_pow. reflexivity.
Qed.

Lemma pow2_Q_bounds (B : Z) :
  0 <= B <= 52 ->
  (1 <= inject_Z (2 ^ B) <= inject_Z (2 ^ 52))%Q.
Proof.
  intros HB. rewrite <- !Zle_Qle. change (inject_Z 1) with 1%Q.
  split.
  - change 1%Q with (inject_Z 1). rewrite <- Zle_Qle.
    assert (0 < 2 ^ B) by (apply Z.pow_pos_nonneg; lia). lia.
  - apply Z.pow_le_mono_r; lia.
Qed.

(** A ratio of absolute value at most [2^B] rounds to a finite float, at
    most [2^B] in absolute value, that is within [half_ulp B] of it. *)
Lemma round_ratio_error (s : bool) (n : Z) (d : positive) (B : Z) :
  0 <= n -> 0 <= B <= 52 -> n <= 2 ^ B * Z.pos d ->
  exists v : Q,
    F64.is_finite (F64.round_ratio s n (Z.pos d)) = true
    /\ (F64.Qval (F64.round_ratio s n (Z.pos d)) == if s then - v else v)%Q
    /\ (0 <= v <= inject_Z (2 ^ B))%Q
    /\ ((n # d) - half_ulp B <= v <= (n # d) + half_ulp B)%Q.
Proof.
  intros Hn HB H.
  assert (HT : 0 < 2 ^ B) by (apply Z.pow_pos_nonneg; lia).
  unfold F64.round_ratio.
  destruct (Z.leb_spec n 0) as [|Hpos].
  { assert (n = 0) as -> by lia. exists 0%Q. cbn [F64.is_finite F64.Qval].
    split; [reflexivity|]. split; [destruct s; reflexivity|].
    unfold half_ulp, Qle, Qminus, Qplus, Qopp, inject_Z; cbn [Qnum Qden].
    repeat split; lia. }
  assert (Hlg : F64.ilog2_ratio n (Z.pos d) < B + 1).
  { apply ilog2_ratio_lt; try lia.
    rewrite Z.pow_add_r by lia. change (2 ^ 1) with 2. nia. }
  change F64.prec with 53. change F64.emin with (-1074). change F64.emax with 1024.
  set (e := Z.max (F64.ilog2_ratio n (Z.pos d) - (53 - 1)) (-1074)).
  assert (He : -1074 <= e <= B - 52) by (unfold e; lia).
  set (m0 := if 0 <=? e then F64.div_half_even n (Z.pos d * 2 ^ e)
             else F64.div_half_even (n * 2 ^ (- e)) (Z.pos d)).
  set (P := 2 ^ (- e)) in *.
  assert (HP : 0 < P) by (apply Z.pow_pos_nonneg; lia).
  assert (HBP : 2 ^ 52 <= 2 ^ B * P).
  { unfold P. rewrite <- Z.pow_add_r by lia. apply Z.pow_le_mono_r; lia. }
  assert (Em : m0 = F64.div_half_even (n * P) (Z.pos d)).
  { unfold m0, P. destruct (Z.leb_spec 0 e) as [E0|E0]; [|reflexivity].
    assert (e = 0) as -> by lia. change (2 ^ 0) with 1. change (2 ^ (- 0)) with 1.
    now rewrite !Z.mul_1_r. }
  clearbody m0.
  destruct (FloatFacts.div_half_even_near (n * P) (Z.pos d) ltac:(lia)) as [Near _].
  rewrite <- Em in Near.
  assert (Hm0 : 0 <= m0 <= 2 ^ B * P).
  { rewrite Em. split; [apply div_half_even_ge; nia|].
    apply div_half_even_le. nia. }
  assert (EP : Z.pos (Z.to_pos P) = P) by (apply Z2Pos.id; lia).
  exists (m0 # Z.to_pos P).
  assert (Bounds : (0 <= m0 # Z.to_pos P <= inject_Z (2 ^ B))%Q
                   /\ ((n # d) - half_ulp B <= m0 # Z.to_pos P
                       <= (n # d) + half_ulp B)%Q).
  { unfold half_ulp, Qle, Qminus, Qplus, Qopp, inject_Z; cbn [Qnum Qden].
    rewrite !Pos2Z.inj_mul, EP.
    change (Z.pos (2 ^ 53)) with (2 ^ 53).
    assert (Hd : 0 < Z.pos d) by lia.
    set (D := Z.pos d) in *.
    assert (A1 : 2 * (m0 * D - n * P) <= D) by lia.
    assert (A2 : - D <= 2 * (m0 * D - n * P)) by lia.
    assert (A3 : D * 2 ^ 52 <= D * (2 ^ B * P))
      by (apply Z.mul_le_mono_nonneg_l; lia).
    change (2 ^ 53) with (2 * 2 ^ 52).
    set (T := 2 ^ B) in *. set (K := 2 ^ 52) in *.
    assert (HK : 0 < K) by (unfold K; lia).
    repeat split; try lia; nia. }
  destruct Bounds as [Bv Ev].
  destruct (Z.eqb_spec m0 (2 ^ 53)) as [E53|N53].
  - assert (e < 0).
    { destruct (Z.eq_dec e 0) as [E0|]; [|lia]. exfalso.
      unfold P in Hm0. rewrite E0 in Hm0. change (2 ^ (- 0)) with 1 in Hm0.
      assert (2 ^ B <= 2 ^ 52) by (apply Z.pow_le_mono_r; lia).
      change (2 ^ 53) with (2 * 2 ^ 52) in E53. lia. }
    replace (1024 - 53 <? e + 1) with false by (symmetry; apply Z.ltb_ge; lia).
    change (2 ^ (53 - 1)) with (Z.pos 4503599627370496).
    split; [reflexivity|]. split; [|split; assumption].
    rewrite Qval_scaled by lia.
    assert (E2 : P = 2 * 2 ^ (- (e + 1))).
    { unfold P. replace (- e) with (Z.succ (- (e + 1))) by lia.
      rewrite Z.pow_succ_r by lia. reflexivity. }
    assert (HP1 : 0 < 2 ^ (- (e + 1))) by (apply Z.pow_pos_nonneg; lia).
    destruct s; unfold Qeq, Qopp; cbn [Qnum Qden];
      rewrite EP, Z2Pos.id by lia; rewrite E53, E2;
      change (2 ^ 53) with (2 * 4503599627370496); lia.
  - replace (1024 - 53 <? e) with false by (symmetry; apply Z.ltb_ge; lia).
    destruct m0 as [|m|m]; [| |lia].
    + split; [reflexivity|]. split; [|split; assumption].
      cbn [F64.Qval]. destruct s; unfold Qeq, Qopp; cbn [Qnum Qden]; lia.
    + split; [reflexivity|]. split; [|split; assumption].
      rewrite Qval_scaled by lia. fold P.
      destruct s; unfold Qeq, Qopp; cbn [Qnum Qden]; lia.
Qed.

Lemma half_ulp_bounds (B : Z) :
  0 <= B <= 52 -> (0 < half_ulp B <= 1 # 2)%Q.
Proof.
  intros HB.
  assert (0 < 2 ^ B) by (apply Z.pow_pos_nonneg; lia).
  assert (2 ^ B <= 2 ^ 52) by (apply Z.pow_le_mono_r; lia).
  unfold half_ulp, Qlt, Qle; cbn [Qnum Qden].
  change (Z.pos (2 ^ 53)) with (2 * 2 ^ 52). lia.
Qed.

Lemma of_Q_near (zs : bool) (q : Q) (B : Z) :
  0 <= B <= 52 ->
  (- inject_Z (2 ^ B) <= q <= inject_Z (2 ^ B))%Q ->
  near (half_ulp B) q (F64.of_Q zs q)
  /\ (- inject_Z (2 ^ B) <= F64.Qval (F64.of_Q zs q) <= inject_Z (2 ^ B))%Q.
Proof.
  intros HB [L U].
  pose proof (half_ulp_bounds B HB) as [E0 _].
  pose proof (pow2_Q_bounds B HB) as [T1 _].
  destruct q as [n d]. unfold F64.of_Q, near. cbn [Qnum Qden].
  destruct n as [|n|n].
  - cbn [F64.is_finite F64.Qval].
    assert (Z0 : (0 # d == 0)%Q) by reflexivity.
    repeat split; lra.
  - destruct (round_ratio_error false (Z.pos n) d B) as (v & F & V & Bv & Ev);
      [lia|assumption| |].
    { unfold Qle, inject_Z in U. cbn [Qnum Qden] in U. lia. }
    cbv iota in V. rewrite F, V. repeat split; lra.
  - destruct (round_ratio_error true (Z.pos n) d B) as (v & F & V & Bv & Ev);
      [lia|assumption| |].
    { unfold Qle, Qopp, inject_Z in L. cbn [Qnum Qden] in L. lia. }
    cbv iota in V. rewrite F, V.
    change (Z.neg n # d) with (- (Z.pos n # d))%Q.
    repeat split; lra.
Qed.

Lemma Qval_neg (x : F64.float) : (F64.Qval (F64.neg x) == - F64.Qval x)%Q.
Proof.
  destruct x as [s|s| |s m e]; try reflexivity.
  destruct e as [|p|p]; destruct s; cbn [F64.neg F64.Qval negb];
    unfold Qeq, Qopp; cbn [Qnum Qden]; lia.
Qed.

Lemma is_finite_neg (x : F64.float) :
  F64.is_finite (F64.neg x) = F64.is_finite x.
Proof. destruct x; reflexivity. Qed.

(** The sum and the difference of two finite floats, when at most
    [2^B] in absolute value, are rounded once. *)
Lemma add_near (x y : F64.float) (B : Z) :
  0 <= B <= 52 ->
  F64.is_finite x = true -> F64.is_finite y = true ->
  (- inject_Z (2 ^ B) <= F64.Qval x + F64.Qval y <= inject_Z (2 ^ B))%Q ->
  near (half_ulp B) (F64.Qval x + F64.Qval y) (F64.add x y)
  /\ (- inject_Z (2 ^ B) <= F64.Qval (F64.add x y) <= inject_Z (2 ^ B))%Q.
Proof.
  intros HB Fx Fy H.
  pose proof (half_ulp_bounds B HB) as [E0 _].
  destruct x as [sx|sx| |sx mx ex]; try discriminate;
    destruct y as [sy|sy| |sy my ey]; try discriminate; cbn [F64.add];
    try (apply of_Q_near; assumption).
  unfold near. cbn [F64.is_finite F64.Qval] in *. repeat split; lra.
Qed.

Lemma sub_near (x y : F64.float) (B : Z) :
  0 <= B <= 52 ->
  F64.is_finite x = true -> F64.is_finite y = true ->
  (- inject_Z (2 ^ B) <= F64.Qval x - F64.Qval y <= inject_Z (2 ^ B))%Q ->
  near (half_ulp B) (F64.Qval x - F64.Qval y) (F64.sub x y)
  /\ (- inject_Z (2 ^ B) <= F64.Qval (F64.sub x y) <= inject_Z (2 ^ B))%Q.
Proof.
  intros HB Fx Fy H. unfold F64.sub.
  pose proof (Qval_neg y) as N.
  destruct (add_near x (F64.neg y) B HB Fx) as [[F A] M].
  - now rewrite is_finite_neg.
  - lra.
  - unfold near. repeat split; try assumption; lra.
Qed.

(** *** The number of items and their exact sum *)

Lemma count_cons (x : F64.float) (l : list F64.float) :
  (count (x :: l) == 1 + count l)%Q.
Proof.
  unfold count, len. cbn [List.length]. rewrite Nat2Z.inj_succ.
  unfold Z.succ. rewrite inject_Z_plus. change (inject_Z 1) with 1%Q. lra.
Qed.

Lemma count_nonneg (l : list F64.float) : (0 <= count l)%Q.
Proof.
  unfold count, len. change 0%Q with (inject_Z 0). rewrite <- Zle_Qle. lia.
Qed.

Lemma bounded_cases (hi : Z) (x : F64.float) :
  bounded hi x ->
  F64.is_finite x = true
  /\ (- inject_Z hi <= F64.Qval x <= inject_Z hi)%Q.
Proof.
  intros [F A]. split; [exact F|].
  apply Qabs_Qle_condition in A. exact A.
Qed.

Lemma count_nil : count [] = 0%Q.
Proof. reflexivity. Qed.

Lemma total_nil : total [] = 0%Q.
Proof. reflexivity. Qed.

Lemma total_cons (x : F64.float) (l : list F64.float) :
  total (x :: l) = (F64.Qval x + total l)%Q.
Proof. reflexivity. Qed.

Lemma total_bounded (hi : Z) (l : list F64.float) :
  Forall (bounded hi) l ->
  (- (count l * inject_Z hi) <= total l <= count l * inject_Z hi)%Q.
Proof.
  induction 1 as [|x l Hx Hl IH].
  - rewrite count_nil, total_nil. lra.
  - apply bounded_cases in Hx. destruct Hx as [_ Hx].
    rewrite total_cons, count_cons. lra.
Qed.

(** *** The sum from left to right *)

Lemma fold_add_near (hi B : Z) (l : list F64.float) :
  0 <= B <= 52 -> Forall (bounded hi) l ->
  forall (acc : F64.float) (S E M : Q),
    F64.is_finite acc = true ->
    (S - E <= F64.Qval acc <= S + E)%Q ->
    (- M <= S <= M)%Q ->
    (M + E + count l * (inject_Z hi + half_ulp B) <= inject_Z (2 ^ B))%Q ->
    near (E + count l * half_ulp B) (S + total l)
         (List.fold_left F64.add l acc).
Proof.
  intros HB Hl.
  pose proof (half_ulp_bounds B HB) as [E0 _].
  induction Hl as [|x l Hx Hl IH]; intros acc S E M Fa Ha HS Hb.
  - unfold near. rewrite count_nil, total_nil. cbn [List.fold_left].
    split; [exact Fa|]. lra.
  - apply bounded_cases in Hx. destruct Hx as [Fx Hx].
    rewrite count_cons in Hb.
    pose proof (count_nonneg l) as Hc.
    assert (P1 : (0 <= count l * (inject_Z hi + half_ulp B))%Q)
      by (apply Qmult_le_0_compat; lra).
    destruct (add_near acc x B HB Fa Fx) as [[Ft At] _]; [lra|].
    cbn [List.fold_left].
    destruct (IH (F64.add acc x) (S + F64.Qval x)%Q (E + half_ulp B)%Q
                 (M + inject_Z hi)%Q Ft) as [Fr Ar]; try lra.
    unfold near. split; [exact Fr|].
    rewrite total_cons, count_cons. lra.
Qed.

(** *** The compensated sum *)

Lemma compensate_near (hi B : Z) (f c x : F64.float) (S E M C : Q) :
  0 <= B <= 52 -> bounded hi x ->
  F64.is_finite f = true ->
  (S - E <= F64.Qval f <= S + E)%Q ->
  (- M <= S <= M)%Q ->
  F64.is_finite c = true ->
  (- C <= F64.Qval c <= C)%Q ->
  (2 * (M + E) + C + 2 * inject_Z hi + 6 * half_ulp B <= inject_Z (2 ^ B))%Q ->
  let f' := fst (compensate (f, c) x) in
  let c' := snd (compensate (f, c) x) in
  F64.is_finite f' = true
  /\ ((S + F64.Qval x) - (E + half_ulp B) <= F64.Qval f'
      <= (S + F64.Qval x) + (E + half_ulp B))%Q
  /\ F64.is_finite c' = true
  /\ (- (C + 4 * half_ulp B) <= F64.Qval c' <= C + 4 * half_ulp B)%Q.
Proof.
  intros HB Hx Ff Hf HS Fc Hc Hb.
  pose proof (half_ulp_bounds B HB) as [E0 E1].
  pose proof (pow2_Q_bounds B HB) as [T1 _].
  apply bounded_cases in Hx. destruct Hx as [Fx Hx].
  unfold compensate. cbn [fst snd].
  destruct (add_near f x B HB Ff Fx) as [[Ft At] _]; [lra|].
  set (t := F64.add f x) in *.
  assert (L : exists lost : F64.float,
             (if F64.ge (F64.abs f) (F64.abs x)
              then F64.add (F64.sub f t) x
              else F64.add (F64.sub x t) f) = lost
             /\ F64.is_finite lost = true
             /\ (- (3 * half_ulp B) <= F64.Qval lost <= 3 * half_ulp B)%Q).
  { destruct (F64.ge (F64.abs f) (F64.abs x)).
    - destruct (sub_near f t B HB Ff Ft) as [[Fu Au] _]; [lra|].
      destruct (add_near (F64.sub f t) x B HB Fu Fx) as [[Fl Al] _]; [lra|].
      eexists. split; [reflexivity|]. split; [exact Fl|]. lra.
    - destruct (sub_near x t B HB Fx Ft) as [[Fu Au] _]; [lra|].
      destruct (add_near (F64.sub x t) f B HB Fu Ff) as [[Fl Al] _]; [lra|].
      eexists. split; [reflexivity|]. split; [exact Fl|]. lra. }
  destruct L as (lost & -> & Fl & Hl).
  destruct (add_near c lost B HB Fc Fl) as [[Fc' Ac'] _]; [lra|].
  repeat split; try assumption; lra.
Qed.

Lemma fold_compensate_near (hi B : Z) (l : list F64.float) :
  0 <= B <= 52 -> Forall (bounded hi) l ->
  forall (f c : F64.float) (S E M C : Q),
    F64.is_finite f = true ->
    (S - E <= F64.Qval f <= S + E)%Q ->
    (- M <= S <= M)%Q -> (0 <= M + E)%Q ->
    F64.is_finite c = true ->
    (- C <= F64.Qval c <= C)%Q ->
    (2 * (M + E) + C + count l * (2 * inject_Z hi + 6 * half_ulp B)
     <= inject_Z (2 ^ B))%Q ->
    let f' := fst (List.fold_left compensate l (f, c)) in
    let c' := snd (List.fold_left compensate l (f, c)) in
    near (E + count l * half_ulp B) (S + total l) f'
    /\ near (C + 4 * count l * half_ulp B) 0 c'.
Proof.
  intros HB Hl.
  pose proof (half_ulp_bounds B HB) as [E0 _].
  induction Hl as [|x l Hx Hl IH]; intros f c S E M C Ff Hf HS HME Fc Hc Hb.
  - unfold near. rewrite count_nil, total_nil. cbn [List.fold_left fst snd].
    repeat split; try assumption; lra.
  - pose proof (bounded_cases hi x Hx) as [Fx Bx].
    rewrite count_cons in Hb.
    pose proof (count_nonneg l) as Hn.
    assert (P1 : (0 <= count l * (2 * inject_Z hi + 6 * half_ulp B))%Q)
      by (apply Qmult_le_0_compat; lra).
    destruct (compensate_near hi B f c x S E M C HB Hx Ff Hf HS Fc Hc)
      as (Ff' & Hf' & Fc' & Hc'); [lra|].
    cbn [List.fold_left].
    destruct (compensate (f, c) x) as [f1 c1]. cbn [fst snd] in *.
    destruct (IH f1 c1 (S + F64.Qval x)%Q (E + half_ulp B)%Q
                 (M + inject_Z hi)%Q (C + 4 * half_ulp B)%Q Ff')
      as [[F1 A1] [F2 A2]]; try assumption; try lra.
    unfold near. rewrite total_cons, count_cons.
    repeat split; try assumption; lra.
Qed.

(** *** [sum], whichever way the interpreter adds *)

Lemma budget_Q (hi B : Z) (l : list F64.float) :
  8 * hi * len l <= 2 ^ B ->
  (8 * inject_Z hi * count l <= inject_Z (2 ^ B))%Q.
Proof.
  intros H. unfold count. rewrite Zle_Qle, !inject_Z_mult in H. exact H.
Qed.

Lemma hi_Q (hi : Z) : 0 < hi -> (1 <= inject_Z hi)%Q.
Proof. intros H. change 1%Q with (inject_Z 1). rewrite <- Zle_Qle. lia. Qed.

Lemma sum_near {py : interpreter} (hi B : Z) (l : list F64.float) :
  0 <= B <= 52 -> 0 < hi -> Forall (bounded hi) l ->
  8 * hi * len l <= 2 ^ B ->
  near (5 * count l * half_ulp B) (total l) (sum l).
Proof.
  intros HB Hhi Hl Hb.
  pose proof (half_ulp_bounds B HB) as [E0 E1].
  pose proof (pow2_Q_bounds B HB) as [T1 _].
  apply budget_Q in Hb. apply hi_Q in Hhi.
  pose proof (count_nonneg l) as Hn.
  assert (P1 : (0 <= (inject_Z hi - 1) * count l)%Q)
    by (apply Qmult_le_0_compat; lra).
  assert (P2 : (0 <= count l * half_ulp B)%Q)
    by (apply Qmult_le_0_compat; lra).
  assert (P3 : (0 <= count l * ((1 # 2) - half_ulp B))%Q)
    by (apply Qmult_le_0_compat; lra).
  unfold sum. destruct py.
  - unfold sum_left.
    destruct (fold_add_near hi B l HB Hl (F64.zero false) 0 0 0) as [F A];
      try reflexivity; try (cbn [F64.zero F64.Qval]; lra).
    unfold near. split; [exact F|]. lra.
  - unfold sum_compensated. destruct l as [|x r].
    { unfold near. rewrite count_nil, total_nil. cbn. split; [reflexivity|]. lra. }
    inversion Hl as [|? ? Hx Hr]; subst.
    pose proof (bounded_cases hi x Hx) as [Fx Bx].
    pose proof (total_bounded hi r Hr) as Tr.
    rewrite count_cons in *. rewrite total_cons.
    pose proof (count_nonneg r) as Hc.
    assert (P4 : (0 <= count r * half_ulp B)%Q)
      by (apply Qmult_le_0_compat; lra).
    assert (P5 : (0 <= count r * inject_Z hi)%Q)
      by (apply Qmult_le_0_compat; lra).
    destruct (add_near (F64.zero false) x B HB eq_refl Fx) as [[F0 A0] _];
      [cbn [F64.zero F64.Qval]; lra|].
    cbn [F64.zero F64.Qval] in A0.
    pose proof (fold_compensate_near hi B r HB Hr
                  (F64.add (F64.zero false) x) (F64.zero false)
                  (F64.Qval x) (half_ulp B) (inject_Z hi) 0 F0) as G.
    cbv zeta in G.
    destruct (List.fold_left compensate r
                (F64.add (F64.zero false) x, F64.zero false)) as [f c].
    cbn [fst snd] in G.
    destruct G as [[Ff Af] [Fc Ac]];
      try reflexivity; try (cbn [F64.zero F64.Qval]; lra).
    rewrite Fc, andb_true_r.
    unfold near. rewrite count_cons. destruct (F64.nonzero c).
    + destruct (add_near f c B HB Ff Fc) as [[Fa Aa] _]; [lra|].
      split; [exact Fa|]. lra.
    + split; [exact Ff|]. lra.
Qed.

(** *** The quotient by the number of items *)

Lemma mean_near {py : interpreter} (hi B : Z) (l : list F64.float) :
  0 <= B <= 52 -> 0 < hi -> l <> [] -> Forall (bounded hi) l ->
  8 * hi * len l <= 2 ^ B ->
  near (6 * half_ulp B) (arithmetic_mean l)
       (F64.div (sum l) (F64.of_Q false (len l # 1)))
  /\ (- inject_Z hi <= arithmetic_mean l <= inject_Z hi)%Q.
Proof.
  intros HB Hhi Hne Hl Hb.
  pose proof (half_ulp_bounds B HB) as [E0 E1].
  pose proof (pow2_Q_bounds B HB) as [T1 T2].
  destruct (sum_near hi B l HB Hhi Hl Hb) as [Fs As].
  pose proof (total_bounded hi l Hl) as Tl.
  assert (Hn : 0 < len l) by (unfold len; destruct l; [now elim Hne|cbn; lia]).
  assert (Hn53 : Z.abs (len l) < 2 ^ 53).
  { assert (2 ^ B <= 2 ^ 52) by (apply Z.pow_le_mono_r; lia).
    change (2 ^ 53) with (2 * 2 ^ 52). nia. }
  destruct (IntFacts.of_int_round_trip (len l) Hn53) as (f & Hf & _ & _).
  destruct (IntFacts.of_int_value (len l) f Hn53 Hf) as [Ff Vf].
  unfold F64.of_int in Hf.
  destruct (F64.is_finite (F64.of_Q false (len l # 1))); [|discriminate].
  injection Hf as Hf. rewrite Hf. clear Hf.
  fold (inject_Z (len l)) in Vf. fold (count l) in Vf.
  assert (Hc : (1 <= count l)%Q).
  { unfold count. change 1%Q with (inject_Z 1). rewrite <- Zle_Qle. lia. }
  apply budget_Q in Hb. apply hi_Q in Hhi.
  assert (P1 : (0 <= (inject_Z hi - 1) * count l)%Q)
    by (apply Qmult_le_0_compat; lra).
  assert (Cn : ~ (count l == 0)%Q) by lra.
  assert (Vn : ~ (F64.Qval f == 0)%Q) by lra.
  unfold arithmetic_mean. fold (count l).
  set (a := (total l / count l)%Q).
  set (b := (F64.Qval (sum l) / F64.Qval f)%Q).
  assert (Ha : (count l * a == total l)%Q) by (apply Qmult_div_r; exact Cn).
  assert (Hb' : (count l * b == F64.Qval (sum l))%Q).
  { rewrite <- Vf. apply Qmult_div_r. exact Vn. }
  assert (A1 : (a - 5 * half_ulp B <= b)%Q).
  { apply (Qmult_le_r _ _ (count l)); [lra|]. lra. }
  assert (A2 : (b <= a + 5 * half_ulp B)%Q).
  { apply (Qmult_le_r _ _ (count l)); [lra|]. lra. }
  assert (A3 : (- inject_Z hi <= a)%Q).
  { apply (Qmult_le_r _ _ (count l)); [lra|]. lra. }
  assert (A4 : (a <= inject_Z hi)%Q).
  { apply (Qmult_le_r _ _ (count l)); [lra|]. lra. }
  split; [|lra].
  assert (D : exists zs, F64.div (sum l) f = F64.of_Q zs b).
  { unfold b. destruct f as [sf|sf| |sf mf ef]; try discriminate.
    - exfalso. apply Vn. reflexivity.
    - destruct (sum l) as [sx|sx| |sx mx ex]; try discriminate;
        cbn [F64.div]; eexists; reflexivity. }
  destruct D as (zs & ->).
  assert (P2 : (0 <= inject_Z hi * (count l - 1))%Q)
    by (apply Qmult_le_0_compat; lra).
  destruct (of_Q_near zs b B HB) as [[Fm Am] _]; [lra|].
  unfold near. split; [exact Fm|]. lra.
Qed.

(** *** [round(x, 1)] *)

Lemma Qnum_sign (s : bool) (m : positive) (e : Z) :
  if s then Qnum (F64.Qval (S754_finite s m e)) < 0
  else 0 < Qnum (F64.Qval (S754_finite s m e)).
Proof.
  destruct e as [|p|p]; destruct s; cbn [F64.Qval Qnum]; lia.
Qed.

(** [round(x, 1)] of a finite float is the float nearest to a number
    [k / 10] with one decimal, [k] being the integer nearest to ten
    times [x]. *)
Lemma round_1_decimal (x : F64.float) :
  F64.is_finite x = true ->
  exists k : Z,
    nearest_even (10 * F64.Qval x) k
    /\ F64.round_1 x = F64.of_Q (F64.sign_bit x) (k # 10).
Proof.
  intros Fx. destruct x as [s|s| |s m e]; try discriminate.
  - exists 0. split; [|reflexivity].
    split; [vm_compute; discriminate|intros _; reflexivity].
  - pose proof (Qnum_sign s m e) as Hs.
    cbn [F64.round_1 F64.sign_bit].
    set (q := F64.Qval (S754_finite s m e)) in *.
    exists (F64.div_half_even (10 * Qnum q) (Z.pos (Qden q))).
    split.
    + destruct q as [n d]. cbn [Qnum Qden].
      assert (E : (10 * (n # d) == (10 * n) # d)%Q).
      { unfold Qeq, Qmult. cbn [Qnum Qden]. rewrite ?Pos2Z.inj_mul. lia. }
      pose proof (FloatFacts.div_half_even_nearest ((10 * n) # d)) as H.
      cbn [Qnum Qden] in H. unfold nearest_even in *. now rewrite E.
    + set (k := F64.div_half_even (10 * Qnum q) (Z.pos (Qden q))).
      assert (Hk : if s then k <= 0 else 0 <= k).
      { destruct s; [apply div_half_even_le|apply div_half_even_ge]; lia. }
      unfold F64.of_Q. cbn [Qnum Qden].
      destruct k as [|p|p]; destruct s; try lia; reflexivity.
Qed.

Lemma tenth (k : Z) : ((k # 10) * 10 == inject_Z k)%Q.
Proof. unfold Qeq, Qmult, inject_Z. cbn [Qnum Qden]. lia. Qed.

(** The average of the script, for accuracies that are finite and at
    most [hi] in absolute value: a float nearest to a number with one
    decimal that is within a twentieth, and six roundings, of the exact
    mean. *)
Lemma round_mean_near {py : interpreter} (hi B : Z) (l : list F64.float) :
  0 <= B <= 52 -> 0 < hi -> l <> [] -> Forall (bounded hi) l ->
  8 * hi * len l <= 2 ^ B ->
  exists (k : Z) (zs : bool),
    F64.round_1 (F64.div (sum l) (F64.of_Q false (len l # 1)))
    = F64.of_Q zs (k # 10)
    /\ (arithmetic_mean l - ((1 # 20) + 6 * half_ulp B) <= k # 10
        <= arithmetic_mean l + ((1 # 20) + 6 * half_ulp B))%Q.
Proof.
  intros HB Hhi Hne Hl Hb.
  destruct (mean_near hi B l HB Hhi Hne Hl Hb) as [[Fm Am] _].
  destruct (round_1_decimal _ Fm) as (k & [Nk _] & E).
  exists k, (F64.sign_bit (F64.div (sum l) (F64.of_Q false (len l # 1)))).
  split; [exact E|].
  apply Qabs_Qle_condition in Nk. pose proof (tenth k) as Tk. lra.
Qed.

Lemma within_bounded (hi : Z) (x : F64.float) : within hi x -> bounded hi x.
Proof.
  intros [F [A B]]. split; [exact F|].
  apply Qabs_Qle_condition. change (hi # 1) with (inject_Z hi) in B.
  split; lra.
Qed.

Lemma total_nonneg (hi : Z) (l : list F64.float) :
  Forall (within hi) l -> (0 <= total l)%Q.
Proof.
  induction 1 as [|x l [_ [Hx _]] Hl IH].
  - rewrite total_nil. lra.
  - rewrite total_cons. lra.
Qed.

Section WithUnicode.
Context {ucd : PyFloat.UnicodeData} {py : interpreter}.

(** C8, as the code has it.  For the empty list of records there are no
    statistics.  For any other list there are, and the average accuracy
    is the integer 0 when no accuracy was collected.  Otherwise it is
    computed in binary64 arithmetic, and it is not always the arithmetic
    mean rounded to one decimal; when the accuracies are finite, at most
    [hi] in absolute value and not too many ([8 * hi] times their number
    is at most [2^B], with [B] at most 52), it is the float nearest to a
    number [k / 10] with one decimal that is within a twentieth of the
    arithmetic mean, up to six roundings of numbers below [2^B]; this
    holds whichever way the interpreter adds. *)
Theorem avg_acc_near_mean (items : list value) (username : pystr) (hi B : Z) :
  let accs := coerced_values (lit "acc") items in
  (items = [] ->
   snd (fetch_stats (serves (VList items)) username) = Return None)
  /\ (items <> [] ->
      exists stats : Stats,
        snd (fetch_stats (serves (VList items)) username)
        = Return (Some stats)
        /\ (accs = [] -> avg_acc stats = Int 0)
        /\ (accs <> [] ->
            Forall (bounded hi) accs ->
            0 < hi -> 0 <= B <= 52 -> 8 * hi * len accs <= 2 ^ B ->
            exists (k : Z) (zs : bool),
              avg_acc stats = Float (F64.of_Q zs (k # 10))
              /\ (Qabs ((k # 10) - arithmetic_mean accs)
                  <= (1 # 20) + 6 * half_ulp B)%Q)).
Proof.
  intros accs. split.
  - intros ->. rewrite FetchFacts.fetch_stats_serves. reflexivity.
  - intros Hne. destruct items as [|item items]; [now elim Hne|].
    rewrite FetchFacts.fetch_stats_serves, FetchFacts.stats_of_nonempty.
    cbn [snd]. fold accs. eexists. split; [reflexivity|]. cbn [avg_acc].
    split.
    + intros ->. reflexivity.
    + intros Ha Hl Hhi HB Hb.
      destruct (round_mean_near hi B accs HB Hhi Ha Hl Hb) as (k & zs & E & A).
      exists k, zs. split.
      * destruct accs as [|a ar]; [now elim Ha|]. now rewrite E.
      * apply Qabs_Qle_condition. split; lra.
Qed.

(** X15. The average accuracy stays within the bounds of the data,
    whichever way the interpreter adds: when every coerced accuracy is a
    finite number between 0 and the integer [hi], and [8 * hi] times
    their number is at most [2^46], the average that [fetch_stats]
    returns is between 0 and [hi] as well, in spite of the roundings of
    the sum, of the quotient and of [round]. *)
Theorem avg_acc_within (items : list value) (hi : Z) (username : pystr) :
  items <> [] ->
  0 < hi ->
  8 * hi * len (coerced_values (lit "acc") items) <= 2 ^ 46 ->
  Forall (within hi) (coerced_values (lit "acc") items) ->
  exists stats : Stats,
    snd (fetch_stats (serves (VList items)) username) = Return (Some stats)
    /\ match avg_acc stats with
       | Int z => z = 0 /\ coerced_values (lit "acc") items = []
       | Float y => within hi y /\ coerced_values (lit "acc") items <> []
       end.
Proof.
  intros Hne Hhi Hlen Hl.
  destruct items as [|item items]; [now elim Hne|].
  rewrite FetchFacts.fetch_stats_serves, FetchFacts.stats_of_nonempty. cbn [snd].
  eexists. split; [reflexivity|]. cbn [avg_acc].
  set (accs := coerced_values (lit "acc") (item :: items)) in *.
  destruct accs as [|a ar] eqn:E; [split; reflexivity|].
  split; [|discriminate]. rewrite <- E in *.
  assert (Ha : accs <> []) by (rewrite E; discriminate).
  assert (Hb : Forall (bounded hi) accs)
    by (eapply Forall_impl; [|exact Hl]; apply within_bounded).
  assert (HB : 0 <= 46 <= 52) by lia.
  destruct (round_mean_near hi 46 accs HB Hhi Ha Hb Hlen) as (k & zs & -> & A).
  destruct (mean_near hi 46 accs HB Hhi Ha Hb Hlen) as [_ [_ M1]].
  assert (M0 : (0 <= arithmetic_mean accs)%Q).
  { pose proof (total_nonneg hi accs Hl) as T0.
    unfold arithmetic_mean. fold (count accs).
    assert (Hc : (1 <= count accs)%Q).
    { unfold count, len. change 1%Q with (inject_Z 1). rewrite <- Zle_Qle.
      destruct accs; [now elim Ha|cbn [List.length]; lia]. }
    apply Qle_shift_div_l; lra. }
  assert (Hu : (half_ulp 46 == 1 # 128)%Q) by reflexivity.
  pose proof (tenth k) as Tk.
  assert (K0 : 0 <= k).
  { assert (Q0 : (inject_Z (-1) < inject_Z k)%Q)
      by (change (inject_Z (-1)) with (- (1))%Q; lra).
    rewrite <- Zlt_Qlt in Q0. lia. }
  assert (K1 : k <= 10 * hi).
  { assert (Q1 : (inject_Z k < inject_Z (10 * hi + 1))%Q).
    { rewrite inject_Z_plus, inject_Z_mult.
      change (inject_Z 10) with 10%Q. change (inject_Z 1) with 1%Q. lra. }
    rewrite <- Zlt_Qlt in Q1. lia. }
  assert (H53 : hi < 2 ^ 53).
  { assert (1 <= len accs)
      by (unfold len; destruct accs; [now elim Ha|cbn [List.length]; lia]).
    change (2 ^ 46) with 70368744177664 in Hlen.
    change (2 ^ 53) with 9007199254740992. nia. }
  apply of_Q_within; [lia|].
  unfold Qle. cbn [Qnum Qden]. lia.
Qed.

(** X16. The best speed stays within the bounds of the data: when
    every coerced speed is a finite number between 0 and the integer
    [hi], the best speed is between 0 and [hi]. *)
Theorem best_wpm_within (items : list value) (hi : Z) :
  items <> [] ->
  0 <= hi ->
  Forall (within hi) (coerced_values (lit "wpm") items) ->
  exists b : Z, best_of items = Some b /\ 0 <= b <= hi.
Proof.
  intros Hne Hhi Hl.
  destruct (coerced_values (lit "wpm") items) as [|w wr] eqn:E.
  - exists 0. split; [|lia]. unfold best_of.
    destruct items as [|i items]; [now elim Hne|].
    rewrite FetchFacts.stats_of_nonempty. cbn [best_wpm]. now rewrite E.
  - rewrite (StatsFacts.best_of_coerced _ _ _ E).
    assert (Hnan : Forall (fun x => F64.is_nan x = false) (w :: wr)).
    { eapply Forall_impl; [|exact Hl]. intros x [Hx _]. now destruct x. }
    destruct (FloatFacts.fold_max_spec wr w Hnan) as [Hin _].
    set (m := List.fold_left _ wr w) in *.
    rewrite Forall_forall in Hl. destruct (Hl m Hin) as [Fm [M0 M1]].
    assert (R : F64.round_int m
                = Some (F64.div_half_even (Qnum (F64.Qval m))
                                          (Z.pos (Qden (F64.Qval m)))))
      by (destruct m; try discriminate; reflexivity).
    rewrite R. eexists. split; [reflexivity|].
    destruct (F64.Qval m) as [n d]. unfold Qle in M0, M1.
    cbn [Qnum Qden] in *.
    split; [apply div_half_even_ge; lia|apply div_half_even_le; lia].
Qed.

End WithUnicode.

(** C8, as it is stated, fails.  The accuracies 0.05 and 0.25 have an
    arithmetic mean just above 0.15, which rounds to 0.2, and the script
    returns 0.1, with either [sum]; two accuracies of 1e308 have the
    mean 1e308 and the script returns an infinity; and for the empty list
    of records there are no statistics, so no average. *)
Lemma avg_acc_is_not_the_rounded_mean :
  @coerced_values PyFloat.ucd_ascii (lit "acc")
    [VDict [(lit "acc", VFloat (dec 5 (-2)))];
     VDict [(lit "acc", VFloat (dec 25 (-2)))]]
  = [dec 5 (-2); dec 25 (-2)]
  /\ nearest_even (10 * arithmetic_mean [dec 5 (-2); dec 25 (-2)]) 2
  /\ List.map (fun py =>
       snd (@fetch_stats PyFloat.ucd_ascii py
              (serves (VList [VDict [(lit "acc", VFloat (dec 5 (-2)))];
                              VDict [(lit "acc", VFloat (dec 25 (-2)))]]))
              (lit "Luke3512")))
       [Before_3_12; From_3_12]
     = [Return (Some {| best_wpm := 0; avg_acc := Float (dec 1 (-1)) |});
        Return (Some {| best_wpm := 0; avg_acc := Float (dec 1 (-1)) |})]
  /\ dec 1 (-1) <> F64.of_Q false (2 # 10)
  /\ (arithmetic_mean [dec 1 308; dec 1 308] == F64.Qval (dec 1 308))%Q
  /\ List.map (fun py =>
       snd (@fetch_stats PyFloat.ucd_ascii py
              (serves (VList [VDict [(lit "acc", VFloat (dec 1 308))];
                              VDict [(lit "acc", VFloat (dec 1 308))]]))
              (lit "Luke3512")))
       [Before_3_12; From_3_12]
     = [Return (Some {| best_wpm := 0; avg_acc := Float (F64.inf false) |});
        Return (Some {| best_wpm := 0; avg_acc := Float (F64.inf false) |})]
  /\ List.map (fun py =>
       snd (@fetch_stats PyFloat.ucd_ascii py (serves (VList []))
              (lit "Luke3512")))
       [Before_3_12; From_3_12]
     = [Return None; Return None].
Proof.
  split; [vm_compute; reflexivity|].
  split; [split; [vm_compute; discriminate|intros _; reflexivity]|].
  split; [vm_compute; reflexivity|].
  split; [vm_compute; discriminate|].
  split; [vm_compute; reflexivity|].
  split; vm_compute; reflexivity.
Qed.

Lemma avg_acc_near_mean_witness :
  exists (stats : Stats) (k : Z) (zs : bool),
    snd (@fetch_stats PyFloat.ucd_ascii From_3_12 (serves (VList scenario_1))
           (lit "Luke3512"))
    = Return (Some stats)
    /\ avg_acc stats = Float (F64.of_Q zs (k # 10))
    /\ (Qabs ((k # 10)
              - arithmetic_mean
                  (@coerced_values PyFloat.ucd_ascii (lit "acc") scenario_1))
        <= (1 # 20) + 6 * half_ulp 11)%Q.
Proof.
  destruct (proj2 (@avg_acc_near_mean PyFloat.ucd_ascii From_3_12 scenario_1
                     (lit "Luke3512") 100 11))
    as (stats & Hs & _ & H); [discriminate|].
  destruct H as (k & zs & Hk & Hm).
  - vm_compute. discriminate.
  - vm_compute. repeat constructor; discriminate.
  - lia.
  - lia.
  - vm_compute. discriminate.
  - exists stats, k, zs. auto.
Defined.

Lemma avg_acc_within_witness :
  exists stats : Stats,
    snd (@fetch_stats PyFloat.ucd_ascii From_3_12 (serves (VList scenario_1))
           (lit "Luke3512"))
    = Return (Some stats)
    /\ match avg_acc stats with
       | Int z => z = 0 /\ @coerced_values PyFloat.ucd_ascii (lit "acc") scenario_1 = []
       | Float y => within 100 y
                    /\ @coerced_values PyFloat.ucd_ascii (lit "acc") scenario_1 <> []
       end.
Proof.
  apply (@avg_acc_within PyFloat.ucd_ascii From_3_12 scenario_1 100 (lit "Luke3512")).
  - discriminate.
  - lia.
  - vm_compute. discriminate.
  - vm_compute. repeat constructor; discriminate.
Defined.

Lemma best_wpm_within_witness :
  exists b : Z, @best_of PyFloat.ucd_ascii Before_3_12 scenario_1 = Some b
                /\ 0 <= b <= 300.
Proof.
  apply (@best_wpm_within PyFloat.ucd_ascii Before_3_12 scenario_1 300).
  - discriminate.
  - lia.
  - vm_compute. repeat constructor; discriminate.
Defined.

End RangeFacts.

(** ** The label and the markup of [main] *)

Module LabelFacts.

Import Floats.SpecFloat PyStr Py Script Spec Entry.

(** *** [html.escape] *)

Lemma escape_cons (c : codepoint) (s : pystr) :
  escape (c :: s) = escape_char c ++ escape s.
Proof. now rewrite !XmlFacts.escape_flat_map. Qed.

Lemma escape_char_plain (c : codepoint) :
  needs_escape c = false -> escape_char c = [c].
Proof.
  unfold needs_escape, escape_char. intros H.
  apply orb_false_elim in H. destruct H as [H H39].
  apply orb_false_elim in H. destruct H as [H H34].
  apply orb_false_elim in H. destruct H as [H H62].
  apply orb_false_elim in H. destruct H as [H38 H60].
  now rewrite H38, H60, H62, H34, H39.
Qed.

Lemma escape_char_special (c : codepoint) :
  needs_escape c = true -> (4 <= List.length (escape_char c))%nat.
Proof.
  unfold needs_escape, escape_char. intros H.
  destruct (c =? 38)%N; [cbn; lia|].
  destruct (c =? 60)%N; [cbn; lia|].
  destruct (c =? 62)%N; [cbn; lia|].
  destruct (c =? 34)%N; [cbn; lia|].
  destruct (c =? 39)%N; [cbn; lia|]. discriminate.
Qed.

Lemma escape_length (s : pystr) : (List.length s <= List.length (escape s))%nat.
Proof.
  induction s as [|c s IH]; [cbn; lia|].
  rewrite escape_cons, length_app. cbn [List.length].
  destruct (needs_escape c) eqn:E.
  - pose proof (escape_char_special c E). lia.
  - rewrite (escape_char_plain c E). cbn. lia.
Qed.

(** A string without such a character is left as it is, and a
    string that is left as it is has none. *)
Lemma escape_unchanged (s : pystr) :
  Forall (fun c => needs_escape c = false) s -> escape s = s.
Proof.
  induction 1 as [|c s Hc Hs IH]; [reflexivity|].
  now rewrite escape_cons, (escape_char_plain c Hc), IH.
Qed.

Lemma escape_changes (s : pystr) :
  escape s = s -> Forall (fun c => needs_escape c = false) s.
Proof.
  induction s as [|c s IH]; [constructor|].
  rewrite escape_cons. intros H.
  destruct (needs_escape c) eqn:E.
  - exfalso. apply (f_equal (@List.length _)) in H.
    rewrite length_app in H. cbn [List.length] in H.
    pose proof (escape_char_special c E). pose proof (escape_length s). lia.
  - rewrite (escape_char_plain c E) in H. injection H as H.
    constructor; [exact E|now apply IH].
Qed.

(** X8. The text that [render_badge] puts into the markup, the escaped
    label, is the label itself exactly when the label has none of the
    five characters ampersand, less-than, greater-than, quotation mark
    and apostrophe; otherwise it is longer. *)
Theorem escape_identity_iff (s : pystr) :
  (escape s = s <-> Forall (fun c => needs_escape c = false) s)
  /\ (List.length s <= List.length (escape s))%nat.
Proof.
  split; [split; [apply escape_changes|apply escape_unchanged]|].
  apply escape_length.
Qed.

(** *** The label that [main] builds *)

Lemma plain_value_text (stats : option Stats) :
  Forall (fun c => plain c = true) (value_text stats).
Proof.
  destruct stats as [st|]; cbn [value_text]; [|repeat constructor].
  apply XmlFacts.plain_app; [apply XmlFacts.plain_of_int|].
  apply XmlFacts.plain_app; [repeat constructor|].
  apply XmlFacts.plain_app; [repeat constructor|].
  apply XmlFacts.plain_app; [repeat constructor|].
  apply XmlFacts.plain_app; [|repeat constructor].
  destruct (avg_acc st); [apply XmlFacts.plain_of_int|apply XmlFacts.plain_repr].
Qed.

Lemma plain_is_char (c : codepoint) : plain c = true -> Xml.is_char c = true.
Proof. unfold plain. intros H. now apply andb_prop in H. Qed.

Lemma plain_no_escape (c : codepoint) : plain c = true -> needs_escape c = false.
Proof.
  unfold plain, needs_escape. intros H. apply andb_prop in H. destruct H as [_ H].
  apply negb_true_iff in H.
  apply orb_false_elim in H. destruct H as [H _].
  apply orb_false_elim in H. destruct H as [H H39].
  apply orb_false_elim in H. destruct H as [H H34].
  apply orb_false_elim in H. destruct H as [H H62].
  apply orb_false_elim in H. destruct H as [H60 H38].
  now rewrite H38, H60, H62, H34, H39.
Qed.

Lemma escape_value_text (stats : option Stats) :
  escape (value_text stats) = value_text stats.
Proof.
  apply escape_unchanged.
  eapply Forall_impl; [|apply plain_value_text]. apply plain_no_escape.
Qed.

Lemma render_label_well_formed (stats : option Stats) :
  exists markup, render_badge (value_text stats) = Return markup
                 /\ Xml.well_formed markup = true.
Proof.
  rewrite BadgeFacts.render_badge_fill. eexists. split; [reflexivity|].
  assert (Hc : Forall (fun c => Xml.is_char c = true) (value_text stats)).
  { eapply Forall_impl; [|apply plain_value_text]. apply plain_is_char. }
  apply XmlFacts.filled_badge_accepted;
    [ apply XmlFacts.passes_plain, XmlFacts.plain_of_int
    | apply XmlFacts.passes_plain, XmlFacts.plain_of_int
    | apply XmlFacts.passes_plain, XmlFacts.plain_of_int
    | apply XmlFacts.passes_plain; repeat constructor
    | apply XmlFacts.passes_plain, XmlFacts.plain_repr
    | apply XmlFacts.passes_escape; intros _; exact Hc
    | apply XmlFacts.passes_escape; intros _; exact Hc ].
Qed.

Lemma of_int_nonempty (z : Z) : (1 <= List.length (of_int z))%nat.
Proof.
  unfold of_int, NilZero.string_of_int, NilZero.string_of_uint.
  destruct (Z.to_int z) as [d|d]; destruct d; cbn; lia.
Qed.

(** X9. The width of the right segment for a label that [main] builds is
    [7 * len + 20]: the floor 60 of [render_badge] is never reached.  It
    is 69 for the label of absent statistics and at least 90 for the label
    of statistics. *)
Theorem label_width (stats : option Stats) :
  right_width (value_text stats) = 7 * len (value_text stats) + 20
  /\ match stats with
     | None => right_width (value_text stats) = 69
     | Some _ => 90 <= right_width (value_text stats)
     end.
Proof.
  assert (H : 7 <= len (value_text stats)
              /\ match stats with None => len (value_text stats) = 7
                 | Some _ => 10 <= len (value_text stats) end).
  { destruct stats as [st|]; [|split; vm_compute; congruence].
    unfold len, value_text. rewrite !length_app.
    pose proof (of_int_nonempty (best_wpm st)). cbn [separator List.length].
    change (List.length (lit " WPM ")) with 5%nat.
    change (List.length (lit " ")) with 1%nat.
    change (List.length (lit "%")) with 1%nat. lia. }
  unfold right_width. destruct H as [H7 H]. split; [lia|].
  destruct stats; lia.
Qed.

Section WithUnicode.
Context {ucd : PyFloat.UnicodeData} {py : interpreter}.

(** X10. Whatever the network does and whatever the user name is, [main]
    gets a badge: [fetch_stats] and [render_badge] return, the markup is
    a well-formed XML document, and the label stands in it as it is,
    since escaping does not change it. *)
Theorem main_badge_well_formed (net : pystr -> get_outcome) (username : pystr) :
  exists (stats : option Stats) (markup : pystr),
    snd (fetch_stats net username) = Return stats
    /\ snd (Script.main net username) = Return markup
    /\ Xml.well_formed markup = true
    /\ escape (value_text stats) = value_text stats.
Proof.
  destruct (FetchFacts.fetch_stats_returns net username) as (stats & Hs).
  destruct (render_label_well_formed stats) as (markup & Hm & Hw).
  exists stats, markup. split; [exact Hs|].
  split; [|split; [exact Hw|apply escape_value_text]].
  unfold Script.main. destruct (fetch_stats net username) as [ev r].
  cbn [snd] in *. subst r. exact Hm.
Qed.

End WithUnicode.

Lemma escape_identity_iff_witness :
  escape (lit "120 WPM") = lit "120 WPM".
Proof.
  apply (proj2 (proj1 (escape_identity_iff (lit "120 WPM")))).
  vm_compute. repeat constructor.
Defined.

End LabelFacts.

(** ** The directory, the file and the confirmation *)

Module EntryFacts.

Import Floats.SpecFloat PyStr Py Script Spec Entry.

(** *** [os.path.dirname] *)

Lemma drop_while_all (p : codepoint -> bool) (a b : pystr) :
  Forall (fun c => p c = true) a ->
  PyFloat.drop_while p (a ++ b) = PyFloat.drop_while p b.
Proof.
  induction 1 as [|c a Hc Ha IH]; [reflexivity|].
  cbn [app PyFloat.drop_while]. now rewrite Hc.
Qed.

Lemma drop_while_stop (p : codepoint -> bool) (c : codepoint) (b : pystr) :
  p c = false -> PyFloat.drop_while p (c :: b) = c :: b.
Proof. intros H. cbn. now rewrite H. Qed.

Lemma up_to_last_slash_none (p : pystr) :
  Forall (fun c => c <> 47%N) p -> up_to_last_slash p = [].
Proof.
  intros H. unfold up_to_last_slash.
  rewrite <- (app_nil_r (List.rev p)), drop_while_all; [reflexivity|].
  apply Forall_rev. eapply Forall_impl; [|exact H].
  intros c Hc. cbn. apply negb_true_iff. now apply N.eqb_neq.
Qed.

Lemma up_to_last_slash_split (d f : pystr) :
  Forall (fun c => c <> 47%N) f ->
  up_to_last_slash (d ++ 47%N :: f) = d ++ [47%N].
Proof.
  intros H. unfold up_to_last_slash.
  rewrite rev_app_distr. cbn [List.rev]. rewrite <- app_assoc. cbn [app].
  rewrite drop_while_all.
  - rewrite drop_while_stop by reflexivity. cbn [List.rev].
    now rewrite rev_involutive.
  - apply Forall_rev. eapply Forall_impl; [|exact H].
    intros c Hc. cbn. apply negb_true_iff. now apply N.eqb_neq.
Qed.

(** X11. The directory that [main] creates, for an output path whose
    last component [f] has no slash: the current directory [.] when the
    path is [f] alone; the part before the last slash when that part does
    not end in a slash; and the root for a file directly under it. *)
Theorem dirname_spec (d f : pystr) (c : codepoint) :
  c <> 47%N ->
  Forall (fun x => x <> 47%N) f ->
  dirname f = [] /\ output_directory f = lit "."
  /\ dirname ((d ++ [c]) ++ 47%N :: f) = d ++ [c]
  /\ output_directory ((d ++ [c]) ++ 47%N :: f) = d ++ [c]
  /\ dirname (47%N :: f) = [47%N].
Proof.
  intros Hc Hf.
  assert (A : dirname f = []).
  { unfold dirname. now rewrite up_to_last_slash_none. }
  assert (B : dirname ((d ++ [c]) ++ 47%N :: f) = d ++ [c]).
  { unfold dirname. rewrite up_to_last_slash_split by assumption.
    destruct ((d ++ [c]) ++ [47%N]) as [|x r] eqn:E.
    { destruct d; discriminate. }
    rewrite <- E.
    replace (List.forallb (fun x => (x =? 47)%N) ((d ++ [c]) ++ [47%N])) with false.
    - unfold rstrip_slashes. rewrite rev_app_distr. cbn [List.rev app].
      cbn [PyFloat.drop_while]. rewrite N.eqb_refl.
      rewrite rev_app_distr. cbn [List.rev app].
      rewrite drop_while_stop by (now apply N.eqb_neq).
      cbn [List.rev]. now rewrite rev_involutive.
    - symmetry. rewrite !forallb_app. cbn.
      replace (c =? 47)%N with false by (symmetry; now apply N.eqb_neq).
      now rewrite andb_false_r. }
  split; [exact A|]. split; [unfold output_directory; now rewrite A|].
  split; [exact B|]. split.
  - unfold output_directory. rewrite B. destruct d; reflexivity.
  - unfold dirname. pose proof (up_to_last_slash_split [] f Hf) as H0.
    cbn [app] in H0. rewrite H0. reflexivity.
Qed.

(** *** The encoding of the file *)

Lemma encode_char_spec (c : codepoint) :
  match encode_char c with
  | Some b =>
      encodable c = true
      /\ Forall (fun x => (x < 256)%N) b
      /\ (1 <= List.length b <= 4)%nat
      /\ ((c < 128)%N -> b = [c])
  | None => encodable c = false
  end.
Proof.
  unfold encode_char, encodable.
  destruct (N.ltb_spec c 128).
  { replace (c <? 55296)%N with true by (symmetry; apply N.ltb_lt; lia).
    split; [reflexivity|]. split; [repeat constructor; lia|]. split; [cbn; lia|auto]. }
  destruct (N.ltb_spec c 2048).
  { replace (c <? 55296)%N with true by (symmetry; apply N.ltb_lt; lia).
    split; [reflexivity|].
    split; [|split; [cbn; lia|lia]].
    pose proof (N.mod_lt c 64 ltac:(lia)).
    assert (c / 64 < 32)%N by (apply N.Div0.div_lt_upper_bound; lia).
    repeat constructor; lia. }
  destruct (N.ltb_spec c 65536).
  { destruct (N.leb_spec 55296 c); destruct (N.leb_spec c 57343); cbn [andb].
    - replace (c <? 55296)%N with false by (symmetry; apply N.ltb_ge; lia).
      replace (57343 <? c)%N with false by (symmetry; apply N.ltb_ge; lia).
      reflexivity.
    - replace (57343 <? c)%N with true by (symmetry; apply N.ltb_lt; lia).
      replace (c <? 1114112)%N with true by (symmetry; apply N.ltb_lt; lia).
      split; [now rewrite orb_true_r|].
      split; [|split; [cbn; lia|lia]].
      pose proof (N.mod_lt c 64 ltac:(lia)).
      pose proof (N.mod_lt (c / 64) 64 ltac:(lia)).
      assert (c / 4096 < 16)%N by (apply N.Div0.div_lt_upper_bound; lia).
      repeat constructor; lia.
    - replace (c <? 55296)%N with true by (symmetry; apply N.ltb_lt; lia).
      split; [reflexivity|].
      split; [|split; [cbn; lia|lia]].
      pose proof (N.mod_lt c 64 ltac:(lia)).
      pose proof (N.mod_lt (c / 64) 64 ltac:(lia)).
      assert (c / 4096 < 16)%N by (apply N.Div0.div_lt_upper_bound; lia).
      repeat constructor; lia.
    - lia. }
  destruct (N.ltb_spec c 1114112).
  { replace (57343 <? c)%N with true by (symmetry; apply N.ltb_lt; lia).
    split; [now rewrite orb_true_r|].
    split; [|split; [cbn; lia|lia]].
    pose proof (N.mod_lt c 64 ltac:(lia)).
    pose proof (N.mod_lt (c / 64) 64 ltac:(lia)).
    pose proof (N.mod_lt (c / 4096) 64 ltac:(lia)).
    assert (c / 262144 < 5)%N by (apply N.Div0.div_lt_upper_bound; lia).
    repeat constructor; lia. }
  replace (c <? 55296)%N with false by (symmetry; apply N.ltb_ge; lia).
  now rewrite andb_false_r.
Qed.

(** X12. The encoding of the file: a string is encoded exactly when it
    has no surrogate (and then every byte is below 256, there are between
    one and four bytes for a character, and a string of ASCII characters
    is its own encoding); otherwise the encoding fails. *)
Theorem encode_utf8_spec (s : pystr) :
  match encode_utf8 s with
  | Some b =>
      Forall (fun c => encodable c = true) s
      /\ Forall (fun x => (x < 256)%N) b
      /\ (List.length s <= List.length b <= 4 * List.length s)%nat
      /\ (Forall (fun c => (c < 128)%N) s -> b = s)
  | None => Exists (fun c => encodable c = false) s
  end.
Proof.
  induction s as [|c s IH]; cbn [encode_utf8].
  { repeat split; try constructor; cbn; lia. }
  pose proof (encode_char_spec c) as Hc.
  destruct (encode_char c) as [b|].
  - destruct (encode_utf8 s) as [bs|].
    + destruct Hc as (H1 & H2 & H3 & H4). destruct IH as (I1 & I2 & I3 & I4).
      split; [now constructor|]. split; [now apply Forall_app|].
      split; [rewrite length_app; cbn [List.length]; lia|].
      intros H. inversion H; subst. rewrite H4, I4 by assumption. reflexivity.
    + now apply Exists_cons_tl.
  - now apply Exists_cons_hd.
Qed.

Lemma is_char_encodable (c : codepoint) :
  Xml.is_char c = true -> encodable c = true.
Proof.
  unfold Xml.is_char, Xml.between, encodable. intros H.
  rewrite !orb_true_iff, !andb_true_iff, !N.eqb_eq, !N.leb_le in H.
  destruct (N.ltb_spec c 55296); [reflexivity|]. cbn [orb].
  apply andb_true_intro. split; apply N.ltb_lt; lia.
Qed.

Lemma run_legal_chars (strict : bool) (s : pystr) (st st' : Xml.state) :
  Xml.run true strict st s = Some st' ->
  Forall (fun c => Xml.is_char c = true) s.
Proof.
  revert st. induction s as [|c s IH]; intros st H; [constructor|].
  cbn [Xml.run] in H.
  destruct (Xml.step true strict st c) as [st1|] eqn:E; [|discriminate].
  constructor; [|eapply IH; exact H].
  unfold Xml.step in E. destruct st as [stack m]. cbn [andb] in E.
  destruct (Xml.is_char c); [reflexivity|discriminate].
Qed.

Lemma encode_utf8_total (s : pystr) :
  Forall (fun c => encodable c = true) s -> exists b, encode_utf8 s = Some b.
Proof.
  induction 1 as [|c s Hc Hs IH]; [now exists []|].
  cbn [encode_utf8]. pose proof (encode_char_spec c) as H.
  destruct (encode_char c) as [b|]; [|congruence].
  destruct IH as (bs & ->). now exists (b ++ bs).
Qed.

(** A well-formed document has legal characters only, and these can be
    encoded. *)
Lemma well_formed_encodes (s : pystr) :
  Xml.well_formed s = true -> exists b, encode_utf8 s = Some b.
Proof.
  unfold Xml.well_formed, Xml.accepts. intros H.
  destruct (Xml.run true false ([], Xml.Prolog) s) as [st|] eqn:E; [|discriminate].
  apply encode_utf8_total.
  eapply Forall_impl; [|exact (run_legal_chars _ _ _ _ E)].
  apply is_char_encodable.
Qed.

(** *** [main] *)

Section WithUnicode.
Context {ucd : PyFloat.UnicodeData} {py : interpreter}.

(** [main] by cases on what the world does, the arguments being parsed:
    the fetching and the rendering return, and the markup can be
    encoded. *)
Lemma main_cases (net : pystr -> get_outcome) (w : world)
  (username : pystr) (given : option pystr) :
  exists (stats : option Stats) (svg : pystr) (content : list N),
    snd (fetch_stats net username) = Return stats
    /\ render_badge (value_text stats) = Return svg
    /\ Xml.well_formed svg = true
    /\ encode_utf8 svg = Some content
    /\ Entry.main net w (ParseReturns username given)
       = let output := output_of given in
         let fetched := List.map Fetching (fst (fetch_stats net username)) in
         let dir := output_directory output in
         match makedirs w dir with
         | Some text => (fetched ++ [MakeDirs dir], Raised OpMakeDirs text)
         | None =>
             match open_w w output with
             | Some text =>
                 (fetched ++ [MakeDirs dir; Open output], Raised OpOpen text)
             | None =>
                 match write_close w output content with
                 | Some text =>
                     (fetched ++ [MakeDirs dir; Open output;
                                  Write output content],
                      Raised OpWrite text)
                 | None =>
                     ((fetched ++ [MakeDirs dir; Open output;
                                   Write output content])
                      ++ [Stdout (confirmation output)],
                      match print w (confirmation output) with
                      | Some text => Raised OpPrint text
                      | None => Done
                      end)
                 end
             end
         end.
Proof.
  destruct (FetchFacts.fetch_stats_returns net username) as (stats & Hs).
  destruct (LabelFacts.render_label_well_formed stats) as (svg & Hm & Hw).
  destruct (well_formed_encodes svg Hw) as (content & Hc).
  exists stats, svg, content. repeat (split; [assumption|]).
  unfold Entry.main. destruct (fetch_stats net username) as [ev r].
  cbn [fst snd] in *. subst r. cbn [bind]. rewrite Hm, Hc. reflexivity.
Qed.



(** X14. When [fetch_stats] returns the absent value, [main] does not
    stop: on a file system that works for the output, it writes the badge
    with the label [no data], and then prints the confirmation; the run
    ends normally unless this [print] raises. *)
Theorem absent_stats_still_written (net : pystr -> get_outcome) (w : world)
  (username : pystr) (given : option pystr) :
  snd (fetch_stats net username) = Return None ->
  makedirs w (output_directory (output_of given)) = None ->
  open_w w (output_of given) = None ->
  (forall content, write_close w (output_of given) content = None) ->
  exists (svg : pystr) (content : list N),
    render_badge (lit "no data") = Return svg
    /\ encode_utf8 svg = Some content
    /\ Entry.main net w (ParseReturns username given)
       = (List.map Fetching (fst (fetch_stats net username))
          ++ [MakeDirs (output_directory (output_of given));
              Open (output_of given);
              Write (output_of given) content;
              Stdout (confirmation (output_of given))],
          match print w (confirmation (output_of given)) with
          | Some text => Raised OpPrint text
          | None => Done
          end).
Proof.
  intros Hn H1 H2 H3.
  destruct (main_cases net w username given)
    as (stats & svg & content & Hs & Hm & Hw & Hc & E).
  rewrite Hn in Hs. injection Hs as <-.
  exists svg, content. split; [exact Hm|]. split; [exact Hc|].
  rewrite E. cbv zeta. rewrite H1, H2, H3, <- app_assoc. reflexivity.
Qed.

End WithUnicode.

Lemma dirname_spec_witness :
  dirname (lit "monkeytype-badge.svg") = []
  /\ output_directory (lit "monkeytype-badge.svg") = lit "."
  /\ dirname (lit "assets/monkeytype-badge.svg") = lit "assets"
  /\ output_directory (lit "assets/monkeytype-badge.svg") = lit "assets"
  /\ dirname (lit "/monkeytype-badge.svg") = lit "/".
Proof.
  refine (dirname_spec (lit "asset") (lit "monkeytype-badge.svg") 115%N _ _).
  - discriminate.
  - vm_compute. repeat (constructor; [discriminate|]). constructor.
Defined.


Lemma absent_stats_still_written_witness :
  exists (svg : pystr) (content : list N),
    render_badge (lit "no data") = Return svg
    /\ encode_utf8 svg = Some content
    /\ @Entry.main PyFloat.ucd_ascii From_3_12
         (fun _ => GetRaises (lit "timed out")) working
         (ParseReturns (lit "Luke3512") None)
       = (List.map Fetching
            (fst (@fetch_stats PyFloat.ucd_ascii From_3_12
                    (fun _ => GetRaises (lit "timed out")) (lit "Luke3512")))
          ++ [MakeDirs (lit "assets");
              Open (lit "assets/monkeytype-badge.svg");
              Write (lit "assets/monkeytype-badge.svg") content;
              Stdout (lit "Wrote badge to assets/monkeytype-badge.svg")],
          Done).
Proof.
  apply (@absent_stats_still_written PyFloat.ucd_ascii From_3_12
           (fun _ => GetRaises (lit "timed out")) working (lit "Luke3512") None).
  - vm_compute. reflexivity.
  - reflexivity.
  - reflexivity.
  - reflexivity.
Defined.

End EntryFacts.
